(** * Study dashboard, persistence and validation layer

    A shallow embedding of [Phase3/src/repositories.py] and
    [Phase3/src/validation.py].

    The repositories are SQL statements sent to a SQLite connection; the
    embedding gives each statement its relational meaning over tables that
    are lists of rows: [filter] for WHERE, a nested loop for JOIN, the
    aggregates SUM and MAX with their NULL result on no row, a stable sort
    for ORDER BY.  A repository method is a function of the database state;
    a method that writes returns the new state.  [commit] changes nothing
    that a single connection can observe.

    Columns of type REAL (grades) are carried as exact rationals, the
    values of the stored numbers; the model does no arithmetic on them, and
    [avg_grade_weighted], which divides two sums of floating-point numbers,
    is not embedded.  A date reaches a table
    through [_iso], as the ISO text of a [date] object, and is read back
    from that text; the text determines the date, and the model keeps the
    date.

    [validation.py] works on text.  [datetime.strptime] is embedded as the
    regular expression it compiles a format into, with the backtracking of
    [re.match]. *)

From Stdlib Require Import ZArith QArith Qround List String Ascii Bool Lia.
From Stdlib Require Import Sorting.Sorted Sorting.Permutation.
Import ListNotations.

Local Open Scope Z_scope.

(* ===================================================================== *)
(** * Part I: definitions                                                 *)
(* ===================================================================== *)

(* --------------------------------------------------------------------- *)
(** ** Exceptions and results *)

Inductive exn : Type :=
| ValueError
| ValidationError
| RuntimeError
| TypeError.

Inductive result (A : Type) : Type :=
| Ok (a : A)
| Raise (e : exn).

Arguments Ok {A} a.
Arguments Raise {A} e.

(* --------------------------------------------------------------------- *)
(** ** Calendar dates ([datetime.date])

    A [date] is a triple; [valid_date] is the check of the [date]
    constructor, and [ymd2ord] is [date.toordinal], the proleptic
    Gregorian ordinal in which 0001-01-01 is day 1. *)

Record date : Type := mkdate { year : Z; month : Z; day : Z }.

Definition MINYEAR : Z := 1.
Definition MAXYEAR : Z := 9999.

Definition is_leap (y : Z) : bool :=
  (y mod 4 =? 0) && (negb (y mod 100 =? 0) || (y mod 400 =? 0)).

Definition DAYS_IN_MONTH : list Z :=
  [-1; 31; 28; 31; 30; 31; 30; 31; 31; 30; 31; 30; 31].

Definition DAYS_BEFORE_MONTH : list Z :=
  [-1; 0; 31; 59; 90; 120; 151; 181; 212; 243; 273; 304; 334].

Definition days_in_month (y m : Z) : Z :=
  if (m =? 2) && is_leap y then 29
  else nth (Z.to_nat m) DAYS_IN_MONTH 0.

Definition days_before_year (y : Z) : Z :=
  let y := y - 1 in
  y * 365 + y / 4 - y / 100 + y / 400.

Definition days_before_month (y m : Z) : Z :=
  nth (Z.to_nat m) DAYS_BEFORE_MONTH 0
  + (if (2 <? m) && is_leap y then 1 else 0).

Definition valid_date (d : date) : bool :=
  (MINYEAR <=? year d) && (year d <=? MAXYEAR)
  && (1 <=? month d) && (month d <=? 12)
  && (1 <=? day d) && (day d <=? days_in_month (year d) (month d)).

Definition ymd2ord (d : date) : Z :=
  days_before_year (year d) + days_before_month (year d) (month d) + day d.

(** The number of days from [a] to [b], as [(b - a).days] gives it. *)
Definition days_between (a b : date) : Z := ymd2ord b - ymd2ord a.

Definition date_eqb (a b : date) : bool :=
  (year a =? year b) && (month a =? month b) && (day a =? day b).

(* --------------------------------------------------------------------- *)
(** ** SQL values and built-in functions *)

(** [IS NOT NULL]. *)
Definition is_not_null {A : Type} (v : option A) : bool :=
  match v with Some _ => true | None => false end.

(** [COALESCE(v, d)]. *)
Definition coalesce {A : Type} (v : option A) (d : A) : A :=
  match v with Some a => a | None => d end.

(** [SUM] over integer values: NULL values are skipped, and the sum of no
    value is NULL. *)
Fixpoint sql_sum (vs : list (option Z)) : option Z :=
  match vs with
  | [] => None
  | None :: vs' => sql_sum vs'
  | Some v :: vs' =>
      match sql_sum vs' with
      | Some s => Some (v + s)
      | None => Some v
      end
  end.

(** [MAX] over integer values; NULL on no value. *)
Fixpoint sql_max (vs : list Z) : option Z :=
  match vs with
  | [] => None
  | v :: vs' =>
      match sql_max vs' with
      | Some m => Some (Z.max v m)
      | None => Some v
      end
  end.

(** [julianday(text)] on the ISO text of a date: the Julian day number at
    midnight, a half-integer.  This is the computation of SQLite's
    [computeJD], [(X1 + X2 + D + B - 1524.5)]; its integer divisions are
    those of C, which truncate. *)
Definition julian_int (d : date) : Z :=
  let Y := if month d <=? 2 then year d - 1 else year d in
  let M := if month d <=? 2 then month d + 12 else month d in
  let A := Z.quot Y 100 in
  let B := 2 - A + Z.quot A 4 in
  let X1 := Z.quot (36525 * (Y + 4716)) 100 in
  let X2 := Z.quot (306001 * (M + 1)) 10000 in
  X1 + X2 + day d + B.

Definition julianday (d : date) : Q :=
  (inject_Z (julian_int d) - (15245 # 10))%Q.

(** [CAST(x AS INTEGER)] of a REAL: the fractional part is dropped. *)
Definition cast_integer (x : Q) : Z := Z.quot (Qnum x) (Zpos (Qden x)).

(** Stable insertion sort, the meaning of [ORDER BY key ASC]. *)
Fixpoint insert_asc {A : Type} (key : A -> Z) (x : A) (l : list A) : list A :=
  match l with
  | [] => [x]
  | y :: l' => if key x <? key y then x :: l else y :: insert_asc key x l'
  end.

Fixpoint order_by_asc {A : Type} (key : A -> Z) (l : list A) : list A :=
  match l with
  | [] => []
  | x :: l' => insert_asc key x (order_by_asc key l')
  end.

(** [ORDER BY key DESC]. *)
Definition order_by_desc {A : Type} (key : A -> Z) (l : list A) : list A :=
  order_by_asc (fun x => - key x) l.

(** [a JOIN b ON on]: the nested loop, [a] outside. *)
Definition sql_join {A B : Type} (a : list A) (b : list B)
  (on : A -> B -> bool) : list (A * B) :=
  flat_map (fun x => map (fun y => (x, y)) (filter (on x) b)) a.

(** [cursor.fetchone()]. *)
Definition fetchone {A : Type} (rows : list A) : option A :=
  match rows with
  | [] => None
  | r :: _ => Some r
  end.

(* --------------------------------------------------------------------- *)
(** ** Domain records ([models.py])

    Modelled from the spec: [models.py] is not among the sources.  The
    fields are those of section 3 of the specification, which are the ones
    the repositories read and write; the optional ones are [option]s. *)

Module Student.
Record t : Type := mk {
  vorname : string;
  nachname : string;
  matrikelnummer : string;
  geburtsdatum : option date;
  adresse : option string
}.
End Student.

Module Studiengang.
Record t : Type := mk {
  name : string;
  start_datum : date;
  soll_studiensemester : option Z;
  soll_durchschnittsnote : Q
}.
End Studiengang.

Module ModulBelegung.
Record t : Type := mk {
  belegung_id : option Z;
  studiengang_id : Z;
  modul_id : Z;
  plan_semester_nr : Z;
  ist_semester_nr : option Z;
  soll_bestanden_am : option date;
  ist_bestanden_am : option date;
  soll_note : option Q;
  ist_note : option Q;
  anzahl_versuche : Z
}.
End ModulBelegung.

(* --------------------------------------------------------------------- *)
(** ** Tables and the connection

    One record per table row, its columns named after the SQL columns with
    the alias the queries use as a prefix ([mb.modul_id] is [mb_modul_id],
    [m.ects] is [m_ects]). *)

Record student_row : Type := mk_student_row {
  st_student_id : Z;
  st_vorname : string;
  st_nachname : string;
  st_matrikelnummer : string;
  st_geburtsdatum : option date;
  st_adresse : option string
}.

Record studiengang_row : Type := mk_studiengang_row {
  sg_studiengang_id : Z;
  sg_student_id : Z;
  sg_name : string;
  sg_start_datum : date;
  sg_soll_studiensemester : option Z;
  sg_soll_durchschnittsnote : Q
}.

Record modul_row : Type := mk_modul_row {
  m_modul_id : Z;
  m_titel : string;
  m_ects : Z;
  m_plan_semester_nr : Z;
  m_default_soll_bestanden_am : option date
}.

Record belegung_row : Type := mk_belegung_row {
  mb_belegung_id : Z;
  mb_studiengang_id : Z;
  mb_modul_id : Z;
  mb_plan_semester_nr : Z;
  mb_ist_semester_nr : option Z;
  mb_soll_bestanden_am : option date;
  mb_ist_bestanden_am : option date;
  mb_soll_note : option Q;
  mb_ist_note : option Q;
  mb_anzahl_versuche : Z
}.

(** The state behind a [DatabaseProtocol] handle: the four tables and the
    register of the connection that [last_insert_rowid()] reads. *)
Record DB : Type := mk_DB {
  student : list student_row;
  studiengang : list studiengang_row;
  modul : list modul_row;
  modul_belegung : list belegung_row;
  last_insert_rowid : Z
}.

Definition empty_DB : DB := mk_DB [] [] [] [] 0.

(** A cursor ([CursorProtocol]): the attribute [lastrowid] and the rows of
    the result. *)
Record cursor (R : Type) : Type := mk_cursor {
  lastrowid : option Z;
  fetchall : list R
}.

Arguments mk_cursor {R} _ _.
Arguments lastrowid {R} _.
Arguments fetchall {R} _.

(** [_iso]: a date goes to the database as its ISO text, [None] as NULL. *)
Definition _iso (d : option date) : option date := d.

(** The truth value Python gives [getattr(cursor, "lastrowid", None)]:
    [None] and [0] are false. *)
Definition truthy (v : option Z) : bool :=
  match v with
  | None => false
  | Some z => negb (z =? 0)
  end.

(** The rowid SQLite gives a row inserted without one: 1 in an empty table,
    otherwise one more than the largest in the table. *)
Definition new_rowid (ids : list Z) : Z :=
  match sql_max ids with
  | None => 1
  | Some m => m + 1
  end.

(* --------------------------------------------------------------------- *)
(** ** StudentRepository *)

(** [ON CONFLICT(matrikelnummer) DO UPDATE SET vorname=excluded.vorname,
    nachname=excluded.nachname, geburtsdatum=excluded.geburtsdatum,
    adresse=excluded.adresse]: the four assignments, on the row in
    conflict. *)
Definition do_update_set (s : Student.t) (r : student_row) : student_row :=
  {| st_student_id := st_student_id r;
     st_vorname := Student.vorname s;
     st_nachname := Student.nachname s;
     st_matrikelnummer := st_matrikelnummer r;
     st_geburtsdatum := _iso (Student.geburtsdatum s);
     st_adresse := Student.adresse s |}.

Definition in_conflict (s : Student.t) (r : student_row) : bool :=
  String.eqb (st_matrikelnummer r) (Student.matrikelnummer s).

(** Modelled from the spec: the [lastrowid] of the cursor that the storage
    adapter ([db.py], the [sqlite3] connection behind [DatabaseProtocol],
    not among the sources) returns for an INSERT statement.  Section 4.1
    of the specification: the attribute exposes "the last inserted row's
    surrogate id (may be absent/zero after an UPDATE)".  [sqlite3] reads it
    from the register of the connection once the statement has run: the
    rowid of the last row inserted on the connection, 0 when there was
    none.  It is the register the [create] methods of the repositories
    read with [SELECT last_insert_rowid()]. *)
Definition insert_cursor (db_after : DB) : cursor unit :=
  mk_cursor (Some (last_insert_rowid db_after)) [].

(** The statement of [upsert].  A row is in conflict when it carries the
    new row's [matrikelnummer], the column of the ON CONFLICT clause.
    Without conflict the row is inserted under a new rowid, which the
    connection records in its register; with a conflict the row is updated
    and no row is inserted, so the register keeps the rowid of the last
    insert on the connection. *)
Definition insert_student_on_conflict (db : DB) (s : Student.t)
  : DB * cursor unit :=
  let db' :=
    if existsb (in_conflict s) (student db) then
      {| student :=
           map (fun r => if in_conflict s r then do_update_set s r else r)
               (student db);
         studiengang := studiengang db;
         modul := modul db;
         modul_belegung := modul_belegung db;
         last_insert_rowid := last_insert_rowid db |}
    else
      let id := new_rowid (map st_student_id (student db)) in
      {| student :=
           student db
           ++ [ {| st_student_id := id;
                   st_vorname := Student.vorname s;
                   st_nachname := Student.nachname s;
                   st_matrikelnummer := Student.matrikelnummer s;
                   st_geburtsdatum := _iso (Student.geburtsdatum s);
                   st_adresse := Student.adresse s |} ];
         studiengang := studiengang db;
         modul := modul db;
         modul_belegung := modul_belegung db;
         last_insert_rowid := id |}
  in
  (db', insert_cursor db').

(** [SELECT student_id FROM student WHERE matrikelnummer=?]. *)
Definition select_student_id (db : DB) (matrikelnummer : string)
  : cursor Z :=
  mk_cursor None
    (map st_student_id
       (filter (fun r => String.eqb (st_matrikelnummer r) matrikelnummer)
               (student db))).

(** [StudentRepository.upsert]: the state after the call and the value
    returned or the exception raised. *)
Definition upsert (db : DB) (s : Student.t) : DB * result Z :=
  let (db', cur) := insert_student_on_conflict db s in
  if truthy (lastrowid cur) then
    (db', Ok (coalesce (lastrowid cur) 0))
  else
    let cur' := select_student_id db' (Student.matrikelnummer s) in
    match fetchone (fetchall cur') with
    | None => (db', Raise RuntimeError)
    | Some student_id => (db', Ok student_id)
    end.

(* --------------------------------------------------------------------- *)
(** ** StudiengangRepository *)

(** The [Studiengang(...)] built from a row. *)
Definition studiengang_of_row (row : studiengang_row) : Studiengang.t :=
  {| Studiengang.name := sg_name row;
     Studiengang.start_datum := sg_start_datum row;
     Studiengang.soll_studiensemester := sg_soll_studiensemester row;
     Studiengang.soll_durchschnittsnote := sg_soll_durchschnittsnote row |}.

(** [get_latest_for_student]: [SELECT * FROM studiengang WHERE student_id=?
    ORDER BY studiengang_id DESC LIMIT 1], then the row as a pair. *)
Definition get_latest_for_student (db : DB) (student_id : Z)
  : option (Z * Studiengang.t) :=
  let rows :=
    firstn 1
      (order_by_desc sg_studiengang_id
         (filter (fun r => sg_student_id r =? student_id) (studiengang db))) in
  match fetchone rows with
  | None => None
  | Some row => Some (sg_studiengang_id row, studiengang_of_row row)
  end.

(* --------------------------------------------------------------------- *)
(** ** ModulBelegungRepository *)

(** The row [UPDATE modul_belegung SET ...] writes over [r]: every column
    but the two of the key. *)
Definition update_set (b : ModulBelegung.t) (r : belegung_row) : belegung_row :=
  {| mb_belegung_id := mb_belegung_id r;
     mb_studiengang_id := mb_studiengang_id r;
     mb_modul_id := ModulBelegung.modul_id b;
     mb_plan_semester_nr := ModulBelegung.plan_semester_nr b;
     mb_ist_semester_nr := ModulBelegung.ist_semester_nr b;
     mb_soll_bestanden_am := _iso (ModulBelegung.soll_bestanden_am b);
     mb_ist_bestanden_am := _iso (ModulBelegung.ist_bestanden_am b);
     mb_soll_note := ModulBelegung.soll_note b;
     mb_ist_note := ModulBelegung.ist_note b;
     mb_anzahl_versuche := ModulBelegung.anzahl_versuche b |}.

(** [WHERE studiengang_id=? AND belegung_id=?]. *)
Definition key_matches (studiengang_id belegung_id : Z) (r : belegung_row)
  : bool :=
  (mb_studiengang_id r =? studiengang_id) && (mb_belegung_id r =? belegung_id).

Definition set_modul_belegung (db : DB) (rows : list belegung_row) : DB :=
  {| student := student db;
     studiengang := studiengang db;
     modul := modul db;
     modul_belegung := rows;
     last_insert_rowid := last_insert_rowid db |}.

(** [ModulBelegungRepository.update]. *)
Definition update (db : DB) (b : ModulBelegung.t) : result DB :=
  match ModulBelegung.belegung_id b with
  | None => Raise ValueError
  | Some belegung_id =>
      Ok (set_modul_belegung db
            (map (fun r =>
                    if key_matches (ModulBelegung.studiengang_id b) belegung_id r
                    then update_set b r else r)
                 (modul_belegung db)))
  end.

(** [ModulBelegungRepository.delete]. *)
Definition delete (db : DB) (studiengang_id belegung_id : Z) : result DB :=
  Ok (set_modul_belegung db
        (filter (fun r => negb (key_matches studiengang_id belegung_id r))
                (modul_belegung db))).

(** The FROM and WHERE clauses the two KPI queries share:
    [modul_belegung mb JOIN modul m ON m.modul_id = mb.modul_id
     WHERE mb.studiengang_id=? AND cond]. *)
Definition belegung_join_modul (db : DB) (studiengang_id : Z)
  (cond : belegung_row -> bool) : list (belegung_row * modul_row) :=
  filter (fun r => (mb_studiengang_id (fst r) =? studiengang_id) && cond (fst r))
    (sql_join (modul_belegung db) (modul db)
       (fun mb m => m_modul_id m =? mb_modul_id mb)).

(** [float(n)] of an integer. *)
Definition float (n : Z) : Q := inject_Z n.

(** [sum_ects_completed]: [SELECT COALESCE(SUM(m.ects),0) AS ects ... AND
    mb.ist_bestanden_am IS NOT NULL]. *)
Definition sum_ects_completed (db : DB) (studiengang_id : Z) : Q :=
  let rows :=
    belegung_join_modul db studiengang_id
      (fun mb => is_not_null (mb_ist_bestanden_am mb)) in
  let ects := coalesce (sql_sum (map (fun r => Some (m_ects (snd r))) rows)) 0 in
  float ects.

(** A row of the CTE [latest]: [MAX(belegung_id) AS last_id, modul_id]. *)
Record latest_row : Type := mk_latest_row {
  last_id : option Z;
  l_modul_id : Z
}.

(** [SELECT MAX(belegung_id) AS last_id, modul_id FROM modul_belegung
    WHERE studiengang_id=? GROUP BY modul_id]: one row per value of
    [modul_id] among the rows the WHERE keeps. *)
Definition latest (db : DB) (studiengang_id : Z) : list latest_row :=
  let rows :=
    filter (fun mb => mb_studiengang_id mb =? studiengang_id)
           (modul_belegung db) in
  map (fun k =>
         {| last_id :=
              sql_max (map mb_belegung_id
                         (filter (fun mb => mb_modul_id mb =? k) rows));
            l_modul_id := k |})
      (nodup Z.eq_dec (map mb_modul_id rows)).

(** [x = y] in SQL, where [y] may be NULL: NULL equals nothing. *)
Definition sql_eq (x : Z) (y : option Z) : bool :=
  match y with
  | Some z => x =? z
  | None => false
  end.

(** A row of the result of [plot_latest_per_module]. *)
Record plot_row : Type := mk_plot_row {
  p_modul_id : Z;
  p_titel : string;
  p_ects : Z;
  p_soll_note : option Q;
  p_ist_note : option Q;
  p_soll_bestanden_am : option date;
  p_ist_bestanden_am : option date;
  delta_days : option Z
}.

(** The CASE expression of the query:
    [CAST((julianday(ist) - julianday(soll)) AS INTEGER)] when both dates
    are not NULL, else NULL. *)
Definition case_delta_days (soll ist : option date) : option Z :=
  if is_not_null soll && is_not_null ist then
    match soll, ist with
    | Some s, Some i => Some (cast_integer (julianday i - julianday s)%Q)
    | _, _ => None
    end
  else None.

(** The SELECT list of [plot_latest_per_module]. *)
Definition select_plot (mb : belegung_row) (m : modul_row) : plot_row :=
  {| p_modul_id := mb_modul_id mb;
     p_titel := m_titel m;
     p_ects := m_ects m;
     p_soll_note := mb_soll_note mb;
     p_ist_note := mb_ist_note mb;
     p_soll_bestanden_am := mb_soll_bestanden_am mb;
     p_ist_bestanden_am := mb_ist_bestanden_am mb;
     delta_days :=
       case_delta_days (mb_soll_bestanden_am mb) (mb_ist_bestanden_am mb) |}.

(** [plot_latest_per_module]: [latest l JOIN modul_belegung mb ON
    mb.belegung_id = l.last_id JOIN modul m ON m.modul_id = mb.modul_id
    ORDER BY m.modul_id ASC]. *)
Definition plot_latest_per_module (db : DB) (studiengang_id : Z)
  : list plot_row :=
  let l_mb :=
    sql_join (latest db studiengang_id) (modul_belegung db)
      (fun l mb => sql_eq (mb_belegung_id mb) (last_id l)) in
  let l_mb_m :=
    sql_join l_mb (modul db)
      (fun lmb m => m_modul_id m =? mb_modul_id (snd lmb)) in
  map (fun r => select_plot (snd (fst r)) (snd r))
      (order_by_asc (fun r => m_modul_id (snd r)) l_mb_m).

(* --------------------------------------------------------------------- *)
(** ** Validation: the text functions [parse_date] relies on

    A [string] is a sequence of code points below 256.  [datetime.strptime]
    compiles the format into a regular expression, one named group per
    directive, matches it at the start of the text, refuses text left
    over, and builds the date from the groups. *)

Local Open Scope string_scope.

(** [str.isspace] on one character. *)
Definition isspace (c : ascii) : bool :=
  let n := N_of_ascii c in
  ((9 <=? n) && (n <=? 13) || (28 <=? n) && (n <=? 32)
   || (n =? 133) || (n =? 160))%N.

Fixpoint lstrip (s : string) : string :=
  match s with
  | EmptyString => EmptyString
  | String c s' => if isspace c then lstrip s' else s
  end.

Fixpoint rstrip (s : string) : string :=
  match s with
  | EmptyString => EmptyString
  | String c s' =>
      match rstrip s' with
      | EmptyString => if isspace c then EmptyString else String c EmptyString
      | r => String c r
      end
  end.

(** [str.strip()]. *)
Definition strip (s : string) : string := rstrip (lstrip s).

Definition is_digit (c : ascii) : bool :=
  let n := N_of_ascii c in ((48 <=? n) && (n <=? 57))%N.

Definition digit_value (c : ascii) : Z := Z.of_N (N_of_ascii c) - 48.

Fixpoint int_digits (acc : Z) (s : string) : option Z :=
  match s with
  | EmptyString => Some acc
  | String c s' =>
      if is_digit c then int_digits (10 * acc + digit_value c) s' else None
  end.

(** [int(s)] on an unsigned decimal numeral, spaces around it allowed;
    [None] is [ValueError]. *)
Definition py_int (s : string) : option Z :=
  match strip s with
  | EmptyString => None
  | t => int_digits 0 t
  end.

(** One character of a pattern: [\d], a range [[a-b]] or the character
    itself. *)
Inductive charclass : Type :=
| Digit
| Range (lo hi : ascii)
| Char (c : ascii).

Definition class_matches (k : charclass) (c : ascii) : bool :=
  match k with
  | Digit => is_digit c
  | Range lo hi =>
      ((N_of_ascii lo <=? N_of_ascii c) && (N_of_ascii c <=? N_of_ascii hi))%N
  | Char c' => Ascii.eqb c c'
  end.

(** The directives of the three formats. *)
Inductive directive : Type := dir_d | dir_m | dir_y | dir_Y.

(** A pattern is a sequence of literal characters and named groups; a group
    is an alternation, each alternative a sequence of character classes. *)
Inductive regex_item : Type :=
| Literal (c : ascii)
| Group (g : directive) (alts : list (list charclass)).

(** The table of [TimeRE]:
    d is [3[0-1]|[1-2]\d|0[1-9]|[1-9]| [1-9]], m is [1[0-2]|0[1-9]|[1-9]],
    y is [\d\d], Y is [\d\d\d\d]. *)
Definition TimeRE (g : directive) : list (list charclass) :=
  match g with
  | dir_d =>
      [ [Char "3"; Range "0" "1"];
        [Range "1" "2"; Digit];
        [Char "0"; Range "1" "9"];
        [Range "1" "9"];
        [Char " "; Range "1" "9"] ]
  | dir_m =>
      [ [Char "1"; Range "0" "2"];
        [Char "0"; Range "1" "9"];
        [Range "1" "9"] ]
  | dir_y => [ [Digit; Digit] ]
  | dir_Y => [ [Digit; Digit; Digit; Digit] ]
  end.

Definition directive_of (c : ascii) : option directive :=
  if Ascii.eqb c "d" then Some dir_d
  else if Ascii.eqb c "m" then Some dir_m
  else if Ascii.eqb c "y" then Some dir_y
  else if Ascii.eqb c "Y" then Some dir_Y
  else None.

(** [TimeRE.pattern]: every [%x] becomes the group of [x], every other
    character stands for itself.  [None] is the [ValueError] of a bad
    directive. *)
Fixpoint pattern (format : string) : option (list regex_item) :=
  match format with
  | EmptyString => Some []
  | String c rest =>
      if Ascii.eqb c "%" then
        match rest with
        | EmptyString => None
        | String x rest' =>
            match directive_of x, pattern rest' with
            | Some g, Some p => Some (Group g (TimeRE g) :: p)
            | _, _ => None
            end
        end
      else
        match pattern rest with
        | Some p => Some (Literal c :: p)
        | None => None
        end
  end.

(** One alternative against the start of the text: the text matched and the
    text after it. *)
Fixpoint match_alternative (a : list charclass) (s : string)
  : option (string * string) :=
  match a with
  | [] => Some (EmptyString, s)
  | k :: a' =>
      match s with
      | EmptyString => None
      | String c s' =>
          if class_matches k c then
            match match_alternative a' s' with
            | Some (txt, rest) => Some (String c txt, rest)
            | None => None
            end
          else None
      end
  end.

(** [re.match]: the backtracking matcher.  The alternatives of a group are
    tried from left to right, and one is kept only if the rest of the
    pattern matches after it.  The result is the groups found and the text
    after the match. *)
Fixpoint re_match (p : list regex_item) (s : string)
  : option (list (directive * string) * string) :=
  match p with
  | [] => Some ([], s)
  | Literal c :: p' =>
      match s with
      | EmptyString => None
      | String c' s' => if Ascii.eqb c' c then re_match p' s' else None
      end
  | Group g alts :: p' =>
      (fix try_alternatives (alts : list (list charclass)) :=
         match alts with
         | [] => None
         | a :: alts' =>
             match match_alternative a s with
             | Some (txt, rest) =>
                 match re_match p' rest with
                 | Some (found, rest') => Some ((g, txt) :: found, rest')
                 | None => try_alternatives alts'
                 end
             | None => try_alternatives alts'
             end
         end) alts
  end.

(** The loop of [_strptime] over the groups found: year, month and day
    start at 1900, 1 and 1; a two-digit year up to 68 is in the century
    2000, from 69 on in the century 1900. *)
Definition set_field (ymd : Z * Z * Z) (g : directive) (v : Z) : Z * Z * Z :=
  let '(y, m, d) := ymd in
  match g with
  | dir_y => (if (v <=? 68)%Z then v + 2000 else v + 1900, m, d)
  | dir_Y => (v, m, d)
  | dir_m => (y, v, d)
  | dir_d => (y, m, v)
  end.

Fixpoint convert_groups (ymd : Z * Z * Z) (found : list (directive * string))
  : option (Z * Z * Z) :=
  match found with
  | [] => Some ymd
  | (g, txt) :: found' =>
      match py_int txt with
      | Some v => convert_groups (set_field ymd g v) found'
      | None => None
      end
  end.

(** [datetime.strptime(data_string, format).date()]; every failure is a
    [ValueError]. *)
Definition strptime (data_string format : string) : result date :=
  match pattern format with
  | None => Raise ValueError
  | Some p =>
      match re_match p data_string with
      | None => Raise ValueError
      | Some (found, EmptyString) =>
          match convert_groups (1900, 1, 1) found with
          | Some (y, m, d) =>
              if valid_date (mkdate y m d) then Ok (mkdate y m d)
              else Raise ValueError
          | None => Raise ValueError
          end
      | Some (_, String _ _) => Raise ValueError
      end
  end.

(** The formats of [parse_date], in the order of its loop. *)
Definition DATE_FORMATS : list string := ["%Y-%m-%d"; "%d.%m.%y"; "%d.%m.%Y"].

(** The loop [for fmt in (...)]: the first format that parses returns; a
    [ValueError] goes on to the next format; after the last one the
    [ValidationError] is raised. *)
Fixpoint try_formats (t : string) (formats : list string)
  : result (option date) :=
  match formats with
  | [] => Raise ValidationError
  | fmt :: formats' =>
      match strptime t fmt with
      | Ok d => Ok (Some d)
      | Raise ValueError => try_formats t formats'
      | Raise e => Raise e
      end
  end.

(** [parse_date]; the argument [None] is Python's [None], which
    [text or ""] turns into the empty string. *)
Definition parse_date (text : option string) : result (option date) :=
  let t := strip (match text with Some s => s | None => "" end) in
  match t with
  | EmptyString => Ok None
  | _ => try_formats t DATE_FORMATS
  end.

Local Close Scope string_scope.

(* --------------------------------------------------------------------- *)
(** ** Vocabulary of the specification *)

(** Ascending order of keys, equal keys allowed. *)
Definition key_le {A : Type} (key : A -> Z) (a b : A) : Prop :=
  key a <= key b.

(** The programs a student owns. *)
Definition owns (db : DB) (student_id : Z) (r : studiengang_row) : Prop :=
  In r (studiengang db) /\ sg_student_id r = student_id.

(** A stored enrollment has the composite key [(studiengang_id,
    belegung_id)]. *)
Definition has_key (studiengang_id belegung_id : Z) (r : belegung_row)
  : Prop :=
  mb_studiengang_id r = studiengang_id /\ mb_belegung_id r = belegung_id.

(** The row a first [upsert] of [s] stores under the id [id]. *)
Definition student_row_of (id : Z) (s : Student.t) : student_row :=
  {| st_student_id := id;
     st_vorname := Student.vorname s;
     st_nachname := Student.nachname s;
     st_matrikelnummer := Student.matrikelnummer s;
     st_geburtsdatum := Student.geburtsdatum s;
     st_adresse := Student.adresse s |}.

(** What an [upsert] of [s] may do to a stored row [r], giving [r']: the
    id and the matrikelnummer stay; a row with another matrikelnummer
    stays as a whole; the row with the matrikelnummer of [s] takes the
    other four fields of [s]. *)
Definition overwritten_in_place (s : Student.t) (r r' : student_row) : Prop :=
  st_student_id r' = st_student_id r
  /\ st_matrikelnummer r' = st_matrikelnummer r
  /\ (st_matrikelnummer r <> Student.matrikelnummer s -> r' = r)
  /\ (st_matrikelnummer r = Student.matrikelnummer s ->
      st_vorname r' = Student.vorname s
      /\ st_nachname r' = Student.nachname s
      /\ st_geburtsdatum r' = Student.geburtsdatum s
      /\ st_adresse r' = Student.adresse s).

(** Modelled from the spec: the schema is created outside the sources;
    section 6 of the specification declares [modul_id] the primary key of
    [modul], [belegung_id] the primary key of [modul_belegung] and
    [modul_id] of [modul_belegung] a foreign key.

    The primary key of the catalog: no two modules share a [modul_id]. *)
Definition modul_pk (db : DB) : Prop := NoDup (map m_modul_id (modul db)).

(** The primary key of the enrollments: no two share a [belegung_id]. *)
Definition belegung_pk (db : DB) : Prop :=
  NoDup (map mb_belegung_id (modul_belegung db)).

(** The foreign key of an enrollment: its module is in the catalog. *)
Definition belegung_fk (db : DB) : Prop :=
  forall mb, In mb (modul_belegung db) ->
             exists m, In m (modul db) /\ m_modul_id m = mb_modul_id mb.

(** The enrollments of a degree program. *)
Definition enrollments_of (db : DB) (studiengang_id : Z) : list belegung_row :=
  filter (fun mb => mb_studiengang_id mb =? studiengang_id) (modul_belegung db).

(** The catalog entry of the module of an enrollment. *)
Definition module_of (db : DB) (mb : belegung_row) : option modul_row :=
  find (fun m => m_modul_id m =? mb_modul_id mb) (modul db).

(** The credit weight of the module of an enrollment; an enrollment whose
    module is not in the catalog carries no credit. *)
Definition credit_weight (db : DB) (mb : belegung_row) : Z :=
  match module_of db mb with
  | Some m => m_ects m
  | None => 0
  end.

Definition sum_Z (l : list Z) : Z := fold_right Z.add 0 l.

(** The enrollments of a program with an actual-completion date. *)
Definition completed_enrollments (db : DB) (studiengang_id : Z)
  : list belegung_row :=
  filter (fun mb => is_not_null (mb_ist_bestanden_am mb))
         (enrollments_of db studiengang_id).

(** [b] is the latest enrollment of its module in the program: it is an
    enrollment of the program, and no enrollment of the program for the
    same module has a higher [belegung_id]. *)
Definition latest_of_module (db : DB) (studiengang_id : Z) (b : belegung_row)
  : Prop :=
  In b (modul_belegung db)
  /\ mb_studiengang_id b = studiengang_id
  /\ forall b', In b' (modul_belegung db) ->
                mb_studiengang_id b' = studiengang_id ->
                mb_modul_id b' = mb_modul_id b ->
                mb_belegung_id b' <= mb_belegung_id b.

(** Ascending order of the module ids, no two equal. *)
Definition ascending_modul_id (rows : list plot_row) : Prop :=
  StronglySorted (fun r r' => p_modul_id r < p_modul_id r') rows.


(** The same for an enrollment record as the caller holds it. *)
Definition shows_attempt (r : plot_row) (b : ModulBelegung.t) (m : modul_row)
  : Prop :=
  p_modul_id r = ModulBelegung.modul_id b
  /\ p_titel r = m_titel m
  /\ p_ects r = m_ects m
  /\ p_soll_note r = ModulBelegung.soll_note b
  /\ p_ist_note r = ModulBelegung.ist_note b
  /\ p_soll_bestanden_am r = ModulBelegung.soll_bestanden_am b
  /\ p_ist_bestanden_am r = ModulBelegung.ist_bestanden_am b.

(** The date columns of the enrollments hold dates of the calendar, as
    the [date] objects whose ISO text the repository stores are. *)
Definition dates_valid (db : DB) : Prop :=
  forall mb d,
    In mb (modul_belegung db) ->
    mb_soll_bestanden_am mb = Some d \/ mb_ist_bestanden_am mb = Some d ->
    valid_date d = true.

(** [a] is an earlier day than [b]. *)
Definition earlier (a b : date) : Prop :=
  year a < year b
  \/ (year a = year b /\ month a < month b)
  \/ (year a = year b /\ month a = month b /\ day a < day b).

(** A text of white space only. *)
Fixpoint all_space (s : string) : bool :=
  match s with
  | EmptyString => true
  | String c s' => isspace c && all_space s'
  end.

(** The text [parse_date] works on: its argument, trimmed. *)
Definition trimmed (text : option string) : string :=
  strip (match text with Some s => s | None => EmptyString end).

(** A format matches a text when [strptime] returns a date for it. *)
Definition matches (t format : string) (d : date) : Prop :=
  strptime t format = Ok d.

Definition no_match (t format : string) : Prop :=
  forall d, strptime t format <> Ok d.

(** The two characters of a number below 100, with a leading zero. *)
Definition two_digits (n : Z) : string :=
  String (ascii_of_N (Z.to_N (48 + n / 10)))
    (String (ascii_of_N (Z.to_N (48 + n mod 10))) EmptyString).

(** The text [DD.MM.YY] of a day, a month and a two-digit year. *)
Definition dd_mm_yy (d m y : Z) : string :=
  (two_digits d ++ "." ++ two_digits m ++ "." ++ two_digits y)%string.

(** The year a two-digit year stands for. *)
Definition century_year (y : Z) : Z :=
  if y <=? 68 then 2000 + y else 1900 + y.

(** The integers [lo], [lo + 1], ..., [lo + n - 1]. *)
Definition Z_range (lo : Z) (n : nat) : list Z :=
  map (fun k => lo + Z.of_nat k) (seq 0 n).

(** [parse_date] reads the text [DD.MM.YY] as the day [d] of month [m] of
    the year [century_year y], whenever that is a date of the calendar. *)
Definition reads_two_digit_year (y m d : Z) : bool :=
  if valid_date (mkdate (century_year y) m d) then
    match parse_date (Some (dd_mm_yy d m y)) with
    | Ok (Some d') => date_eqb d' (mkdate (century_year y) m d)
    | _ => false
    end
  else true.

(** The id of the stored student with a matrikelnummer, if any. *)
Definition stored_student_id (db : DB) (matrikelnummer : string) : option Z :=
  option_map st_student_id
    (find (fun r => String.eqb (st_matrikelnummer r) matrikelnummer)
          (student db)).

(* --------------------------------------------------------------------- *)
(** ** Sample data *)

Definition ada : Student.t :=
  Student.mk "Ada" "Byron" "M-1001" (Some (mkdate 1815 12 10)) None.

Definition bob : Student.t :=
  Student.mk "Bob" "Muster" "M-1002" None (Some "Bonn"%string).

(** [ada] again, under a new name and address. *)
Definition ada_renamed : Student.t :=
  Student.mk "Ada" "Lovelace" "M-1001" (Some (mkdate 1815 12 10))
             (Some "London"%string).

(** Three calls on a new connection: [ada] and [bob] are saved, then
    [ada] is saved again with changed fields. *)
Definition three_upserts : DB * (result Z * result Z * result Z) :=
  let (db1, r1) := upsert empty_DB ada in
  let (db2, r2) := upsert db1 bob in
  let (db3, r3) := upsert db2 ada_renamed in
  (db3, (r1, r2, r3)).

Definition mathematik : modul_row :=
  mk_modul_row 1 "Mathematik" 5 1 None.

Definition programmierung : modul_row :=
  mk_modul_row 2 "Programmierung" 10 1 None.

Definition statistik : modul_row :=
  mk_modul_row 3 "Statistik" 5 2 (Some (mkdate 2024 7 1)).

(** One student with two degree programs, 1 and 3, and a second student
    with program 2.  Program 3 has two attempts at module 2 (the first
    graded 2.0, the resit 1.3), one at module 1 that was passed ten days
    before its target date, and a planned one at module 3. *)
Definition sample_db : DB :=
  {| student := [ student_row_of 1 ada; student_row_of 2 bob ];
     studiengang :=
       [ mk_studiengang_row 1 1 "Informatik" (mkdate 2022 10 1) (Some 6) 2;
         mk_studiengang_row 2 2 "Physik" (mkdate 2023 4 1) None (25 # 10);
         mk_studiengang_row 3 1 "Data Science" (mkdate 2023 10 1) (Some 4)
                            (18 # 10) ];
     modul := [ programmierung; mathematik; statistik ];
     modul_belegung :=
       [ mk_belegung_row 1 3 2 1 (Some 1)
           (Some (mkdate 2024 1 10)) (Some (mkdate 2024 2 1))
           (Some 2%Q) (Some 2%Q) 1;
         mk_belegung_row 2 3 1 1 (Some 1)
           (Some (mkdate 2024 3 1)) (Some (mkdate 2024 2 20))
           (Some 2%Q) (Some (17 # 10)%Q) 1;
         mk_belegung_row 3 3 2 1 (Some 2)
           (Some (mkdate 2024 1 10)) (Some (mkdate 2024 1 15))
           (Some 2%Q) (Some (13 # 10)%Q) 2;
         mk_belegung_row 4 3 3 2 None
           (Some (mkdate 2024 7 1)) None None None 1;
         mk_belegung_row 5 1 2 1 (Some 1)
           None (Some (mkdate 2023 2 1)) None (Some 3%Q) 1 ];
     last_insert_rowid := 5 |}.

(** An enrollment record with the key (3, 9), which [sample_db] lacks. *)
Definition unknown_belegung : ModulBelegung.t :=
  ModulBelegung.mk (Some 9) 3 1 1 None None None None None 1.

(* --------------------------------------------------------------------- *)
(** ** The other repository methods

    The schema is created outside the sources.  An INSERT or UPDATE is
    taken to pass the constraints of the schema: the repositories catch no
    storage error, and a statement that fails changes nothing. *)

Module Modul.
Record t : Type := mk {
  modul_id : option Z;
  titel : string;
  ects : Z;
  plan_semester_nr : Z;
  default_soll_bestanden_am : option date
}.
End Modul.

(** [SELECT last_insert_rowid() AS id]: one row, the register. *)
Definition select_last_insert_rowid (db : DB) : cursor Z :=
  mk_cursor None [last_insert_rowid db].

(** The end of the three [create] methods: [cursor.lastrowid] when it is
    truthy, else the register read by a SELECT; [row["id"]] on no row
    would be a [TypeError]. *)
Definition created_id (db_after : DB) (cur : cursor unit) : result Z :=
  if truthy (lastrowid cur) then Ok (coalesce (lastrowid cur) 0)
  else
    match fetchone (fetchall (select_last_insert_rowid db_after)) with
    | Some id => Ok id
    | None => Raise TypeError
    end.

Definition studiengang_row_of (id student_id : Z) (sg : Studiengang.t)
  : studiengang_row :=
  {| sg_studiengang_id := id;
     sg_student_id := student_id;
     sg_name := Studiengang.name sg;
     sg_start_datum := Studiengang.start_datum sg;
     sg_soll_studiensemester := Studiengang.soll_studiensemester sg;
     sg_soll_durchschnittsnote := Studiengang.soll_durchschnittsnote sg |}.

Definition set_studiengang (db : DB) (rows : list studiengang_row) (reg : Z)
  : DB :=
  {| student := student db;
     studiengang := rows;
     modul := modul db;
     modul_belegung := modul_belegung db;
     last_insert_rowid := reg |}.

Definition set_modul (db : DB) (rows : list modul_row) (reg : Z) : DB :=
  {| student := student db;
     studiengang := studiengang db;
     modul := rows;
     modul_belegung := modul_belegung db;
     last_insert_rowid := reg |}.

Module StudiengangRepository.

(** [create]: the INSERT, then the id of the new row. *)
Definition create (db : DB) (student_id : Z) (sg : Studiengang.t)
  : DB * result Z :=
  let id := new_rowid (map sg_studiengang_id (studiengang db)) in
  let db' :=
    set_studiengang db
      (studiengang db ++ [studiengang_row_of id student_id sg]) id in
  (db', created_id db' (insert_cursor db')).

(** [update]: [UPDATE studiengang SET name=?, start_datum=?,
    soll_studiensemester=?, soll_durchschnittsnote=? WHERE
    studiengang_id=?]. *)
Definition update (db : DB) (studiengang_id : Z) (sg : Studiengang.t) : DB :=
  set_studiengang db
    (map (fun r =>
            if sg_studiengang_id r =? studiengang_id
            then studiengang_row_of (sg_studiengang_id r) (sg_student_id r) sg
            else r)
         (studiengang db))
    (last_insert_rowid db).

End StudiengangRepository.

Definition modul_row_of (id : Z) (m : Modul.t) : modul_row :=
  {| m_modul_id := id;
     m_titel := Modul.titel m;
     m_ects := Modul.ects m;
     m_plan_semester_nr := Modul.plan_semester_nr m;
     m_default_soll_bestanden_am := _iso (Modul.default_soll_bestanden_am m) |}.

(** The [Modul(...)] built from a row. *)
Definition modul_of_row (r : modul_row) : Modul.t :=
  {| Modul.modul_id := Some (m_modul_id r);
     Modul.titel := m_titel r;
     Modul.ects := m_ects r;
     Modul.plan_semester_nr := m_plan_semester_nr r;
     Modul.default_soll_bestanden_am := m_default_soll_bestanden_am r |}.

Module ModulRepository.

Definition create (db : DB) (m : Modul.t) : DB * result Z :=
  let id := new_rowid (map m_modul_id (modul db)) in
  let db' := set_modul db (modul db ++ [modul_row_of id m]) id in
  (db', created_id db' (insert_cursor db')).

(** [update_by_id]: [UPDATE modul SET titel=?, ects=?, plan_semester_nr=?,
    default_soll_bestanden_am=? WHERE modul_id=?]. *)
Definition update_by_id (db : DB) (modul_id : Z) (m : Modul.t) : DB :=
  set_modul db
    (map (fun r =>
            if m_modul_id r =? modul_id then modul_row_of (m_modul_id r) m
            else r)
         (modul db))
    (last_insert_rowid db).

(** [get_by_id]: [SELECT * FROM modul WHERE modul_id=?], first row. *)
Definition get_by_id (db : DB) (modul_id : Z) : option Modul.t :=
  match fetchone (filter (fun r => m_modul_id r =? modul_id) (modul db)) with
  | None => None
  | Some r => Some (modul_of_row r)
  end.

(** [get_by_title]: [SELECT * FROM modul WHERE titel=?], first row. *)
Definition get_by_title (db : DB) (titel : string) : option Modul.t :=
  match fetchone (filter (fun r => String.eqb (m_titel r) titel) (modul db))
  with
  | None => None
  | Some r => Some (modul_of_row r)
  end.

(** [list_all]: [SELECT * FROM modul ORDER BY modul_id ASC]. *)
Definition list_all (db : DB) : list modul_row :=
  order_by_asc m_modul_id (modul db).

(** [get_total_ects]: [SELECT COALESCE(SUM(ects),0) AS s FROM modul]. *)
Definition get_total_ects (db : DB) : Q :=
  float (coalesce (sql_sum (map (fun r => Some (m_ects r)) (modul db))) 0).

End ModulRepository.

Definition belegung_row_of (id : Z) (b : ModulBelegung.t) : belegung_row :=
  {| mb_belegung_id := id;
     mb_studiengang_id := ModulBelegung.studiengang_id b;
     mb_modul_id := ModulBelegung.modul_id b;
     mb_plan_semester_nr := ModulBelegung.plan_semester_nr b;
     mb_ist_semester_nr := ModulBelegung.ist_semester_nr b;
     mb_soll_bestanden_am := _iso (ModulBelegung.soll_bestanden_am b);
     mb_ist_bestanden_am := _iso (ModulBelegung.ist_bestanden_am b);
     mb_soll_note := ModulBelegung.soll_note b;
     mb_ist_note := ModulBelegung.ist_note b;
     mb_anzahl_versuche := ModulBelegung.anzahl_versuche b |}.

(** The [ModulBelegung(...)] built from a row. *)
Definition belegung_of_row (r : belegung_row) : ModulBelegung.t :=
  {| ModulBelegung.belegung_id := Some (mb_belegung_id r);
     ModulBelegung.studiengang_id := mb_studiengang_id r;
     ModulBelegung.modul_id := mb_modul_id r;
     ModulBelegung.plan_semester_nr := mb_plan_semester_nr r;
     ModulBelegung.ist_semester_nr := mb_ist_semester_nr r;
     ModulBelegung.soll_bestanden_am := mb_soll_bestanden_am r;
     ModulBelegung.ist_bestanden_am := mb_ist_bestanden_am r;
     ModulBelegung.soll_note := mb_soll_note r;
     ModulBelegung.ist_note := mb_ist_note r;
     ModulBelegung.anzahl_versuche := mb_anzahl_versuche r |}.

(** The order of two dates as their ISO texts compare: year, then month,
    then day. *)
Definition date_compare (a b : date) : comparison :=
  match year a ?= year b with
  | Eq =>
      match month a ?= month b with
      | Eq => day a ?= day b
      | c => c
      end
  | c => c
  end.

(** [MAX] over a date column. *)
Fixpoint sql_max_date (vs : list date) : option date :=
  match vs with
  | [] => None
  | v :: vs' =>
      match sql_max_date vs' with
      | Some m =>
          Some (match date_compare v m with Lt => m | _ => v end)
      | None => Some v
      end
  end.

(** Stable insertion sort under a comparison, the meaning of an ORDER BY
    with several columns. *)
Fixpoint insert_by {A : Type} (cmp : A -> A -> comparison) (x : A)
  (l : list A) : list A :=
  match l with
  | [] => [x]
  | y :: l' =>
      match cmp x y with
      | Lt => x :: l
      | _ => y :: insert_by cmp x l'
      end
  end.

Fixpoint order_by {A : Type} (cmp : A -> A -> comparison) (l : list A)
  : list A :=
  match l with
  | [] => []
  | x :: l' => insert_by cmp x (order_by cmp l')
  end.



(** A row of the result of [plot_completions]. *)
Record completion_row : Type := mk_completion_row {
  c_ist_bestanden_am : option date;
  c_ects : Z;
  c_ist_note : option Q
}.

(** The order [ORDER BY mb.ist_bestanden_am ASC, mb.belegung_id ASC] on
    the joined rows; NULL sorts before every date. *)
Definition completion_order (r r' : belegung_row * modul_row) : comparison :=
  match
    match mb_ist_bestanden_am (fst r), mb_ist_bestanden_am (fst r') with
    | None, None => Eq
    | None, Some _ => Lt
    | Some _, None => Gt
    | Some d, Some d' => date_compare d d'
    end
  with
  | Eq => mb_belegung_id (fst r) ?= mb_belegung_id (fst r')
  | c => c
  end.

Module ModulBelegungRepository.

Definition create (db : DB) (b : ModulBelegung.t) : DB * result Z :=
  let id := new_rowid (map mb_belegung_id (modul_belegung db)) in
  let db' :=
    {| student := student db;
       studiengang := studiengang db;
       modul := modul db;
       modul_belegung := modul_belegung db ++ [belegung_row_of id b];
       last_insert_rowid := id |} in
  (db', created_id db' (insert_cursor db')).

(** [get]: [SELECT * FROM modul_belegung WHERE studiengang_id=? AND
    belegung_id=?], first row. *)
Definition get (db : DB) (studiengang_id belegung_id : Z)
  : option ModulBelegung.t :=
  match
    fetchone (filter (key_matches studiengang_id belegung_id)
                     (modul_belegung db))
  with
  | None => None
  | Some r => Some (belegung_of_row r)
  end.



(** [last_completion_date]: [SELECT MAX(ist_bestanden_am) AS last_date
    FROM modul_belegung WHERE studiengang_id=? AND ist_bestanden_am IS NOT
    NULL]; a NULL maximum gives [None]. *)
Definition last_completion_date (db : DB) (studiengang_id : Z) : option date :=
  sql_max_date
    (flat_map
       (fun mb =>
          match mb_ist_bestanden_am mb with
          | Some d => [d]
          | None => []
          end)
       (filter (fun mb => (mb_studiengang_id mb =? studiengang_id)
                          && is_not_null (mb_ist_bestanden_am mb))
               (modul_belegung db))).

Definition select_completion (r : belegung_row * modul_row) : completion_row :=
  {| c_ist_bestanden_am := mb_ist_bestanden_am (fst r);
     c_ects := m_ects (snd r);
     c_ist_note := mb_ist_note (fst r) |}.

(** [plot_completions]: the completed enrollments of the program joined
    with the catalog, by completion date and then by [belegung_id]. *)
Definition plot_completions (db : DB) (studiengang_id : Z)
  : list completion_row :=
  map select_completion
    (order_by completion_order
       (belegung_join_modul db studiengang_id
          (fun mb => is_not_null (mb_ist_bestanden_am mb)))).

End ModulBelegungRepository.

(** The record [get] returns for an enrollment written from [b] under the
    id [id]: [b] with that id. *)
Definition stored_as (id : Z) (b : ModulBelegung.t) : ModulBelegung.t :=
  {| ModulBelegung.belegung_id := Some id;
     ModulBelegung.studiengang_id := ModulBelegung.studiengang_id b;
     ModulBelegung.modul_id := ModulBelegung.modul_id b;
     ModulBelegung.plan_semester_nr := ModulBelegung.plan_semester_nr b;
     ModulBelegung.ist_semester_nr := ModulBelegung.ist_semester_nr b;
     ModulBelegung.soll_bestanden_am := ModulBelegung.soll_bestanden_am b;
     ModulBelegung.ist_bestanden_am := ModulBelegung.ist_bestanden_am b;
     ModulBelegung.soll_note := ModulBelegung.soll_note b;
     ModulBelegung.ist_note := ModulBelegung.ist_note b;
     ModulBelegung.anzahl_versuche := ModulBelegung.anzahl_versuche b |}.

(** The record [get_by_id] returns for a module written from [m] under
    the id [id]. *)
Definition catalogued_as (id : Z) (m : Modul.t) : Modul.t :=
  {| Modul.modul_id := Some id;
     Modul.titel := Modul.titel m;
     Modul.ects := Modul.ects m;
     Modul.plan_semester_nr := Modul.plan_semester_nr m;
     Modul.default_soll_bestanden_am := Modul.default_soll_bestanden_am m |}.

(** No two degree programs share a [studiengang_id]. *)
Definition studiengang_pk (db : DB) : Prop :=
  NoDup (map sg_studiengang_id (studiengang db)).

(** No two students share a [student_id] or a [matrikelnummer]. *)
Definition student_unique (db : DB) : Prop :=
  NoDup (map st_student_id (student db))
  /\ NoDup (map st_matrikelnummer (student db)).

(** More sample data. *)
Definition analysis : Modul.t :=
  Modul.mk None "Analysis" 5 2 (Some (mkdate 2024 9 30)).

Definition wirtschaftsinformatik : Studiengang.t :=
  Studiengang.mk "Wirtschaftsinformatik" (mkdate 2024 10 1) (Some 6) (21 # 10).

Definition statistik_passed : ModulBelegung.t :=
  ModulBelegung.mk None 3 3 2 (Some 2)
    (Some (mkdate 2024 7 1)) (Some (mkdate 2024 6 28))
    (Some 2%Q) (Some (23 # 10)%Q) 1.



(** The planned enrollment 4 of [sample_db], now passed. *)
Definition statistik_graded : ModulBelegung.t :=
  ModulBelegung.mk (Some 4) 3 3 2 (Some 2)
    (Some (mkdate 2024 7 1)) (Some (mkdate 2024 6 28))
    (Some 2%Q) (Some (23 # 10)%Q) 1.


(** The dates of a series of completions never go back in time. *)
Definition chronological (rows : list completion_row) : Prop :=
  StronglySorted
    (fun c c' =>
       forall d d',
         c_ist_bestanden_am c = Some d -> c_ist_bestanden_am c' = Some d' ->
         ~ earlier d' d)
    rows.

(** [r] comes no later than [r'] in the order of [plot_completions]. *)
Definition completion_le (r r' : belegung_row * modul_row) : Prop :=
  completion_order r r' <> Gt.


(** The completed enrollments of a program that have a catalog entry, each
    with that entry, in the order of the table. *)
Definition completed_with_module (db : DB) (studiengang_id : Z)
  : list (belegung_row * modul_row) :=
  flat_map
    (fun mb =>
       match module_of db mb with
       | Some m => [(mb, m)]
       | None => []
       end)
    (completed_enrollments db studiengang_id).

(** Of two completed enrollments, [r] was completed on an earlier day than
    [r'], or on the same day with a [belegung_id] that is not higher. *)
Definition completion_before (r r' : belegung_row * modul_row) : Prop :=
  forall d d',
    mb_ist_bestanden_am (fst r) = Some d ->
    mb_ist_bestanden_am (fst r') = Some d' ->
    earlier d d'
    \/ (d = d' /\ mb_belegung_id (fst r) <= mb_belegung_id (fst r')).

(** The row of [plot_completions] for a completed enrollment and its
    catalog entry: the date and the grade of the enrollment, the credit
    weight of the module. *)
Definition completion_of (r : belegung_row * modul_row) : completion_row :=
  {| c_ist_bestanden_am := mb_ist_bestanden_am (fst r);
     c_ects := m_ects (snd r);
     c_ist_note := mb_ist_note (fst r) |}.

(* --------------------------------------------------------------------- *)
(** ** The texts of dates, and [parse_int]

    [date.isoformat] writes a date as YYYY-MM-DD with leading zeros; it is
    the text [_iso] hands to the database.  [dd_mm_yyyy] is the same date
    in the notation DD.MM.YYYY. *)

Local Open Scope string_scope.

(** The four characters of a number below 10000, with leading zeros. *)
Definition four_digits (n : Z) : string :=
  two_digits (n / 100) ++ two_digits (n mod 100).

Definition isoformat (d : date) : string :=
  four_digits (year d) ++ "-" ++ two_digits (month d) ++ "-"
  ++ two_digits (day d).

Definition dd_mm_yyyy (d : date) : string :=
  two_digits (day d) ++ "." ++ two_digits (month d) ++ "."
  ++ four_digits (year d).

(** The digits of a decimal numeral after its first one: a single
    underscore may stand between two digits. *)
Fixpoint digits_value (acc : Z) (s : string) : option Z :=
  match s with
  | EmptyString => Some acc
  | String c s' =>
      if is_digit c then digits_value (10 * acc + digit_value c)%Z s'
      else if Ascii.eqb c "_" then
        match s' with
        | String c' s'' =>
            if is_digit c'
            then digits_value (10 * acc + digit_value c')%Z s''
            else None
        | EmptyString => None
        end
      else None
  end.

(** An unsigned decimal numeral: it starts with a digit. *)
Definition unsigned_value (s : string) : option Z :=
  match s with
  | String c _ => if is_digit c then digits_value 0 s else None
  | EmptyString => None
  end.

(** [int(s)] for a text [s]: white space around the numeral is dropped,
    then comes an optional sign and an unsigned decimal numeral; [None] is
    [ValueError].  The limit some interpreters put on the number of digits
    of a numeral (4300 by default) is not part of the model. *)
Definition int_of_str (s : string) : option Z :=
  match strip s with
  | String c r =>
      if Ascii.eqb c "-" then option_map Z.opp (unsigned_value r)
      else if Ascii.eqb c "+" then unsigned_value r
      else unsigned_value (String c r)
  | EmptyString => None
  end.

(** [str(text)]: [None] prints as the word None. *)
Definition py_str (text : option string) : string :=
  match text with
  | Some s => s
  | None => "None"
  end.

(** [parse_int]; the argument [field] only words the message of the
    error, which the model does not carry. *)
Definition parse_int (text : option string) (min_value : option Z)
  : result Z :=
  match int_of_str (strip (py_str text)) with
  | None => Raise ValidationError
  | Some v =>
      match min_value with
      | Some m => if (v <? m)%Z then Raise ValidationError else Ok v
      | None => Ok v
      end
  end.

(** [parse_optional_int]. *)
Definition parse_optional_int (text : option string) (min_value : option Z)
  : result (option Z) :=
  let t := strip (match text with Some s => s | None => "" end) in
  match t with
  | EmptyString => Ok None
  | _ =>
      match parse_int (Some t) min_value with
      | Ok v => Ok (Some v)
      | Raise e => Raise e
      end
  end.

(** [validate_attempts]. *)
Definition validate_attempts (attempts : Z) : result unit :=
  if (attempts <? 1)%Z then Raise ValidationError else Ok tt.

(** The decimal digits of a natural number, most significant first, put
    before [tail]. *)
Fixpoint decimal_digits (fuel : nat) (n : Z) (tail : string) : string :=
  match fuel with
  | O => tail
  | S fuel' =>
      let tail' := String (ascii_of_N (Z.to_N (48 + n mod 10))) tail in
      if (n <? 10)%Z then tail'
      else decimal_digits fuel' (n / 10) tail'
  end.

(** [str(z)] of an integer: its decimal numeral, with a minus sign when it
    is negative. *)
Definition str_of_int (z : Z) : string :=
  let digits n := decimal_digits (S (Z.to_nat (Z.log2 n))) n "" in
  if (z <? 0)%Z then String "-" (digits (- z)%Z) else digits z.

(** The text has a first and a last character, and neither is white
    space. *)
Fixpoint ends_nonspace (s : string) : bool :=
  match s with
  | EmptyString => false
  | String c EmptyString => negb (isspace c)
  | String _ s' => ends_nonspace s'
  end.

Definition starts_nonspace (s : string) : bool :=
  match s with
  | EmptyString => false
  | String c _ => negb (isspace c)
  end.

Local Close Scope string_scope.

(* ===================================================================== *)
(** * Part II: theorems                                                   *)
(* ===================================================================== *)

(* --------------------------------------------------------------------- *)
(** ** ORDER BY *)

Section OrderBy.
Context {A : Type} (key : A -> Z).

Lemma insert_asc_perm (x : A) (l : list A) :
  Permutation (insert_asc key x l) (x :: l).
Proof.
  induction l as [|y l IH]; cbn.
  - apply Permutation_refl.
  - destruct (key x <? key y).
    + apply Permutation_refl.
    + eapply perm_trans; [apply perm_skip, IH | apply perm_swap].
Qed.

Lemma order_by_asc_perm (l : list A) : Permutation (order_by_asc key l) l.
Proof.
  induction l as [|x l IH]; cbn.
  - apply perm_nil.
  - eapply perm_trans; [apply insert_asc_perm | apply perm_skip, IH].
Qed.

Lemma order_by_asc_In (l : list A) (x : A) :
  In x (order_by_asc key l) <-> In x l.
Proof.
  split; apply Permutation_in;
    [apply order_by_asc_perm | apply Permutation_sym, order_by_asc_perm].
Qed.

Lemma insert_asc_sorted (x : A) (l : list A) :
  StronglySorted (key_le key) l -> StronglySorted (key_le key) (insert_asc key x l).
Proof.
  induction 1 as [|y l Hs IH Hy]; cbn.
  - constructor; constructor.
  - destruct (key x <? key y) eqn:E.
    + apply Z.ltb_lt in E. constructor.
      * constructor; assumption.
      * constructor; [unfold key_le; lia|].
        rewrite Forall_forall in Hy |- *. intros z Hz.
        specialize (Hy z Hz). unfold key_le in *. lia.
    + apply Z.ltb_ge in E. constructor; [assumption|].
      rewrite Forall_forall in Hy |- *. intros z Hz.
      apply (Permutation_in _ (insert_asc_perm x l)) in Hz.
      destruct Hz as [<- | Hz]; [exact E | exact (Hy z Hz)].
Qed.

Lemma order_by_asc_sorted (l : list A) :
  StronglySorted (key_le key) (order_by_asc key l).
Proof.
  induction l as [|x l IH]; cbn.
  - constructor.
  - apply insert_asc_sorted, IH.
Qed.

(** The first row of the sorted result carries the least key. *)
Lemma order_by_asc_head (l : list A) (x : A) (t : list A) :
  order_by_asc key l = x :: t ->
  In x l /\ forall y, In y l -> key x <= key y.
Proof.
  intros E. split.
  - apply order_by_asc_In. rewrite E. left; reflexivity.
  - intros y Hy. apply order_by_asc_In in Hy.
    pose proof (order_by_asc_sorted l) as Hs. rewrite E in Hs, Hy.
    inversion Hs as [|? ? _ Hall]; subst.
    destruct Hy as [<- | Hy]; [lia|].
    rewrite Forall_forall in Hall. exact (Hall y Hy).
Qed.

Lemma order_by_asc_nil (l : list A) : order_by_asc key l = [] -> l = [].
Proof.
  intros E. apply Permutation_nil.
  rewrite <- E. apply order_by_asc_perm.
Qed.
End OrderBy.

(* --------------------------------------------------------------------- *)
(** ** StudiengangRepository.get_latest_for_student *)

Lemma owns_filter (db : DB) (student_id : Z) (r : studiengang_row) :
  In r (filter (fun r => sg_student_id r =? student_id) (studiengang db))
  <-> owns db student_id r.
Proof.
  unfold owns. rewrite filter_In, Z.eqb_eq. reflexivity.
Qed.

(** C7. [get_latest_for_student] returns [None] exactly when the student
    owns no degree program; when it returns a pair [(id, program)], there
    is a program row of that student with that id whose name, start date,
    target number of semesters and target grade are those of the program
    returned, and no program row of the student has a higher
    [studiengang_id]; and a student who owns a program gets a pair. *)
Theorem get_latest_for_student_highest_id (db : DB) (student_id : Z) :
  (get_latest_for_student db student_id = None
   <-> forall r, ~ owns db student_id r)
  /\ (forall id sg,
        get_latest_for_student db student_id = Some (id, sg) ->
        exists row,
          owns db student_id row
          /\ id = sg_studiengang_id row
          /\ Studiengang.name sg = sg_name row
          /\ Studiengang.start_datum sg = sg_start_datum row
          /\ Studiengang.soll_studiensemester sg = sg_soll_studiensemester row
          /\ Studiengang.soll_durchschnittsnote sg
             = sg_soll_durchschnittsnote row
          /\ forall r, owns db student_id r -> sg_studiengang_id r <= id)
  /\ (forall r, owns db student_id r ->
                exists id sg, get_latest_for_student db student_id
                              = Some (id, sg)).
Proof.
  unfold get_latest_for_student, order_by_desc.
  set (rows := filter _ (studiengang db)).
  destruct (order_by_asc (fun x => - sg_studiengang_id x) rows)
    as [|row t] eqn:E; cbn.
  - apply order_by_asc_nil in E.
    assert (forall r, ~ owns db student_id r) as Hno.
    { intros r Hr. apply owns_filter in Hr. fold rows in Hr.
      rewrite E in Hr. exact Hr. }
    split; [|split].
    + split; [|reflexivity]. intros _. exact Hno.
    + discriminate.
    + intros r Hr. exfalso. exact (Hno r Hr).
  - apply order_by_asc_head in E. destruct E as [Hin Hmin].
    split; [|split].
    + split; [discriminate|]. intros Hno. exfalso.
      apply (Hno row). apply owns_filter. exact Hin.
    + intros id sg [= <- <-]. exists row.
      split; [apply owns_filter; exact Hin|].
      repeat (split; [reflexivity|]).
      intros r Hr. apply owns_filter in Hr. specialize (Hmin r Hr). lia.
    + intros r _. eexists _, _. reflexivity.
Qed.

(* --------------------------------------------------------------------- *)
(** ** ModulBelegungRepository.update and delete *)

Lemma key_matches_has_key (studiengang_id belegung_id : Z) (r : belegung_row) :
  key_matches studiengang_id belegung_id r = true
  <-> has_key studiengang_id belegung_id r.
Proof.
  unfold key_matches, has_key.
  rewrite andb_true_iff, !Z.eqb_eq. reflexivity.
Qed.

Lemma map_unmatched {A : Type} (p : A -> bool) (f : A -> A) (l : list A) :
  (forall x, In x l -> p x = false) ->
  map (fun x => if p x then f x else x) l = l.
Proof.
  induction l as [|x l IH]; cbn; intros H.
  - reflexivity.
  - rewrite (H x (or_introl eq_refl)), IH; [reflexivity|].
    intros y Hy. apply H. right; exact Hy.
Qed.

Lemma filter_unmatched {A : Type} (p : A -> bool) (l : list A) :
  (forall x, In x l -> p x = false) ->
  filter (fun x => negb (p x)) l = l.
Proof.
  induction l as [|x l IH]; cbn; intros H.
  - reflexivity.
  - rewrite (H x (or_introl eq_refl)); cbn. rewrite IH; [reflexivity|].
    intros y Hy. apply H. right; exact Hy.
Qed.

Lemma set_modul_belegung_same (db : DB) :
  set_modul_belegung db (modul_belegung db) = db.
Proof. destruct db; reflexivity. Qed.

Lemma no_key_no_match (db : DB) (studiengang_id belegung_id : Z) :
  (forall r, In r (modul_belegung db) ->
             ~ has_key studiengang_id belegung_id r) ->
  forall r, In r (modul_belegung db) ->
            key_matches studiengang_id belegung_id r = false.
Proof.
  intros H r Hr. apply not_true_is_false. intros Hk.
  apply key_matches_has_key in Hk. exact (H r Hr Hk).
Qed.

(** C10. When no stored enrollment has the composite key, [update] (called
    with an enrollment whose [belegung_id] is set) and [delete] return
    without an exception and leave the database as it was. *)
Theorem update_delete_unmatched_key_noop (db : DB) :
  (forall b id,
      ModulBelegung.belegung_id b = Some id ->
      (forall r, In r (modul_belegung db) ->
                 ~ has_key (ModulBelegung.studiengang_id b) id r) ->
      update db b = Ok db)
  /\ (forall studiengang_id belegung_id,
        (forall r, In r (modul_belegung db) ->
                   ~ has_key studiengang_id belegung_id r) ->
        delete db studiengang_id belegung_id = Ok db).
Proof.
  split.
  - intros b id Hid Hno. unfold update. rewrite Hid.
    rewrite map_unmatched by (apply no_key_no_match; exact Hno).
    rewrite set_modul_belegung_same. reflexivity.
  - intros sg id Hno. unfold delete.
    rewrite filter_unmatched by (apply no_key_no_match; exact Hno).
    rewrite set_modul_belegung_same. reflexivity.
Qed.

(* --------------------------------------------------------------------- *)
(** ** StudentRepository.upsert: the rows *)

Lemma sql_max_upper (ids : list Z) (x : Z) :
  In x ids -> exists m, sql_max ids = Some m /\ x <= m.
Proof.
  induction ids as [|y ids IH]; cbn; [contradiction|].
  intros [-> | Hx].
  - destruct (sql_max ids) as [m|]; eexists; split; try reflexivity; lia.
  - destruct (IH Hx) as [m [-> Hm]]. eexists; split; [reflexivity|lia].
Qed.

Lemma new_rowid_fresh (ids : list Z) : ~ In (new_rowid ids) ids.
Proof.
  intros H. destruct (sql_max_upper _ _ H) as [m [Hm Hle]].
  unfold new_rowid in Hle. rewrite Hm in Hle. lia.
Qed.

Lemma in_conflict_iff (s : Student.t) (r : student_row) :
  in_conflict s r = true <-> st_matrikelnummer r = Student.matrikelnummer s.
Proof. unfold in_conflict. apply String.eqb_eq. Qed.

Lemma insert_student_without_conflict (db : DB) (s : Student.t) :
  existsb (in_conflict s) (student db) = false ->
  insert_student_on_conflict db s
  = (let id := new_rowid (map st_student_id (student db)) in
     ({| student := student db ++ [student_row_of id s];
         studiengang := studiengang db;
         modul := modul db;
         modul_belegung := modul_belegung db;
         last_insert_rowid := id |},
      mk_cursor (Some id) [])).
Proof.
  intros E. unfold insert_student_on_conflict. rewrite E. reflexivity.
Qed.

Lemma insert_student_with_conflict (db : DB) (s : Student.t) :
  existsb (in_conflict s) (student db) = true ->
  insert_student_on_conflict db s
  = ({| student :=
          map (fun r => if in_conflict s r then do_update_set s r else r)
              (student db);
        studiengang := studiengang db;
        modul := modul db;
        modul_belegung := modul_belegung db;
        last_insert_rowid := last_insert_rowid db |},
     mk_cursor (Some (last_insert_rowid db)) []).
Proof.
  intros E. unfold insert_student_on_conflict. rewrite E. reflexivity.
Qed.

Lemma upsert_state (db : DB) (s : Student.t) :
  fst (upsert db s) = fst (insert_student_on_conflict db s).
Proof.
  unfold upsert. destruct (insert_student_on_conflict db s) as [db' cur].
  destruct (truthy (lastrowid cur)); [reflexivity|].
  destruct (fetchone _); reflexivity.
Qed.

Lemma do_update_overwrites (s : Student.t) (l : list student_row) :
  Forall2 (overwritten_in_place s) l
    (map (fun r => if in_conflict s r then do_update_set s r else r) l).
Proof.
  induction l as [|r l IH]; cbn; constructor; [|exact IH].
  unfold overwritten_in_place.
  destruct (in_conflict s r) eqn:E.
  - apply in_conflict_iff in E. cbn.
    split; [reflexivity|]. split; [reflexivity|]. split.
    + intros Hne. contradiction.
    + intros _. unfold _iso. repeat split.
  - assert (st_matrikelnummer r <> Student.matrikelnummer s) as Hne.
    { intros Heq. apply in_conflict_iff in Heq. congruence. }
    split; [reflexivity|]. split; [reflexivity|]. split.
    + intros _. reflexivity.
    + intros Heq. contradiction.
Qed.

(** C3. [upsert] leaves the other tables alone.  When no stored student
    has the matrikelnummer, it appends one row, made of the record's fields
    under an id no stored row has.  When a stored student has it, the table
    keeps its rows in place: every row keeps its id and matrikelnummer,
    the rows with another matrikelnummer are unchanged, and the row with
    this matrikelnummer takes vorname, nachname, geburtsdatum and adresse
    from the record. *)
Theorem upsert_inserts_or_overwrites (db : DB) (s : Student.t) :
  let db' := fst (upsert db s) in
  studiengang db' = studiengang db
  /\ modul db' = modul db
  /\ modul_belegung db' = modul_belegung db
  /\ ((forall r, In r (student db) ->
                 st_matrikelnummer r <> Student.matrikelnummer s) ->
      exists id,
        ~ In id (map st_student_id (student db))
        /\ student db' = student db ++ [student_row_of id s])
  /\ ((exists r, In r (student db)
                 /\ st_matrikelnummer r = Student.matrikelnummer s) ->
      Forall2 (overwritten_in_place s) (student db) (student db')).
Proof.
  cbv zeta. rewrite upsert_state. unfold insert_student_on_conflict.
  destruct (existsb (in_conflict s) (student db)) eqn:E; cbn;
    (split; [reflexivity|]); (split; [reflexivity|]);
    (split; [reflexivity|]); split.
  - intros Hno. exfalso. apply existsb_exists in E.
    destruct E as [r [Hr Hc]]. apply in_conflict_iff in Hc.
    exact (Hno r Hr Hc).
  - intros _. apply do_update_overwrites.
  - intros _. eexists. split; [apply new_rowid_fresh | reflexivity].
  - intros [r [Hr Hk]]. exfalso.
    assert (existsb (in_conflict s) (student db) = true) as Ht.
    { apply existsb_exists. exists r. split; [exact Hr|].
      apply in_conflict_iff; exact Hk. }
    congruence.
Qed.

(* --------------------------------------------------------------------- *)
(** ** Joins on a key, and sums *)

(** On a column without duplicates, the rows with a given value are the
    row [find] returns, if any. *)
Lemma filter_unique_key {A : Type} (key : A -> Z) (k : Z) (l : list A) :
  NoDup (map key l) ->
  filter (fun y => key y =? k) l
  = match find (fun y => key y =? k) l with
    | Some y => [y]
    | None => []
    end.
Proof.
  induction l as [|x l IH]; cbn; intros Hnd; [reflexivity|].
  inversion Hnd as [|? ? Hx Hl]; subst.
  destruct (key x =? k) eqn:E.
  - f_equal. apply Z.eqb_eq in E.
    assert (forall y, In y l -> (key y =? k) = false) as Hno.
    { intros y Hy. apply Z.eqb_neq. intros Hk. apply Hx.
      rewrite E, <- Hk. apply in_map; exact Hy. }
    clear -Hno. induction l as [|y l IH]; cbn; [reflexivity|].
    rewrite (Hno y (or_introl eq_refl)). apply IH.
    intros z Hz. apply Hno. right; exact Hz.
  - apply IH; exact Hl.
Qed.

(** With the catalog's primary key, the join of the KPI queries pairs each
    enrollment the WHERE keeps with its catalog entry. *)
Lemma belegung_join_modul_lookup (db : DB) (sg : Z)
  (cond : belegung_row -> bool) :
  modul_pk db ->
  belegung_join_modul db sg cond
  = flat_map
      (fun mb =>
         if (mb_studiengang_id mb =? sg) && cond mb then
           match module_of db mb with
           | Some m => [(mb, m)]
           | None => []
           end
         else [])
      (modul_belegung db).
Proof.
  intros Hpk. unfold belegung_join_modul, sql_join, module_of.
  induction (modul_belegung db) as [|mb l IH]; cbn; [reflexivity|].
  rewrite filter_app, IH. f_equal.
  rewrite (filter_unique_key m_modul_id (mb_modul_id mb)) by exact Hpk.
  destruct (find _ (modul db)) as [m|]; cbn;
    destruct ((mb_studiengang_id mb =? sg) && cond mb); reflexivity.
Qed.

Lemma sql_sum_total (l : list Z) :
  coalesce (sql_sum (map Some l)) 0 = sum_Z l.
Proof.
  induction l as [|x l IH]; [reflexivity|].
  change (sum_Z (x :: l)) with (x + sum_Z l). rewrite <- IH. cbn.
  destruct (sql_sum (map Some l)); cbn; lia.
Qed.

Lemma sum_Z_app (l1 l2 : list Z) : sum_Z (l1 ++ l2) = sum_Z l1 + sum_Z l2.
Proof.
  induction l1 as [|x l1 IH]; [reflexivity|].
  change (sum_Z ((x :: l1) ++ l2)) with (x + sum_Z (l1 ++ l2)).
  change (sum_Z (x :: l1)) with (x + sum_Z l1). lia.
Qed.

(** The credits the join carries are the credit weights of the enrollments
    the WHERE keeps. *)
Lemma joined_credits (db : DB) (sg : Z) (cond : belegung_row -> bool) :
  modul_pk db ->
  sum_Z (map (fun r => m_ects (snd r)) (belegung_join_modul db sg cond))
  = sum_Z (map (credit_weight db) (filter cond (enrollments_of db sg))).
Proof.
  intros Hpk. rewrite belegung_join_modul_lookup by exact Hpk.
  unfold enrollments_of, credit_weight.
  induction (modul_belegung db) as [|mb l IH]; cbn; [reflexivity|].
  rewrite map_app, sum_Z_app, IH.
  destruct (mb_studiengang_id mb =? sg); cbn; [|reflexivity].
  destruct (cond mb); cbn; [|reflexivity].
  destruct (module_of db mb); cbn; unfold sum_Z; cbn; lia.
Qed.

(* --------------------------------------------------------------------- *)
(** ** ModulBelegungRepository.sum_ects_completed *)

Lemma sum_ects_completed_total (db : DB) (sg : Z) :
  sum_ects_completed db sg
  = inject_Z
      (sum_Z (map (fun r => m_ects (snd r))
                (belegung_join_modul db sg
                   (fun mb => is_not_null (mb_ist_bestanden_am mb))))).
Proof.
  unfold sum_ects_completed, float.
  rewrite <- sql_sum_total, map_map. reflexivity.
Qed.

Lemma belegung_join_modul_no_enrollment (db : DB) (sg : Z)
  (cond : belegung_row -> bool) :
  enrollments_of db sg = [] -> belegung_join_modul db sg cond = [].
Proof.
  unfold enrollments_of, belegung_join_modul, sql_join. intros Hno.
  induction (modul_belegung db) as [|mb l IH]; cbn; [reflexivity|].
  cbn in Hno. destruct (mb_studiengang_id mb =? sg) eqn:E; [discriminate|].
  rewrite filter_app, (IH Hno), app_nil_r.
  induction (filter _ (modul db)) as [|m ms IHm]; cbn; [reflexivity|].
  rewrite E. exact IHm.
Qed.

(** C6. With the catalog's primary key, [sum_ects_completed] is the sum of
    the credit weights of the program's enrollments that have an
    actual-completion date, a module's credits counted once for each such
    enrollment; for a program without enrollments it is 0. *)
Theorem sum_ects_completed_sum (db : DB) (studiengang_id : Z) :
  (modul_pk db ->
   sum_ects_completed db studiengang_id
   = inject_Z
       (sum_Z (map (credit_weight db)
                 (completed_enrollments db studiengang_id))))
  /\ (enrollments_of db studiengang_id = [] ->
      sum_ects_completed db studiengang_id = 0%Q).
Proof.
  split.
  - intros Hpk. rewrite sum_ects_completed_total, joined_credits by exact Hpk.
    reflexivity.
  - intros Hno. rewrite sum_ects_completed_total.
    rewrite belegung_join_modul_no_enrollment by exact Hno. reflexivity.
Qed.

(* --------------------------------------------------------------------- *)
(** ** ModulBelegungRepository.plot_latest_per_module *)

Lemma sql_join_In {A B : Type} (a : list A) (b : list B)
  (on : A -> B -> bool) (x : A) (y : B) :
  In (x, y) (sql_join a b on) <-> In x a /\ In y b /\ on x y = true.
Proof.
  unfold sql_join. rewrite in_flat_map. split.
  - intros [x' [Hx H]]. apply in_map_iff in H.
    destruct H as [y' [[= <- <-] Hy]]. apply filter_In in Hy.
    destruct Hy as [Hy Hon]. auto.
  - intros [Hx [Hy Hon]]. exists x. split; [exact Hx|].
    apply in_map. apply filter_In. auto.
Qed.

Lemma sql_max_attained (l : list Z) (m : Z) :
  sql_max l = Some m -> In m l /\ forall x, In x l -> x <= m.
Proof.
  revert m. induction l as [|y l IH]; cbn; [discriminate|].
  intros m. destruct (sql_max l) as [m'|] eqn:E.
  - intros [= <-]. destruct (IH m' eq_refl) as [Hin Hle]. split.
    + destruct (Z.max_spec y m') as [[_ ->] | [_ ->]]; auto.
    + intros x [<- | Hx]; [lia|]. specialize (Hle x Hx). lia.
  - intros [= <-]. destruct l as [|z l]; [|cbn in E; destruct (sql_max l); discriminate].
    split; [left; reflexivity|]. intros x [<- | []]. lia.
Qed.

Lemma sql_max_some (l : list Z) (x : Z) :
  In x l -> exists m, sql_max l = Some m.
Proof.
  intros H. destruct (sql_max_upper l x H) as [m [Hm _]]. eauto.
Qed.

Lemma NoDup_map_inj {A : Type} (f : A -> Z) (l : list A) (x y : A) :
  NoDup (map f l) -> In x l -> In y l -> f x = f y -> x = y.
Proof.
  induction l as [|z l IH]; cbn; [contradiction|].
  intros Hnd Hx Hy Hf. inversion Hnd as [|? ? Hz Hl]; subst.
  destruct Hx as [-> | Hx], Hy as [-> | Hy].
  - reflexivity.
  - exfalso. apply Hz. rewrite Hf. apply in_map; exact Hy.
  - exfalso. apply Hz. rewrite <- Hf. apply in_map; exact Hx.
  - exact (IH Hl Hx Hy Hf).
Qed.

Lemma flat_map_flat_map {A B C : Type} (f : A -> list B) (g : B -> list C)
  (l : list A) :
  flat_map g (flat_map f l) = flat_map (fun x => flat_map g (f x)) l.
Proof.
  induction l as [|x l IH]; cbn; [reflexivity|].
  rewrite flat_map_app, IH. reflexivity.
Qed.

(** Rows produced from keyed sources, at most one per source and under the
    key of its source, have distinct keys. *)
Lemma NoDup_flat_map_keyed {A B : Type} (ka : A -> Z) (kb : B -> Z)
  (f : A -> list B) (l : list A) :
  NoDup (map ka l) ->
  (forall a, In a l ->
             (List.length (f a) <= 1)%nat /\ forall b, In b (f a) -> kb b = ka a) ->
  NoDup (map kb (flat_map f l)).
Proof.
  induction l as [|a l IH]; cbn; intros Hnd H; [constructor|].
  inversion Hnd as [|? ? Ha Hl]; subst.
  destruct (H a (or_introl eq_refl)) as [Hlen Hkey].
  assert (NoDup (map kb (flat_map f l))) as Hrest.
  { apply IH; [exact Hl|]. intros a' Ha'. apply H. right; exact Ha'. }
  rewrite map_app.
  destruct (f a) as [|b [|b' t]]; cbn in *; [exact Hrest| |lia].
  constructor; [|exact Hrest].
  intros Hin. apply in_map_iff in Hin. destruct Hin as [b' [Hk Hb']].
  apply in_flat_map in Hb'. destruct Hb' as [a' [Ha' Hb']].
  destruct (H a' (or_intror Ha')) as [_ Hkey'].
  apply Ha. rewrite <- (Hkey b (or_introl eq_refl)), <- Hk, (Hkey' b' Hb').
  apply in_map; exact Ha'.
Qed.

Lemma filter_unique_key_length {A : Type} (key : A -> Z) (k : Z)
  (l : list A) :
  NoDup (map key l) -> (List.length (filter (fun y => (key y =? k)%Z) l) <= 1)%nat.
Proof.
  intros H. rewrite (filter_unique_key key k l H).
  destruct (find _ l); cbn; lia.
Qed.

(** Ascending keys without duplicates are strictly ascending. *)
Lemma sorted_NoDup_strict {A : Type} (key : A -> Z) (l : list A) :
  StronglySorted (key_le key) l -> NoDup (map key l) ->
  StronglySorted (fun a b => key a < key b) l.
Proof.
  induction 1 as [|x l Hs IH Hx]; cbn; intros Hnd; constructor.
  - apply IH. inversion Hnd; assumption.
  - inversion Hnd as [|? ? Hnin _]; subst.
    rewrite Forall_forall in Hx |- *. intros y Hy.
    specialize (Hx y Hy). unfold key_le in Hx.
    assert (key x <> key y) as Hne.
    { intros E. apply Hnin. rewrite E. apply in_map; exact Hy. }
    lia.
Qed.

Lemma enrollments_of_In (db : DB) (sg : Z) (b : belegung_row) :
  In b (enrollments_of db sg)
  <-> In b (modul_belegung db) /\ mb_studiengang_id b = sg.
Proof.
  unfold enrollments_of. rewrite filter_In, Z.eqb_eq. reflexivity.
Qed.

(** The CTE has one row for each module id among the program's
    enrollments. *)
Lemma latest_In (db : DB) (sg : Z) (l : latest_row) :
  In l (latest db sg)
  <-> exists b,
        In b (enrollments_of db sg)
        /\ l = {| last_id :=
                    sql_max
                      (map mb_belegung_id
                         (filter (fun mb => mb_modul_id mb =? mb_modul_id b)
                                 (enrollments_of db sg)));
                  l_modul_id := mb_modul_id b |}.
Proof.
  unfold latest. fold (enrollments_of db sg). rewrite in_map_iff. split.
  - intros [k [<- Hk]]. apply nodup_In, in_map_iff in Hk.
    destruct Hk as [b [<- Hb]]. exists b. auto.
  - intros [b [Hb ->]]. exists (mb_modul_id b). split; [reflexivity|].
    apply nodup_In, in_map; exact Hb.
Qed.

Lemma latest_keys_NoDup (db : DB) (sg : Z) :
  NoDup (map l_modul_id (latest db sg)).
Proof.
  unfold latest. rewrite map_map. cbn. rewrite map_id. apply NoDup_nodup.
Qed.

(** Among the program's enrollments for the module of [b], one carries the
    highest [belegung_id], and MAX returns that id. *)
Lemma group_max (db : DB) (sg : Z) (b : belegung_row) :
  In b (enrollments_of db sg) ->
  exists b',
    In b' (enrollments_of db sg)
    /\ mb_modul_id b' = mb_modul_id b
    /\ sql_max
         (map mb_belegung_id
            (filter (fun mb => mb_modul_id mb =? mb_modul_id b)
                    (enrollments_of db sg)))
       = Some (mb_belegung_id b')
    /\ forall c, In c (enrollments_of db sg) ->
                 mb_modul_id c = mb_modul_id b ->
                 mb_belegung_id c <= mb_belegung_id b'.
Proof.
  intros Hb.
  set (grp := filter (fun mb => mb_modul_id mb =? mb_modul_id b)
                     (enrollments_of db sg)).
  assert (In b grp) as Hg by (apply filter_In; split; [exact Hb|apply Z.eqb_refl]).
  destruct (sql_max_some (map mb_belegung_id grp) (mb_belegung_id b)
              (in_map _ _ _ Hg)) as [mx Hmx].
  destruct (sql_max_attained _ _ Hmx) as [Hin Hle].
  apply in_map_iff in Hin. destruct Hin as [b' [Hid Hb']].
  apply filter_In in Hb'. destruct Hb' as [Hb' Hk]. apply Z.eqb_eq in Hk.
  exists b'. split; [exact Hb'|]. split; [exact Hk|].
  split; [rewrite Hid; exact Hmx|].
  intros c Hc Hck. rewrite Hid. apply Hle. apply in_map.
  apply filter_In. split; [exact Hc|]. apply Z.eqb_eq; exact Hck.
Qed.

(** With the primary key of the enrollments, the enrollment joined to a
    row of the CTE is the latest of that row's module. *)
Lemma latest_joined (db : DB) (sg : Z) (l : latest_row) (mb : belegung_row) :
  belegung_pk db ->
  In l (latest db sg) -> In mb (modul_belegung db) ->
  sql_eq (mb_belegung_id mb) (last_id l) = true ->
  latest_of_module db sg mb /\ mb_modul_id mb = l_modul_id l.
Proof.
  intros Hpk Hl Hmb Heq. apply latest_In in Hl. destruct Hl as [b [Hb ->]].
  destruct (group_max db sg b Hb) as [b' [Hb' [Hk [Hmx Hle]]]].
  cbn in Heq |- *. rewrite Hmx in Heq. cbn in Heq. apply Z.eqb_eq in Heq.
  apply enrollments_of_In in Hb'. destruct Hb' as [Hb'in Hb'sg].
  assert (mb = b') as ->
    by (apply (NoDup_map_inj mb_belegung_id (modul_belegung db)); assumption).
  split; [|exact Hk]. split; [exact Hb'in|]. split; [exact Hb'sg|].
  intros c Hc Hcsg Hck. apply Hle.
  - apply enrollments_of_In. auto.
  - congruence.
Qed.

(** The rows before the SELECT list: the two joins, sorted. *)
Lemma plot_joined_In (db : DB) (sg : Z) (l : latest_row) (mb : belegung_row)
  (m : modul_row) :
  In (l, mb, m)
     (sql_join
        (sql_join (latest db sg) (modul_belegung db)
           (fun l mb => sql_eq (mb_belegung_id mb) (last_id l)))
        (modul db)
        (fun lmb m => m_modul_id m =? mb_modul_id (snd lmb)))
  <-> In l (latest db sg) /\ In mb (modul_belegung db)
      /\ sql_eq (mb_belegung_id mb) (last_id l) = true
      /\ In m (modul db) /\ m_modul_id m = mb_modul_id mb.
Proof.
  rewrite sql_join_In, sql_join_In. cbn. rewrite Z.eqb_eq. tauto.
Qed.

Lemma plot_joined_keys_NoDup (db : DB) (sg : Z) :
  belegung_pk db -> modul_pk db ->
  NoDup
    (map (fun r : latest_row * belegung_row * modul_row => m_modul_id (snd r))
       (sql_join
          (sql_join (latest db sg) (modul_belegung db)
             (fun l mb => sql_eq (mb_belegung_id mb) (last_id l)))
          (modul db)
          (fun lmb m => m_modul_id m =? mb_modul_id (snd lmb)))).
Proof.
  intros Hbpk Hmpk. unfold sql_join at 1. unfold sql_join at 1.
  rewrite flat_map_flat_map.
  apply (NoDup_flat_map_keyed l_modul_id); [apply latest_keys_NoDup|].
  intros l Hl. split.
  - destruct (last_id l) as [i|] eqn:Ei; cbn.
    + pose proof (filter_unique_key_length mb_belegung_id i
                    (modul_belegung db) Hbpk) as Hlen.
      destruct (filter (fun y => mb_belegung_id y =? i) (modul_belegung db))
        as [|mb [|mb' t]]; cbn in *; [lia| |lia].
      rewrite app_nil_r, length_map.
      apply (filter_unique_key_length m_modul_id (mb_modul_id mb)); exact Hmpk.
    + assert (filter (fun _ : belegung_row => false) (modul_belegung db) = [])
        as ->; [|cbn; lia].
      induction (modul_belegung db); cbn; auto.
  - intros [[l' mb] m] Hin. apply in_flat_map in Hin.
    destruct Hin as [[l'' mb'] [H1 H2]].
    apply in_map_iff in H1. destruct H1 as [mb'' [E1 Hmb]].
    apply in_map_iff in H2. destruct H2 as [m' [E2 Hm]].
    apply filter_In in Hmb. destruct Hmb as [Hmb Heq].
    apply filter_In in Hm. destruct Hm as [_ Hm].
    inversion E1; subst. inversion E2; subst. cbn in Hm |- *.
    apply Z.eqb_eq in Hm. rewrite Hm.
    refine (proj2 (latest_joined db sg _ _ Hbpk _ _ _)); eassumption.
Qed.

Lemma select_plot_sorted (rows : list (latest_row * belegung_row * modul_row)) :
  StronglySorted (fun a b => m_modul_id (snd a) < m_modul_id (snd b)) rows ->
  (forall r, In r rows -> m_modul_id (snd r) = mb_modul_id (snd (fst r))) ->
  ascending_modul_id (map (fun r => select_plot (snd (fst r)) (snd r)) rows).
Proof.
  unfold ascending_modul_id.
  induction 1 as [|x l Hs IH Hx]; cbn; intros Hk; constructor.
  - apply IH. intros r Hr. apply Hk. right; exact Hr.
  - rewrite Forall_forall in Hx |- *. intros y Hy.
    apply in_map_iff in Hy. destruct Hy as [r [<- Hr]]. cbn.
    rewrite <- (Hk x (or_introl eq_refl)), <- (Hk r (or_intror Hr)).
    exact (Hx r Hr).
Qed.







(* --------------------------------------------------------------------- *)
(** ** Julian days and [delta_days] *)

Lemma month_1_12 (m : Z) :
  1 <= m <= 12 ->
  m = 1 \/ m = 2 \/ m = 3 \/ m = 4 \/ m = 5 \/ m = 6 \/
  m = 7 \/ m = 8 \/ m = 9 \/ m = 10 \/ m = 11 \/ m = 12.
Proof. lia. Qed.

(** The month term of [computeJD] against the table of days before each
    month; January and February count as months 13 and 14 of the year
    before. *)
Lemma julian_month_table (m : Z) :
  1 <= m <= 12 ->
  Z.quot (306001 * ((if m <=? 2 then m + 12 else m) + 1)) 10000
  = nth (Z.to_nat m) DAYS_BEFORE_MONTH 0 + (if m <=? 2 then 428 else 63).
Proof.
  intros H. apply month_1_12 in H.
  repeat (destruct H as [-> | H]); try subst m; reflexivity.
Qed.

Lemma julian_year_early (y : Z) :
  1 <= y ->
  Z.quot (36525 * (y - 1 + 4716)) 100
  + (2 - Z.quot (y - 1) 100 + Z.quot (Z.quot (y - 1) 100) 4)
  = days_before_year y + 1722521.
Proof.
  intros H. unfold days_before_year.
  rewrite !Z.quot_div_nonneg by (try apply Z.div_pos; lia).
  Z.div_mod_to_equations. lia.
Qed.

Lemma julian_year_late (y : Z) :
  1 <= y ->
  Z.quot (36525 * (y + 4716)) 100
  + (2 - Z.quot y 100 + Z.quot (Z.quot y 100) 4)
  = days_before_year y + (if is_leap y then 1 else 0) + 1722886.
Proof.
  intros H. unfold days_before_year, is_leap.
  rewrite !Z.quot_div_nonneg by (try apply Z.div_pos; lia).
  destruct (y mod 4 =? 0) eqn:E4; destruct (y mod 100 =? 0) eqn:E100;
    destruct (y mod 400 =? 0) eqn:E400; cbn [andb orb negb];
    rewrite ?Z.eqb_eq, ?Z.eqb_neq in *;
    Z.div_mod_to_equations; lia.
Qed.

(** On a date of the calendar, SQLite's Julian day count and Python's
    ordinal differ by a constant. *)
Lemma julian_int_ordinal (d : date) :
  valid_date d = true -> julian_int d = ymd2ord d + 1722949.
Proof.
  destruct d as [y m dd].
  unfold valid_date, julian_int, ymd2ord, days_before_month, MINYEAR, MAXYEAR;
    cbn [year month day].
  intros H.
  repeat (apply andb_prop in H; destruct H as [H ?]).
  rewrite ?Z.leb_le in *.
  rewrite julian_month_table by lia.
  destruct (m <=? 2) eqn:Em.
  - apply Z.leb_le in Em.
    replace (2 <? m) with false by (symmetry; apply Z.ltb_ge; lia).
    cbn [andb].
    pose proof (julian_year_early y ltac:(lia)). lia.
  - apply Z.leb_gt in Em.
    replace (2 <? m) with true by (symmetry; apply Z.ltb_lt; lia).
    cbn [andb].
    pose proof (julian_year_late y ltac:(lia)). lia.
Qed.

Lemma cast_integer_inject (x : Q) (z : Z) :
  (x == inject_Z z)%Q -> cast_integer x = z.
Proof.
  unfold Qeq, cast_integer. cbn. intros H.
  rewrite Z.mul_1_r in H. rewrite H. apply Z.quot_mul. discriminate.
Qed.

Lemma case_delta_days_valid (soll ist : date) :
  valid_date soll = true -> valid_date ist = true ->
  case_delta_days (Some soll) (Some ist) = Some (days_between soll ist).
Proof.
  intros Hs Hi. unfold case_delta_days. cbn [is_not_null andb]. f_equal.
  apply cast_integer_inject. unfold julianday, days_between.
  rewrite (julian_int_ordinal _ Hs), (julian_int_ordinal _ Hi).
  unfold Z.sub. rewrite !inject_Z_plus, inject_Z_opp. ring.
Qed.

Lemma plot_row_source (db : DB) (sg : Z) (r : plot_row) :
  In r (plot_latest_per_module db sg) ->
  exists mb m, In mb (modul_belegung db) /\ r = select_plot mb m.
Proof.
  unfold plot_latest_per_module. intros Hr.
  apply in_map_iff in Hr. destruct Hr as [[[l mb] m] [<- Hr]].
  apply order_by_asc_In, plot_joined_In in Hr.
  exists mb, m. cbn. tauto.
Qed.

Ltac eval_month_tables :=
  repeat match goal with
  | |- context [nth (Z.to_nat ?k) ?l ?d] =>
      let v := eval vm_compute in (nth (Z.to_nat k) l d) in
      change (nth (Z.to_nat k) l d) with v
  | H : context [nth (Z.to_nat ?k) ?l ?d] |- _ =>
      let v := eval vm_compute in (nth (Z.to_nat k) l d) in
      change (nth (Z.to_nat k) l d) with v in H
  | |- context [Z.eqb ?k 2] =>
      let v := eval vm_compute in (Z.eqb k 2) in
      change (Z.eqb k 2) with v
  | H : context [Z.eqb ?k 2] |- _ =>
      let v := eval vm_compute in (Z.eqb k 2) in
      change (Z.eqb k 2) with v in H
  | |- context [Z.ltb 2 ?k] =>
      let v := eval vm_compute in (Z.ltb 2 k) in
      change (Z.ltb 2 k) with v
  end;
  cbn [andb] in *.

Lemma days_before_year_succ (y : Z) :
  days_before_year (y + 1)
  = days_before_year y + 365 + (if is_leap y then 1 else 0).
Proof.
  unfold days_before_year, is_leap.
  replace (y + 1 - 1) with y by lia.
  destruct (y mod 4 =? 0) eqn:E4; destruct (y mod 100 =? 0) eqn:E100;
    destruct (y mod 400 =? 0) eqn:E400; cbn [andb orb negb];
    rewrite ?Z.eqb_eq, ?Z.eqb_neq in *;
    Z.div_mod_to_equations; lia.
Qed.

Lemma days_before_year_mono (y y' : Z) :
  y <= y' -> days_before_year y <= days_before_year y'.
Proof.
  intros H. replace y' with (y + Z.of_nat (Z.to_nat (y' - y))) by lia.
  induction (Z.to_nat (y' - y)) as [|n IH]; [rewrite Z.add_0_r; lia|].
  rewrite Nat2Z.inj_succ.
  replace (y + Z.succ (Z.of_nat n)) with (y + Z.of_nat n + 1) by lia.
  rewrite days_before_year_succ. destruct (is_leap _); lia.
Qed.

(** The day of the year of a date of the calendar. *)
Lemma day_of_year_bounds (d : date) :
  valid_date d = true ->
  1 <= days_before_month (year d) (month d) + day d
    <= 365 + (if is_leap (year d) then 1 else 0).
Proof.
  destruct d as [y m dd].
  unfold valid_date, days_before_month, days_in_month; cbn [year month day].
  intros H. repeat (apply andb_prop in H; destruct H as [H ?]).
  rewrite ?Z.leb_le in *.
  assert (1 <= m <= 12) as Hm by lia. apply month_1_12 in Hm.
  unfold MINYEAR, MAXYEAR in *.
  destruct (is_leap y);
    repeat (destruct Hm as [-> | Hm]); try subst m;
    eval_month_tables; lia.
Qed.

Lemma same_year_earlier_month (y m m' dd : Z) :
  1 <= m -> m < m' -> m' <= 12 -> dd <= days_in_month y m ->
  days_before_month y m + dd <= days_before_month y m'.
Proof.
  unfold days_before_month, days_in_month. intros H1 H2 H3.
  assert (1 <= m <= 12) as Hm by lia. apply month_1_12 in Hm.
  assert (1 <= m' <= 12) as Hm' by lia. apply month_1_12 in Hm'.
  destruct (is_leap y);
    repeat (destruct Hm as [-> | Hm]); try subst m;
    try lia;
    repeat (destruct Hm' as [-> | Hm']); try subst m';
    try lia; eval_month_tables; lia.
Qed.

(** An earlier day has a smaller ordinal. *)
Lemma ymd2ord_earlier (a b : date) :
  valid_date a = true -> valid_date b = true -> earlier a b ->
  ymd2ord a < ymd2ord b.
Proof.
  intros Ha Hb He.
  pose proof (day_of_year_bounds a Ha) as Da.
  pose proof (day_of_year_bounds b Hb) as Db.
  unfold ymd2ord. destruct He as [Hy | [[Hy Hm] | [Hy [Hm Hd]]]].
  - pose proof (days_before_year_succ (year a)) as Hs.
    pose proof (days_before_year_mono (year a + 1) (year b) ltac:(lia)). lia.
  - rewrite Hy in *. clear Da Db.
    destruct a as [ya ma da], b as [yb mb db].
    unfold valid_date in Ha, Hb. cbn [year month day] in *.
    repeat (apply andb_prop in Ha; destruct Ha as [Ha ?]).
    repeat (apply andb_prop in Hb; destruct Hb as [Hb ?]).
    rewrite ?Z.leb_le in *. subst ya.
    pose proof (same_year_earlier_month yb ma mb da). lia.
  - rewrite Hy, Hm. lia.
Qed.

(** C2. In every row of [plot_latest_per_module], over enrollments whose
    dates are dates of the calendar: [delta_days] is NULL when the target
    date or the actual date is missing; when both are present it is the
    number of days from the target date to the actual date, which is
    negative when the actual date is the earlier one. *)
Theorem delta_days_signed_days (db : DB) (studiengang_id : Z) (r : plot_row) :
  dates_valid db ->
  In r (plot_latest_per_module db studiengang_id) ->
  match p_soll_bestanden_am r, p_ist_bestanden_am r with
  | Some soll, Some ist =>
      delta_days r = Some (days_between soll ist)
      /\ (earlier ist soll -> days_between soll ist < 0)
  | _, _ => delta_days r = None
  end.
Proof.
  intros Hv Hr. apply plot_row_source in Hr.
  destruct Hr as [mb [m [Hmb ->]]]. cbn.
  destruct (mb_soll_bestanden_am mb) as [soll|] eqn:Es;
    [|reflexivity].
  destruct (mb_ist_bestanden_am mb) as [ist|] eqn:Ei; [|reflexivity].
  pose proof (Hv mb soll Hmb (or_introl Es)) as Hs.
  pose proof (Hv mb ist Hmb (or_intror Ei)) as Hi.
  split.
  - apply case_delta_days_valid; assumption.
  - intros He. unfold days_between.
    pose proof (ymd2ord_earlier ist soll Hi Hs He). lia.
Qed.

(* --------------------------------------------------------------------- *)
(** ** parse_date *)

Lemma lstrip_all_space (s : string) :
  all_space s = true -> lstrip s = EmptyString.
Proof.
  induction s as [|c s IH]; cbn; [reflexivity|].
  intros H. apply andb_prop in H. destruct H as [-> H]. exact (IH H).
Qed.

Lemma strip_all_space (s : string) :
  all_space s = true -> strip s = EmptyString.
Proof.
  intros H. unfold strip. rewrite (lstrip_all_space s H). reflexivity.
Qed.

Lemma rstrip_idempotent (s : string) : rstrip (rstrip s) = rstrip s.
Proof.
  induction s as [|c s IH]; cbn; [reflexivity|].
  destruct (rstrip s) as [|c' r] eqn:E.
  - destruct (isspace c) eqn:Ec; cbn; [reflexivity|]. rewrite Ec. reflexivity.
  - cbn [rstrip] in IH |- *. rewrite IH. reflexivity.
Qed.

Lemma lstrip_head (s : string) :
  match lstrip s with
  | EmptyString => True
  | String c _ => isspace c = false
  end.
Proof.
  induction s as [|c s IH]; cbn; [exact I|].
  destruct (isspace c) eqn:E; [exact IH | exact E].
Qed.

Lemma rstrip_head (c : ascii) (s : string) :
  isspace c = false -> exists r, rstrip (String c s) = String c r.
Proof.
  intros H. cbn. destruct (rstrip s); [rewrite H|]; eexists; reflexivity.
Qed.

Lemma strip_idempotent (s : string) : strip (strip s) = strip s.
Proof.
  unfold strip. pose proof (lstrip_head s) as H.
  destruct (lstrip s) as [|c u]; [reflexivity|].
  destruct (rstrip_head c u H) as [r Er]. rewrite Er.
  cbn [lstrip]. rewrite H, <- Er. apply rstrip_idempotent.
Qed.

Lemma strptime_raises (t format : string) (e : exn) :
  strptime t format = Raise e -> e = ValueError.
Proof.
  unfold strptime. destruct (pattern format); [|congruence].
  destruct (re_match _ t) as [[found [|c rest]]|]; try congruence.
  destruct (convert_groups _ found) as [[[y m] d]|]; [|congruence].
  destruct (valid_date _); congruence.
Qed.

Lemma no_match_raises (t format : string) :
  no_match t format <-> strptime t format = Raise ValueError.
Proof.
  unfold no_match. split.
  - intros H. destruct (strptime t format) as [d|e] eqn:E.
    + exfalso. exact (H d eq_refl).
    + rewrite (strptime_raises _ _ _ E). reflexivity.
  - intros E d. rewrite E. discriminate.
Qed.

Local Open Scope string_scope.

Lemma parse_date_trimmed (text : option string) :
  parse_date text
  = match trimmed text with
    | EmptyString => Ok None
    | _ => try_formats (trimmed text) DATE_FORMATS
    end.
Proof. reflexivity. Qed.

Lemma try_formats_cases (t : string) :
  match strptime t "%Y-%m-%d" with
  | Ok d => try_formats t DATE_FORMATS = Ok (Some d)
  | Raise _ =>
      match strptime t "%d.%m.%y" with
      | Ok d => try_formats t DATE_FORMATS = Ok (Some d)
      | Raise _ =>
          match strptime t "%d.%m.%Y" with
          | Ok d => try_formats t DATE_FORMATS = Ok (Some d)
          | Raise _ => try_formats t DATE_FORMATS = Raise ValidationError
          end
      end
  end.
Proof.
  unfold DATE_FORMATS. cbn [try_formats].
  destruct (strptime t "%Y-%m-%d") as [d|e] eqn:E1; [reflexivity|].
  rewrite (strptime_raises _ _ _ E1).
  destruct (strptime t "%d.%m.%y") as [d|e2] eqn:E2; [reflexivity|].
  rewrite (strptime_raises _ _ _ E2).
  destruct (strptime t "%d.%m.%Y") as [d|e3] eqn:E3; [reflexivity|].
  rewrite (strptime_raises _ _ _ E3). reflexivity.
Qed.

(** C8. [parse_date] works on its trimmed argument.  An empty trimmed
    text, so any text of white space only, gives [None].  Otherwise the
    result is the date of the first of the formats ISO, DD.MM.YY and
    DD.MM.YYYY that matches, and the validation error is raised exactly
    when none of the three matches; no other exception is raised.  The
    texts 2024-03-01, 01.03.24 and 01.03.2024 all give the first of March
    2024, and not-a-date raises the validation error. *)
Theorem parse_date_first_matching_format :
  (forall text : option string,
      let t := trimmed text in
      parse_date text = parse_date (Some t)
      /\ (t = "" -> parse_date text = Ok None)
      /\ (t <> "" ->
          (forall d, matches t "%Y-%m-%d" d -> parse_date text = Ok (Some d))
          /\ (forall d, no_match t "%Y-%m-%d" -> matches t "%d.%m.%y" d ->
                        parse_date text = Ok (Some d))
          /\ (forall d, no_match t "%Y-%m-%d" -> no_match t "%d.%m.%y" ->
                        matches t "%d.%m.%Y" d ->
                        parse_date text = Ok (Some d))
          /\ (parse_date text = Raise ValidationError
              <-> no_match t "%Y-%m-%d" /\ no_match t "%d.%m.%y"
                  /\ no_match t "%d.%m.%Y"))
      /\ (forall e, parse_date text = Raise e -> e = ValidationError))
  /\ (forall s, all_space s = true -> parse_date (Some s) = Ok None)
  /\ parse_date (Some "2024-03-01") = Ok (Some (mkdate 2024 3 1))
  /\ parse_date (Some "01.03.24") = Ok (Some (mkdate 2024 3 1))
  /\ parse_date (Some "01.03.2024") = Ok (Some (mkdate 2024 3 1))
  /\ parse_date (Some "") = Ok None
  /\ parse_date (Some "not-a-date") = Raise ValidationError.
Proof.
  split; [|split; [|repeat split]].
  - intros text t.
    assert (t <> "" -> parse_date text = try_formats t DATE_FORMATS) as Hne.
    { intros Hne. rewrite parse_date_trimmed. fold t.
      destruct t; [contradiction|reflexivity]. }
    pose proof (try_formats_cases t) as H.
    split; [|split; [|split]].
    + assert (trimmed (Some t) = t) as Hidem
        by (unfold t, trimmed; apply strip_idempotent).
      rewrite (parse_date_trimmed (Some t)), Hidem. reflexivity.
    + intros E. rewrite parse_date_trimmed. fold t. rewrite E. reflexivity.
    + intros Ht. rewrite (Hne Ht). clear Hne Ht.
      unfold matches. rewrite !no_match_raises.
      destruct (strptime t "%Y-%m-%d") as [d1|e1] eqn:E1.
      { rewrite H. repeat split; try congruence.
        intros [? _]; congruence. }
      rewrite (strptime_raises _ _ _ E1) in *.
      destruct (strptime t "%d.%m.%y") as [d2|e2] eqn:E2.
      { rewrite H. repeat split; try congruence.
        intros [_ [? _]]; congruence. }
      rewrite (strptime_raises _ _ _ E2) in *.
      destruct (strptime t "%d.%m.%Y") as [d3|e3] eqn:E3.
      { rewrite H. repeat split; try congruence.
        intros [_ [_ ?]]; congruence. }
      rewrite (strptime_raises _ _ _ E3) in *.
      rewrite H. repeat split; congruence.
    + intros e. destruct (string_dec t "") as [E | Ht].
      * rewrite parse_date_trimmed. fold t. rewrite E. discriminate.
      * rewrite (Hne Ht).
        destruct (strptime t "%Y-%m-%d"); [rewrite H; discriminate|].
        destruct (strptime t "%d.%m.%y"); [rewrite H; discriminate|].
        destruct (strptime t "%d.%m.%Y"); rewrite H; congruence.
  - intros s Hs. rewrite parse_date_trimmed. unfold trimmed.
    rewrite (strip_all_space s Hs). reflexivity.
Qed.

Local Close Scope string_scope.

Lemma Z_range_In (lo : Z) (n : nat) (z : Z) :
  lo <= z < lo + Z.of_nat n -> In z (Z_range lo n).
Proof.
  intros H. unfold Z_range. apply in_map_iff.
  exists (Z.to_nat (z - lo)). split; [lia|].
  apply in_seq. lia.
Qed.

Lemma date_eqb_eq (a b : date) : date_eqb a b = true -> a = b.
Proof.
  destruct a, b. unfold date_eqb. cbn.
  intros H. repeat (apply andb_prop in H; destruct H as [H ?]).
  rewrite Z.eqb_eq in *. congruence.
Qed.

(** Every day, month and two-digit year, by evaluation. *)
Lemma reads_two_digit_year_all :
  forallb
    (fun y =>
       forallb
         (fun m => forallb (fun d => reads_two_digit_year y m d) (Z_range 1 31))
         (Z_range 1 12))
    (Z_range 0 100)
  = true.
Proof. vm_compute. reflexivity. Qed.

Lemma valid_date_ranges (d : date) :
  valid_date d = true -> 1 <= month d <= 12 /\ 1 <= day d <= 31.
Proof.
  destruct d as [y m dd]. unfold valid_date, days_in_month; cbn [year month day].
  intros H. repeat (apply andb_prop in H; destruct H as [H ?]).
  rewrite ?Z.leb_le in *.
  assert (1 <= m <= 12) as Hm by lia. split; [exact Hm|].
  apply month_1_12 in Hm.
  destruct (is_leap y);
    repeat (destruct Hm as [-> | Hm]); try subst m; eval_month_tables; lia.
Qed.

Local Open Scope string_scope.

(** *** The shape of a match *)

Lemma re_match_literal (c : ascii) (p : list regex_item) (s : string)
  (found : list (directive * string)) (rest : string) :
  re_match (Literal c :: p) s = Some (found, rest) ->
  exists s', s = String c s' /\ re_match p s' = Some (found, rest).
Proof.
  cbn. destruct s as [|c' s']; [discriminate|].
  destruct (Ascii.eqb c' c) eqn:E; [|discriminate].
  apply Ascii.eqb_eq in E. subst c'. eauto.
Qed.

Lemma re_match_group (g : directive) (alts : list (list charclass))
  (p : list regex_item) (s : string)
  (found : list (directive * string)) (rest : string) :
  re_match (Group g alts :: p) s = Some (found, rest) ->
  exists a txt mid found',
    In a alts
    /\ match_alternative a s = Some (txt, mid)
    /\ re_match p mid = Some (found', rest)
    /\ found = (g, txt) :: found'.
Proof.
  cbn. induction alts as [|a alts IH]; [discriminate|].
  destruct (match_alternative a s) as [[txt mid]|] eqn:Ea.
  - destruct (re_match p mid) as [[found' rest']|] eqn:Ep.
    + intros [= <- <-]. exists a, txt, mid, found'.
      repeat split; auto. left; reflexivity.
    + intros H. destruct (IH H) as [a' [txt' [mid' [f' [Hin H']]]]].
      exists a', txt', mid', f'. split; [right; exact Hin | exact H'].
  - intros H. destruct (IH H) as [a' [txt' [mid' [f' [Hin H']]]]].
    exists a', txt', mid', f'. split; [right; exact Hin | exact H'].
Qed.

Lemma match_alternative_app (a : list charclass) (s txt rest : string) :
  match_alternative a s = Some (txt, rest) -> s = txt ++ rest.
Proof.
  revert s txt rest. induction a as [|k a IH]; cbn; intros s txt rest.
  - intros [= <- <-]. reflexivity.
  - destruct s as [|c s]; [discriminate|].
    destruct (class_matches k c); [|discriminate].
    destruct (match_alternative a s) as [[txt' rest']|] eqn:E; [|discriminate].
    intros [= <- <-]. rewrite (IH _ _ _ E). reflexivity.
Qed.

Lemma match_two_digits (s txt rest : string) :
  match_alternative [Digit; Digit] s = Some (txt, rest) ->
  exists c1 c2,
    txt = String c1 (String c2 "")
    /\ is_digit c1 = true /\ is_digit c2 = true.
Proof.
  destruct s as [|c1 [|c2 s]]; cbn; try discriminate.
  - destruct (is_digit c1); discriminate.
  - destruct (is_digit c1) eqn:E1; [|discriminate].
    destruct (is_digit c2) eqn:E2; [|discriminate].
    intros [= <- <-]. exists c1, c2. auto.
Qed.

Lemma is_digit_not_space (c : ascii) : is_digit c = true -> isspace c = false.
Proof.
  unfold is_digit, isspace. cbv zeta. intros H.
  apply andb_prop in H. destruct H as [H1 H2].
  apply N.leb_le in H1, H2.
  repeat match goal with
         | |- context [(?a <=? ?b)%N] => destruct (N.leb_spec a b)
         | |- context [(?a =? ?b)%N] => destruct (N.eqb_spec a b)
         end;
    cbn; try reflexivity; lia.
Qed.

Lemma py_int_two_digits (c1 c2 : ascii) :
  is_digit c1 = true -> is_digit c2 = true ->
  py_int (String c1 (String c2 ""))
  = Some (10 * digit_value c1 + digit_value c2).
Proof.
  intros H1 H2. unfold py_int, strip. cbn [lstrip].
  rewrite (is_digit_not_space _ H1). cbn [rstrip].
  rewrite (is_digit_not_space _ H2). cbn [int_digits].
  rewrite H1, H2. f_equal; lia.
Qed.

Lemma append_two_separators (a b z : string) (c c' : ascii) :
  a ++ String c (b ++ String c' z) = (a ++ String c (b ++ String c' "")) ++ z.
Proof.
  induction a as [|x a IH]; cbn.
  - f_equal. induction b as [|y b IHb]; cbn; [reflexivity|].
    rewrite IHb. reflexivity.
  - rewrite IH. reflexivity.
Qed.

(** A text the format [%d.%m.%y] matches ends in two digits, and the year
    of the date is the year those digits stand for. *)
Lemma strptime_two_digit_year (t : string) (dt : date) :
  matches t "%d.%m.%y" dt ->
  exists td tm c1 c2,
    t = (td ++ String "." (tm ++ ".")) ++ String c1 (String c2 "")
    /\ In (String.length td) [1%nat; 2%nat]
    /\ is_digit c1 = true /\ is_digit c2 = true
    /\ year dt = century_year (10 * digit_value c1 + digit_value c2).
Proof.
  unfold matches, strptime.
  change (pattern "%d.%m.%y") with
    (Some [Group dir_d (TimeRE dir_d); Literal ".";
           Group dir_m (TimeRE dir_m); Literal ".";
           Group dir_y (TimeRE dir_y)]).
  cbv beta iota.
  destruct (re_match _ t) as [[found [|c rest]]|] eqn:E; try discriminate.
  apply re_match_group in E.
  destruct E as [ad [td [s1 [f1 [Had [Hd [E ->]]]]]]].
  apply re_match_literal in E. destruct E as [s2 [-> E]].
  apply re_match_group in E.
  destruct E as [am [tm [s3 [f2 [Ham [Hm [E ->]]]]]]].
  apply re_match_literal in E. destruct E as [s4 [-> E]].
  apply re_match_group in E.
  destruct E as [ay [ty [s5 [f3 [Hay [Hy [E ->]]]]]]].
  cbn in E. injection E as Ef Es. subst f3 s5.
  destruct Hay as [<- | []].
  pose proof (match_alternative_app _ _ _ _ Hy) as Hs4.
  apply match_two_digits in Hy. destruct Hy as [c1 [c2 [-> [H1 H2]]]].
  cbn in Hs4.
  pose proof (py_int_two_digits c1 c2 H1 H2) as Hint.
  remember (10 * digit_value c1 + digit_value c2)%Z as v eqn:Ev.
  cbn [convert_groups]. intros H.
  destruct (py_int td) as [vd|]; [|discriminate].
  destruct (py_int tm) as [vm|]; [|discriminate].
  rewrite Hint in H. cbn [set_field] in H.
  destruct (valid_date _); [|discriminate].
  injection H as <-. exists td, tm, c1, c2.
  split; [|split; [|split; [exact H1|split; [exact H2|]]]].
  - rewrite (match_alternative_app _ _ _ _ Hd).
    rewrite (match_alternative_app _ _ _ _ Hm), Hs4.
    apply append_two_separators.
  - assert (String.length td = List.length ad) as ->.
    { clear -Hd. revert t td Hd. generalize (String "." s2).
      induction ad as [|k a IH]; cbn; intros rest t td.
      - intros [= <- _]. reflexivity.
      - destruct t as [|c t]; [discriminate|].
        destruct (class_matches k c); [|discriminate].
        destruct (match_alternative a t) as [[txt' rest']|] eqn:E;
          [|discriminate].
        intros [= <- _]. cbn. rewrite (IH _ _ _ E). reflexivity. }
    cbn in Had. repeat (destruct Had as [<- | Had]; [cbn; tauto|]).
    contradiction.
  - cbn [year]. rewrite <- Ev. unfold century_year.
    destruct (v <=? 68)%Z; lia.
Qed.

(** The ISO format matches no text in which one of the first three
    characters is a full stop. *)
Lemma iso_needs_four_digits (t : string) (dt : date) :
  matches t "%Y-%m-%d" dt ->
  exists c1 c2 c3 c4 rest,
    t = String c1 (String c2 (String c3 (String c4 rest)))
    /\ is_digit c1 = true /\ is_digit c2 = true /\ is_digit c3 = true.
Proof.
  unfold matches, strptime.
  change (pattern "%Y-%m-%d") with
    (Some [Group dir_Y (TimeRE dir_Y); Literal "-";
           Group dir_m (TimeRE dir_m); Literal "-";
           Group dir_d (TimeRE dir_d)]).
  cbv beta iota.
  destruct (re_match _ t) as [[found rest]|] eqn:E; [|discriminate].
  intros _. apply re_match_group in E.
  destruct E as [a [txt [mid [f [Ha [Hy _]]]]]].
  destruct Ha as [<- | []].
  destruct t as [|c1 [|c2 [|c3 [|c4 r]]]]; cbn in Hy; try discriminate;
    repeat match type of Hy with
           | context [is_digit ?c] => destruct (is_digit c) eqn:?
           end; try discriminate.
  exists c1, c2, c3, c4, r. auto.
Qed.

Lemma two_digit_year_not_iso (t : string) (dt : date) :
  matches t "%d.%m.%y" dt -> no_match t "%Y-%m-%d".
Proof.
  intros H d Hiso. apply strptime_two_digit_year in H.
  destruct H as [td [tm [y1 [y2 [Ht [Hlen _]]]]]].
  apply (iso_needs_four_digits t d) in Hiso.
  destruct Hiso as [c1 [c2 [c3 [c4 [r [Hiso [D1 [D2 D3]]]]]]]].
  rewrite Hiso in Ht. clear Hiso.
  destruct td as [|a [|b [|c td]]]; cbn in Hlen, Ht;
    try (destruct Hlen as [Hlen | [Hlen | []]]; discriminate).
  - injection Ht as _ E2 _. subst c2. discriminate.
  - injection Ht as _ _ E3 _. subst c3. discriminate.
Qed.

(** C9. A text that the format DD.MM.YY matches ends in two digits YY;
    [parse_date] returns the date of that format, and its year is 2000+YY
    for YY from 00 to 68 and 1900+YY for YY from 69 to 99.  Every text
    DD.MM.YY that names a day of the calendar under this rule is such a
    text. *)
Theorem parse_date_two_digit_year :
  (forall text dt,
      matches (trimmed text) "%d.%m.%y" dt ->
      parse_date text = Ok (Some dt)
      /\ exists prefix c1 c2,
           trimmed text = prefix ++ String c1 (String c2 "")
           /\ is_digit c1 = true /\ is_digit c2 = true
           /\ year dt = century_year (10 * digit_value c1 + digit_value c2))
  /\ (forall d m y,
        (0 <= y <= 99)%Z ->
        valid_date (mkdate (century_year y) m d) = true ->
        parse_date (Some (dd_mm_yy d m y))
        = Ok (Some (mkdate (century_year y) m d)))
  /\ (forall y, (0 <= y <= 68)%Z -> century_year y = 2000 + y)
  /\ (forall y, (69 <= y <= 99)%Z -> century_year y = 1900 + y).
Proof.
  split; [|split; [|split]].
  - intros text dt H. split.
    + pose proof (two_digit_year_not_iso _ _ H) as Hiso.
      apply no_match_raises in Hiso. unfold matches in H.
      rewrite parse_date_trimmed.
      pose proof (try_formats_cases (trimmed text)) as Hc.
      rewrite Hiso, H in Hc. rewrite <- Hc.
      destruct (trimmed text); [discriminate H | reflexivity].
    + destruct (strptime_two_digit_year _ _ H)
        as [td [tm [c1 [c2 [Ht [_ [H1 [H2 Hy]]]]]]]].
      exists (td ++ String "." (tm ++ ".")), c1, c2. auto.
  - intros d m y Hy Hv.
    pose proof (valid_date_ranges _ Hv) as [Hm Hd]. cbn [month day] in Hm, Hd.
    pose proof reads_two_digit_year_all as H.
    rewrite forallb_forall in H.
    specialize (H y (Z_range_In 0 100 y ltac:(lia))).
    rewrite forallb_forall in H.
    specialize (H m (Z_range_In 1 12 m ltac:(lia))).
    rewrite forallb_forall in H.
    specialize (H d (Z_range_In 1 31 d ltac:(lia))).
    unfold reads_two_digit_year in H. rewrite Hv in H.
    destruct (parse_date (Some (dd_mm_yy d m y))) as [[d'|]|]; try discriminate.
    apply date_eqb_eq in H. rewrite H. reflexivity.
  - intros y H. unfold century_year.
    replace (y <=? 68)%Z with true by (symmetry; apply Z.leb_le; lia).
    reflexivity.
  - intros y H. unfold century_year.
    replace (y <=? 68)%Z with false by (symmetry; apply Z.leb_gt; lia).
    reflexivity.
Qed.

Local Close Scope string_scope.

(* --------------------------------------------------------------------- *)
(** ** StudentRepository.upsert: the value returned *)

Lemma find_filter_fetchone {A B : Type} (p : A -> bool) (f : A -> B)
  (l : list A) :
  fetchone (map f (filter p l)) = option_map f (find p l).
Proof.
  induction l as [|x l IH]; cbn; [reflexivity|].
  destruct (p x); [reflexivity | exact IH].
Qed.

(** The fallback lookup returns the id of the stored row. *)
Lemma select_student_id_stored (db : DB) (matrikelnummer : string) :
  fetchone (fetchall (select_student_id db matrikelnummer))
  = stored_student_id db matrikelnummer.
Proof. apply find_filter_fetchone. Qed.

(** On the insert path the id returned is the id of the new row. *)
Lemma upsert_insert_returns_new_id (db : DB) (s : Student.t) :
  existsb (in_conflict s) (student db) = false ->
  snd (upsert db s) = Ok (new_rowid (map st_student_id (student db)))
  /\ stored_student_id (fst (upsert db s)) (Student.matrikelnummer s)
     = Some (new_rowid (map st_student_id (student db))).
Proof.
  intros E.
  assert (find (fun r => String.eqb (st_matrikelnummer r)
                                    (Student.matrikelnummer s)) (student db)
          = None) as Hnone.
  { clear -E. unfold in_conflict in E.
    induction (student db) as [|r l IH]; cbn in *; [reflexivity|].
    apply orb_false_elim in E. destruct E as [-> E]. exact (IH E). }
  assert (forall l,
            find (fun r => String.eqb (st_matrikelnummer r)
                                      (Student.matrikelnummer s)) l = None ->
            forall x, st_matrikelnummer x = Student.matrikelnummer s ->
            find (fun r => String.eqb (st_matrikelnummer r)
                                      (Student.matrikelnummer s)) (l ++ [x])
            = Some x) as Happ.
  { induction l as [|r l IH]; cbn; intros Hl x Hx.
    - rewrite Hx, String.eqb_refl. reflexivity.
    - destruct (String.eqb _ _); [discriminate|]. exact (IH Hl x Hx). }
  split.
  - unfold upsert. rewrite (insert_student_without_conflict db s E).
    cbv zeta. cbn [lastrowid].
    destruct (truthy (Some (new_rowid (map st_student_id (student db)))));
      [reflexivity|].
    rewrite select_student_id_stored. unfold stored_student_id.
    cbn [student]. rewrite (Happ _ Hnone) by reflexivity. reflexivity.
  - rewrite upsert_state, (insert_student_without_conflict db s E).
    unfold stored_student_id. cbn [fst student].
    rewrite (Happ _ Hnone) by reflexivity. reflexivity.
Qed.

(** On the update path, with a register that is not 0, the value returned
    is the register: the rowid of the last insert on the connection. *)
Lemma upsert_update_returns_register (db : DB) (s : Student.t) :
  existsb (in_conflict s) (student db) = true ->
  last_insert_rowid db <> 0 ->
  snd (upsert db s) = Ok (last_insert_rowid db).
Proof.
  intros E Hne. unfold upsert. rewrite (insert_student_with_conflict db s E).
  cbn [lastrowid truthy].
  replace (last_insert_rowid db =? 0) with false
    by (symmetry; apply Z.eqb_neq; exact Hne).
  reflexivity.
Qed.

Lemma find_after_do_update (s : Student.t) (l : list student_row) :
  option_map st_student_id
    (find (fun r => String.eqb (st_matrikelnummer r)
                               (Student.matrikelnummer s))
          (map (fun r => if in_conflict s r then do_update_set s r else r) l))
  = option_map st_student_id
      (find (fun r => String.eqb (st_matrikelnummer r)
                                 (Student.matrikelnummer s)) l).
Proof.
  unfold in_conflict. induction l as [|r l IH]; cbn; [reflexivity|].
  destruct (String.eqb (st_matrikelnummer r) (Student.matrikelnummer s)) eqn:Er;
    cbn; rewrite Er; [reflexivity | exact IH].
Qed.

Lemma conflict_stored (db : DB) (s : Student.t) :
  existsb (in_conflict s) (student db) = true ->
  exists id, stored_student_id db (Student.matrikelnummer s) = Some id.
Proof.
  unfold stored_student_id, in_conflict.
  induction (student db) as [|r l IH]; cbn; [discriminate|].
  destruct (String.eqb (st_matrikelnummer r) (Student.matrikelnummer s));
    cbn; [eauto | exact IH].
Qed.

(** On the update path the register is 0 only when no row was inserted
    on the connection; then the fallback SELECT runs and returns the id of
    the stored row. *)
Lemma upsert_update_fallback (db : DB) (s : Student.t) :
  existsb (in_conflict s) (student db) = true ->
  last_insert_rowid db = 0 ->
  exists id,
    stored_student_id db (Student.matrikelnummer s) = Some id
    /\ snd (upsert db s) = Ok id.
Proof.
  intros E H0. destruct (conflict_stored db s E) as [id Hid].
  exists id. split; [exact Hid|].
  unfold upsert. rewrite (insert_student_with_conflict db s E).
  cbn [lastrowid truthy]. rewrite H0. cbn [Z.eqb negb].
  rewrite select_student_id_stored. unfold stored_student_id in *.
  cbn [student]. rewrite find_after_do_update, Hid. reflexivity.
Qed.

(** [upsert] raises no exception: the fallback SELECT, when it runs, finds
    the row the statement wrote. *)
Lemma upsert_never_raises (db : DB) (s : Student.t) (e : exn) :
  snd (upsert db s) <> Raise e.
Proof.
  destruct (existsb (in_conflict s) (student db)) eqn:E.
  - destruct (Z.eq_dec (last_insert_rowid db) 0) as [H0 | Hne].
    + destruct (upsert_update_fallback db s E H0) as [id [_ ->]]. discriminate.
    + rewrite (upsert_update_returns_register db s E Hne). discriminate.
  - rewrite (proj1 (upsert_insert_returns_new_id db s E)). discriminate.
Qed.

(** C4, at the failing input.  [ada] gets the id 1, [bob] the id 2; saving
    [ada] again updates the row with id 1 and returns 2, the id of [bob]'s
    row. *)
Theorem upsert_update_returns_other_id :
  snd three_upserts = (Ok 1, Ok 2, Ok 2)
  /\ stored_student_id (fst three_upserts) "M-1001" = Some 1
  /\ stored_student_id (fst three_upserts) "M-1002" = Some 2
  /\ student (fst three_upserts)
     = [ student_row_of 1 ada_renamed; student_row_of 2 bob ].
Proof. repeat split. Qed.

(* --------------------------------------------------------------------- *)
(** ** The theorems at the sample data *)

Local Open Scope string_scope.

Ltac concrete_NoDup :=
  cbn; repeat (constructor; [cbn; lia|]); constructor.

Lemma get_latest_for_student_witness :
  get_latest_for_student sample_db 1
  = Some (3, Studiengang.mk "Data Science" (mkdate 2023 10 1) (Some 4)
                            (18 # 10))
  /\ exists row,
       owns sample_db 1 row
       /\ 3 = sg_studiengang_id row
       /\ "Data Science" = sg_name row
       /\ mkdate 2023 10 1 = sg_start_datum row
       /\ Some 4 = sg_soll_studiensemester row
       /\ (18 # 10)%Q = sg_soll_durchschnittsnote row
       /\ forall r, owns sample_db 1 r -> sg_studiengang_id r <= 3.
Proof.
  split; [reflexivity|].
  apply (proj1 (proj2 (get_latest_for_student_highest_id sample_db 1))
           3 (Studiengang.mk "Data Science" (mkdate 2023 10 1) (Some 4)
                             (18 # 10))).
  reflexivity.
Defined.

Lemma update_delete_unmatched_key_witness :
  update sample_db unknown_belegung = Ok sample_db
  /\ delete sample_db 3 9 = Ok sample_db.
Proof.
  assert (forall r, In r (modul_belegung sample_db) -> ~ has_key 3 9 r) as Hno.
  { intros r Hr [_ Hk]. cbn in Hr.
    repeat (destruct Hr as [<- | Hr]; [cbn in Hk; lia|]). contradiction. }
  split.
  - apply (proj1 (update_delete_unmatched_key_noop sample_db)
             unknown_belegung 9); [reflexivity | exact Hno].
  - apply (proj2 (update_delete_unmatched_key_noop sample_db) 3 9).
    exact Hno.
Defined.

Lemma upsert_inserts_or_overwrites_witness :
  (exists id,
      ~ In id (map st_student_id (student empty_DB))
      /\ student (fst (upsert empty_DB ada))
         = (student empty_DB ++ [student_row_of id ada])%list)
  /\ Forall2 (overwritten_in_place ada_renamed)
       (student sample_db) (student (fst (upsert sample_db ada_renamed))).
Proof.
  split.
  - apply (proj1 (proj2 (proj2 (proj2
             (upsert_inserts_or_overwrites empty_DB ada))))).
    intros r [].
  - apply (proj2 (proj2 (proj2 (proj2
             (upsert_inserts_or_overwrites sample_db ada_renamed))))).
    exists (student_row_of 1 ada). split; [left; reflexivity | reflexivity].
Defined.

Lemma sum_ects_completed_sum_witness :
  sum_ects_completed sample_db 3 = 25%Q
  /\ sum_ects_completed sample_db 3
     = inject_Z (sum_Z (map (credit_weight sample_db)
                          (completed_enrollments sample_db 3)))
  /\ sum_ects_completed sample_db 7 = 0%Q.
Proof.
  split; [reflexivity|]. split.
  - apply (proj1 (sum_ects_completed_sum sample_db 3)).
    unfold modul_pk. concrete_NoDup.
  - apply (proj2 (sum_ects_completed_sum sample_db 7)). reflexivity.
Defined.


Lemma delta_days_signed_days_witness :
  nth_error (map delta_days (plot_latest_per_module sample_db 3)) 1 = Some (Some 5)
  /\ (delta_days (select_plot
                    (mk_belegung_row 3 3 2 1 (Some 2)
                       (Some (mkdate 2024 1 10)) (Some (mkdate 2024 1 15))
                       (Some 2%Q) (Some (13 # 10)%Q) 2)
                    programmierung)
      = Some (days_between (mkdate 2024 1 10) (mkdate 2024 1 15))
      /\ (earlier (mkdate 2024 1 15) (mkdate 2024 1 10) ->
          days_between (mkdate 2024 1 10) (mkdate 2024 1 15) < 0))
  /\ days_between (mkdate 2024 1 10) (mkdate 2024 1 15) = 5
  /\ days_between (mkdate 2024 3 1) (mkdate 2024 2 20) = -10.
Proof.
  split; [reflexivity|]. split; [|split; reflexivity].
  apply (delta_days_signed_days sample_db 3
           (select_plot
              (mk_belegung_row 3 3 2 1 (Some 2)
                 (Some (mkdate 2024 1 10)) (Some (mkdate 2024 1 15))
                 (Some 2%Q) (Some (13 # 10)%Q) 2)
              programmierung)).
  - intros mb d H. cbn in H.
    repeat (destruct H as [<- | H];
            [intros [E | E]; cbn in E; try discriminate;
             injection E as <-; reflexivity|]).
    contradiction.
  - cbn. tauto.
Defined.

Lemma parse_date_first_matching_format_witness :
  parse_date (Some "  01.03.2024 ") = Ok (Some (mkdate 2024 3 1))
  /\ parse_date (Some "1.3.24") = Ok (Some (mkdate 2024 3 1))
  /\ (parse_date (Some "31.02.2024") = Raise ValidationError
      <-> no_match "31.02.2024" "%Y-%m-%d" /\ no_match "31.02.2024" "%d.%m.%y"
          /\ no_match "31.02.2024" "%d.%m.%Y")
  /\ parse_date (Some "31.02.2024") = Raise ValidationError.
Proof.
  pose proof (proj1 parse_date_first_matching_format) as H.
  split; [|split; [|split]].
  - destruct (H (Some "  01.03.2024 ")) as [_ [_ [H3 _]]].
    apply (proj1 (proj2 (proj2 (H3 ltac:(discriminate))))).
    + intros d E. vm_compute in E. discriminate.
    + intros d E. vm_compute in E. discriminate.
    + reflexivity.
  - destruct (H (Some "1.3.24")) as [_ [_ [H3 _]]].
    apply (proj1 (proj2 (H3 ltac:(discriminate)))).
    + intros d E. vm_compute in E. discriminate.
    + reflexivity.
  - destruct (H (Some "31.02.2024")) as [_ [_ [H3 _]]].
    exact (proj2 (proj2 (proj2 (H3 ltac:(discriminate))))).
  - reflexivity.
Defined.

Lemma parse_date_two_digit_year_witness :
  parse_date (Some "01.03.24") = Ok (Some (mkdate 2024 3 1))
  /\ parse_date (Some "01.03.70") = Ok (Some (mkdate 1970 3 1))
  /\ parse_date (Some "29.02.68") = Ok (Some (mkdate 2068 2 29))
  /\ (parse_date (Some " 7.11.69 ") = Ok (Some (mkdate 1969 11 7))
      /\ exists prefix c1 c2,
           trimmed (Some " 7.11.69 ") = prefix ++ String c1 (String c2 "")
           /\ is_digit c1 = true /\ is_digit c2 = true
           /\ year (mkdate 1969 11 7)
              = century_year (10 * digit_value c1 + digit_value c2)).
Proof.
  pose proof parse_date_two_digit_year as [Hany [Hdd _]].
  split; [|split; [|split]].
  - exact (Hdd 1 3 24 ltac:(lia) eq_refl).
  - exact (Hdd 1 3 70 ltac:(lia) eq_refl).
  - exact (Hdd 29 2 68 ltac:(lia) eq_refl).
  - apply (Hany (Some " 7.11.69 ") (mkdate 1969 11 7)). reflexivity.
Defined.

Local Close Scope string_scope.

(* ===================================================================== *)
(** * Part III: the other methods of the repositories                     *)
(* ===================================================================== *)

(* --------------------------------------------------------------------- *)
(** ** Rows appended, rows overwritten *)

Lemma created_id_register (db' : DB) :
  created_id db' (insert_cursor db') = Ok (last_insert_rowid db').
Proof.
  unfold created_id, insert_cursor. cbn.
  destruct (last_insert_rowid db' =? 0) eqn:E; reflexivity.
Qed.

Lemma new_rowid_above (ids : list Z) (x : Z) :
  In x ids -> x < new_rowid ids.
Proof.
  intros H. destruct (sql_max_upper ids x H) as [m [Hm Hle]].
  unfold new_rowid. rewrite Hm. lia.
Qed.

Lemma fetchone_filter_app {A : Type} (p : A -> bool) (l : list A) (x : A) :
  fetchone (filter p (l ++ [x]))
  = match fetchone (filter p l) with
    | Some y => Some y
    | None => if p x then Some x else None
    end.
Proof.
  induction l as [|y l IH]; cbn.
  - destruct (p x); reflexivity.
  - destruct (p y); [reflexivity | exact IH].
Qed.

Lemma fetchone_filter_none {A : Type} (p : A -> bool) (l : list A) :
  (forall y, In y l -> p y = false) -> fetchone (filter p l) = None.
Proof.
  induction l as [|y l IH]; cbn; intros H; [reflexivity|].
  rewrite (H y (or_introl eq_refl)). apply IH.
  intros z Hz. apply H. right; exact Hz.
Qed.

(** The first row a WHERE keeps, after an UPDATE that leaves the columns
    of the WHERE alone. *)
Lemma fetchone_filter_map {A : Type} (p : A -> bool) (f : A -> A)
  (l : list A) :
  (forall x, p (f x) = p x) ->
  fetchone (filter p (map f l)) = option_map f (fetchone (filter p l)).
Proof.
  intros Hp. induction l as [|x l IH]; cbn; [reflexivity|].
  rewrite Hp. destruct (p x); [reflexivity | exact IH].
Qed.

Lemma filter_map_commute {A : Type} (p : A -> bool) (f : A -> A)
  (l : list A) :
  (forall x, p (f x) = p x) -> filter p (map f l) = map f (filter p l).
Proof.
  intros Hp. induction l as [|x l IH]; cbn; [reflexivity|].
  rewrite Hp, IH. destruct (p x); reflexivity.
Qed.

Lemma order_by_asc_map {A : Type} (key : A -> Z) (f : A -> A) (l : list A) :
  (forall x, key (f x) = key x) ->
  order_by_asc key (map f l) = map f (order_by_asc key l).
Proof.
  intros Hk.
  assert (forall x l, insert_asc key (f x) (map f l)
                      = map f (insert_asc key x l)) as Hins.
  { intros x l'. induction l' as [|y l' IH]; cbn; [reflexivity|].
    rewrite !Hk. destruct (key x <? key y); cbn; [reflexivity|].
    rewrite IH. reflexivity. }
  induction l as [|x l IH]; cbn; [reflexivity|].
  rewrite IH. apply Hins.
Qed.

(* --------------------------------------------------------------------- *)
(** ** StudiengangRepository.create and update *)

Lemma studiengang_of_row_of (id student_id : Z) (sg : Studiengang.t) :
  studiengang_of_row (studiengang_row_of id student_id sg) = sg.
Proof. destruct sg; reflexivity. Qed.

(** X1. [StudiengangRepository.create] returns an id that no stored
    program has, leaves the other tables alone, and makes the new program
    the latest of its student: [get_latest_for_student] returns the new id
    with the record that was saved.  For every other student the latest
    program is what it was. *)
Theorem studiengang_create_is_latest (db : DB) (student_id : Z)
  (sg : Studiengang.t) :
  let db' := fst (StudiengangRepository.create db student_id sg) in
  exists id,
    snd (StudiengangRepository.create db student_id sg) = Ok id
    /\ ~ In id (map sg_studiengang_id (studiengang db))
    /\ get_latest_for_student db' student_id = Some (id, sg)
    /\ (forall other, other <> student_id ->
                      get_latest_for_student db' other
                      = get_latest_for_student db other)
    /\ student db' = student db /\ modul db' = modul db
    /\ modul_belegung db' = modul_belegung db.
Proof.
  cbv zeta. unfold StudiengangRepository.create. cbn [fst snd].
  set (id := new_rowid (map sg_studiengang_id (studiengang db))).
  exists id. rewrite created_id_register. cbn [last_insert_rowid set_studiengang].
  split; [reflexivity|]. split; [apply new_rowid_fresh|].
  split; [|split; [|repeat split]].
  - unfold get_latest_for_student, order_by_desc.
    cbn [studiengang set_studiengang]. rewrite filter_app. cbn [filter].
    cbn [sg_student_id studiengang_row_of]. rewrite Z.eqb_refl.
    set (old := filter _ (studiengang db)).
    destruct (order_by_asc (fun x => - sg_studiengang_id x)
                (old ++ [studiengang_row_of id student_id sg]))
      as [|row t] eqn:E.
    + apply order_by_asc_nil in E. destruct old; discriminate.
    + apply order_by_asc_head in E. destruct E as [Hin Hmin].
      assert (row = studiengang_row_of id student_id sg) as ->.
      { apply in_app_or in Hin. destruct Hin as [Hin | [<- | []]];
          [|reflexivity].
        exfalso. apply filter_In in Hin. destruct Hin as [Hin _].
        pose proof (new_rowid_above _ _
                      (in_map sg_studiengang_id _ _ Hin)) as Hlt.
        fold id in Hlt.
        assert (In (studiengang_row_of id student_id sg)
                   (old ++ [studiengang_row_of id student_id sg])) as Hnew
          by (apply in_or_app; right; left; reflexivity).
        specialize (Hmin _ Hnew). cbn in Hmin. lia. }
      cbn. rewrite studiengang_of_row_of. reflexivity.
  - intros other Hne. unfold get_latest_for_student.
    cbn [studiengang set_studiengang]. rewrite filter_app. cbn [filter].
    cbn [sg_student_id studiengang_row_of].
    replace (student_id =? other) with false
      by (symmetry; apply Z.eqb_neq; congruence).
    rewrite app_nil_r. reflexivity.
Qed.

(** X2. [StudiengangRepository.update] on the latest program of a student
    changes what [get_latest_for_student] returns to the new record, under
    the same id; on an id no program has it changes nothing. *)
Theorem studiengang_update_latest (db : DB) (studiengang_id : Z)
  (sg : Studiengang.t) :
  (forall student_id old,
      get_latest_for_student db student_id = Some (studiengang_id, old) ->
      get_latest_for_student
        (StudiengangRepository.update db studiengang_id sg) student_id
      = Some (studiengang_id, sg))
  /\ ((forall r, In r (studiengang db) ->
                 sg_studiengang_id r <> studiengang_id) ->
      StudiengangRepository.update db studiengang_id sg = db).
Proof.
  split.
  - intros student_id old. unfold get_latest_for_student, order_by_desc.
    unfold StudiengangRepository.update. cbn [studiengang set_studiengang].
    set (f := fun r => if sg_studiengang_id r =? studiengang_id
                       then studiengang_row_of (sg_studiengang_id r)
                                               (sg_student_id r) sg
                       else r).
    assert (forall x, sg_studiengang_id (f x) = sg_studiengang_id x) as Hid.
    { intros x. unfold f. destruct (_ =? _); reflexivity. }
    assert (forall x, sg_student_id (f x) = sg_student_id x) as Hst.
    { intros x. unfold f. destruct (_ =? _); reflexivity. }
    rewrite filter_map_commute by (intros x; rewrite Hst; reflexivity).
    rewrite order_by_asc_map by (intros x; rewrite Hid; reflexivity).
    destruct (order_by_asc _ _) as [|row t]; cbn; [discriminate|].
    intros [= Hrow _]. rewrite Hid, Hrow. unfold f. rewrite Hrow, Z.eqb_refl.
    rewrite studiengang_of_row_of. reflexivity.
  - intros Hno. unfold StudiengangRepository.update.
    rewrite map_unmatched.
    + destruct db; reflexivity.
    + intros r Hr. apply Z.eqb_neq. exact (Hno r Hr).
Qed.

(* --------------------------------------------------------------------- *)
(** ** ModulRepository *)

Lemma modul_of_row_of (id : Z) (m : Modul.t) :
  modul_of_row (modul_row_of id m) = catalogued_as id m.
Proof. reflexivity. Qed.

(** X3. A module saved by [ModulRepository.create] under a title the
    catalog does not have yet gets an id no module has; [get_by_id] with
    that id and [get_by_title] with that title both return the saved
    module, and every other id and every other title gives what it gave
    before. *)
Theorem modul_create_then_get (db : DB) (m : Modul.t) :
  (forall r, In r (modul db) -> m_titel r <> Modul.titel m) ->
  let db' := fst (ModulRepository.create db m) in
  exists id,
    snd (ModulRepository.create db m) = Ok id
    /\ ~ In id (map m_modul_id (modul db))
    /\ ModulRepository.get_by_id db' id = Some (catalogued_as id m)
    /\ ModulRepository.get_by_title db' (Modul.titel m)
       = Some (catalogued_as id m)
    /\ (forall id', id' <> id ->
                    ModulRepository.get_by_id db' id'
                    = ModulRepository.get_by_id db id')
    /\ (forall titel, titel <> Modul.titel m ->
                      ModulRepository.get_by_title db' titel
                      = ModulRepository.get_by_title db titel).
Proof.
  intros Hnew. cbv zeta. unfold ModulRepository.create. cbn [fst snd].
  set (id := new_rowid (map m_modul_id (modul db))).
  exists id. rewrite created_id_register. cbn [last_insert_rowid set_modul].
  split; [reflexivity|]. split; [apply new_rowid_fresh|].
  unfold ModulRepository.get_by_id, ModulRepository.get_by_title.
  cbn [modul set_modul].
  split; [|split; [|split]].
  - rewrite fetchone_filter_app, fetchone_filter_none.
    + cbn. rewrite Z.eqb_refl. reflexivity.
    + intros y Hy. apply Z.eqb_neq. intros E.
      apply (new_rowid_fresh (map m_modul_id (modul db))).
      fold id. rewrite <- E. apply in_map; exact Hy.
  - rewrite fetchone_filter_app, fetchone_filter_none.
    + cbn. rewrite String.eqb_refl. reflexivity.
    + intros y Hy. apply String.eqb_neq. exact (Hnew y Hy).
  - intros id' Hne. rewrite fetchone_filter_app. cbn.
    replace (id =? id') with false by (symmetry; apply Z.eqb_neq; congruence).
    destruct (fetchone _); reflexivity.
  - intros titel Hne. rewrite fetchone_filter_app. cbn.
    replace (String.eqb (Modul.titel m) titel) with false
      by (symmetry; apply String.eqb_neq; congruence).
    destruct (fetchone _); reflexivity.
Qed.

(** X4. After [update_by_id], [get_by_id] with the same id returns the new
    values under the old id when the catalog had a module with that id,
    and [None] when it had none; every other id gives what it gave
    before. *)
Theorem modul_update_then_get (db : DB) (modul_id : Z) (m : Modul.t) :
  let db' := ModulRepository.update_by_id db modul_id m in
  ((exists r, In r (modul db) /\ m_modul_id r = modul_id) ->
   ModulRepository.get_by_id db' modul_id = Some (catalogued_as modul_id m))
  /\ ((forall r, In r (modul db) -> m_modul_id r <> modul_id) ->
      ModulRepository.get_by_id db' modul_id = None /\ db' = db)
  /\ (forall id', id' <> modul_id ->
                  ModulRepository.get_by_id db' id'
                  = ModulRepository.get_by_id db id').
Proof.
  cbv zeta. unfold ModulRepository.update_by_id, ModulRepository.get_by_id.
  cbn [modul set_modul].
  set (f := fun r => if m_modul_id r =? modul_id
                     then modul_row_of (m_modul_id r) m else r).
  assert (forall x, m_modul_id (f x) = m_modul_id x) as Hid.
  { intros x. unfold f. destruct (_ =? _); reflexivity. }
  split; [|split].
  - intros [r [Hr Hk]].
    rewrite fetchone_filter_map by (intros x; rewrite Hid; reflexivity).
    destruct (fetchone (filter (fun r => m_modul_id r =? modul_id) (modul db)))
      as [r'|] eqn:E.
    + assert (m_modul_id r' = modul_id) as Hr'.
      { destruct (filter _ (modul db)) as [|x t] eqn:Ef; [discriminate|].
        injection E as <-.
        assert (In x (filter (fun r => m_modul_id r =? modul_id) (modul db)))
          as Hx by (rewrite Ef; left; reflexivity).
        apply filter_In in Hx. apply Z.eqb_eq. apply Hx. }
      cbn. unfold f. rewrite Hr', Z.eqb_refl. reflexivity.
    + exfalso.
      assert (In r (filter (fun r => m_modul_id r =? modul_id) (modul db)))
        as Hin by (apply filter_In; split; [exact Hr | apply Z.eqb_eq; exact Hk]).
      destruct (filter _ (modul db)); [exact Hin | discriminate].
  - intros Hno.
    assert (map f (modul db) = modul db) as ->.
    { apply map_unmatched. intros r Hr. apply Z.eqb_neq. exact (Hno r Hr). }
    split; [|destruct db; reflexivity].
    rewrite fetchone_filter_none; [reflexivity|].
    intros r Hr. apply Z.eqb_neq. exact (Hno r Hr).
  - intros id' Hne.
    rewrite fetchone_filter_map by (intros x; rewrite Hid; reflexivity).
    destruct (fetchone (filter (fun r => m_modul_id r =? id') (modul db)))
      as [r'|] eqn:E; [|reflexivity].
    assert (m_modul_id r' = id') as Hr'.
    { destruct (filter _ (modul db)) as [|x t] eqn:Ef; [discriminate|].
      injection E as <-.
      assert (In x (filter (fun r => m_modul_id r =? id') (modul db)))
        as Hx by (rewrite Ef; left; reflexivity).
      apply filter_In in Hx. apply Z.eqb_eq. apply Hx. }
    cbn. unfold f.
    replace (m_modul_id r' =? modul_id) with false
      by (symmetry; apply Z.eqb_neq; congruence).
    reflexivity.
Qed.

(** X5. [list_all] returns the modules of the catalog, each as often as the
    catalog has it, in ascending order of [modul_id]; with the primary key
    the ids ascend strictly. *)
Theorem list_all_sorted (db : DB) :
  Permutation (ModulRepository.list_all db) (modul db)
  /\ StronglySorted (key_le m_modul_id) (ModulRepository.list_all db)
  /\ (modul_pk db ->
      StronglySorted (fun a b => m_modul_id a < m_modul_id b)
                     (ModulRepository.list_all db)).
Proof.
  unfold ModulRepository.list_all.
  split; [apply order_by_asc_perm|].
  split; [apply order_by_asc_sorted|].
  intros Hpk. apply sorted_NoDup_strict; [apply order_by_asc_sorted|].
  apply (Permutation_NoDup (l := map m_modul_id (modul db))); [|exact Hpk].
  apply Permutation_map, Permutation_sym, order_by_asc_perm.
Qed.

(** X6. [get_total_ects] is the sum of the credit weights of the catalog,
    0 for an empty catalog, and a module saved by [create] adds its credit
    weight to it. *)
Theorem get_total_ects_sum (db : DB) (m : Modul.t) :
  ModulRepository.get_total_ects db
  = inject_Z (sum_Z (map m_ects (modul db)))
  /\ (modul db = [] -> ModulRepository.get_total_ects db = 0%Q)
  /\ ModulRepository.get_total_ects (fst (ModulRepository.create db m))
     = (ModulRepository.get_total_ects db + inject_Z (Modul.ects m))%Q.
Proof.
  assert (forall d, ModulRepository.get_total_ects d
                    = inject_Z (sum_Z (map m_ects (modul d)))) as H.
  { intros d. unfold ModulRepository.get_total_ects, float.
    rewrite <- sql_sum_total, map_map. reflexivity. }
  split; [apply H|]. split.
  - intros E. rewrite H, E. reflexivity.
  - rewrite !H. cbn [fst ModulRepository.create modul set_modul].
    rewrite map_app, sum_Z_app. cbn [map sum_Z fold_right m_ects modul_row_of].
    rewrite Z.add_0_r. apply inject_Z_plus.
Qed.

(* --------------------------------------------------------------------- *)
(** ** ModulBelegungRepository: create, get, update, delete *)

Lemma belegung_of_row_of (id : Z) (b : ModulBelegung.t) :
  belegung_of_row (belegung_row_of id b) = stored_as id b.
Proof. reflexivity. Qed.

Lemma fetchone_filter_In {A : Type} (p : A -> bool) (l : list A) (x : A) :
  fetchone (filter p l) = Some x -> In x l /\ p x = true.
Proof.
  intros E. apply filter_In.
  destruct (filter p l) as [|y t]; [discriminate|].
  injection E as ->. left; reflexivity.
Qed.

Lemma fetchone_filter_some {A : Type} (p : A -> bool) (l : list A) (x : A) :
  In x l -> p x = true -> exists y, fetchone (filter p l) = Some y.
Proof.
  intros Hx Hp.
  assert (In x (filter p l)) as H by (apply filter_In; auto).
  destruct (filter p l) as [|y t]; [contradiction|]. exists y. reflexivity.
Qed.

(** X7. An enrollment saved by [ModulBelegungRepository.create] gets an id
    no enrollment has; [get] with its program and that id returns the saved
    record, [get] with another program and that id returns [None], and
    [get] with any other id gives what it gave before. *)
Theorem belegung_create_then_get (db : DB) (b : ModulBelegung.t) :
  let db' := fst (ModulBelegungRepository.create db b) in
  exists id,
    snd (ModulBelegungRepository.create db b) = Ok id
    /\ ~ In id (map mb_belegung_id (modul_belegung db))
    /\ ModulBelegungRepository.get db' (ModulBelegung.studiengang_id b) id
       = Some (stored_as id b)
    /\ (forall sg, sg <> ModulBelegung.studiengang_id b ->
                   ModulBelegungRepository.get db' sg id = None)
    /\ (forall sg id', id' <> id ->
                       ModulBelegungRepository.get db' sg id'
                       = ModulBelegungRepository.get db sg id').
Proof.
  cbv zeta. unfold ModulBelegungRepository.create. cbn [fst snd].
  remember (new_rowid (map mb_belegung_id (modul_belegung db))) as id eqn:Eid.
  exists id. rewrite created_id_register. cbn [last_insert_rowid].
  split; [reflexivity|].
  split; [rewrite Eid; apply new_rowid_fresh|].
  unfold ModulBelegungRepository.get. cbn [modul_belegung].
  assert (forall sg, fetchone (filter (key_matches sg id) (modul_belegung db))
                     = None) as Hnone.
  { intros sg. apply fetchone_filter_none. intros y Hy.
    unfold key_matches. apply andb_false_intro2. apply Z.eqb_neq. intros E.
    apply (new_rowid_fresh (map mb_belegung_id (modul_belegung db))).
    rewrite <- Eid, <- E. apply in_map; exact Hy. }
  split; [|split].
  - rewrite fetchone_filter_app, Hnone. unfold key_matches. cbn.
    rewrite !Z.eqb_refl. reflexivity.
  - intros sg Hne. rewrite fetchone_filter_app, Hnone. unfold key_matches. cbn.
    replace (ModulBelegung.studiengang_id b =? sg) with false
      by (symmetry; apply Z.eqb_neq; congruence).
    reflexivity.
  - intros sg id' Hne. rewrite fetchone_filter_app. unfold key_matches at 2.
    cbn. replace (id =? id') with false
      by (symmetry; apply Z.eqb_neq; congruence).
    rewrite andb_false_r. destruct (fetchone _); reflexivity.
Qed.

(** X8. [update] of an enrollment whose key is stored returns normally;
    afterwards [get] with that key returns the new record, [get] with any
    other key gives what it gave before, and the table has as many rows
    as before. *)
Theorem belegung_update_then_get (db : DB) (b : ModulBelegung.t) (id : Z) :
  ModulBelegung.belegung_id b = Some id ->
  (exists r, In r (modul_belegung db)
             /\ has_key (ModulBelegung.studiengang_id b) id r) ->
  exists db',
    update db b = Ok db'
    /\ ModulBelegungRepository.get db' (ModulBelegung.studiengang_id b) id
       = Some (stored_as id b)
    /\ (forall sg id',
           (sg, id') <> (ModulBelegung.studiengang_id b, id) ->
           ModulBelegungRepository.get db' sg id'
           = ModulBelegungRepository.get db sg id')
    /\ List.length (modul_belegung db') = List.length (modul_belegung db).
Proof.
  intros Hid [r [Hr Hk]]. unfold update. rewrite Hid.
  eexists. split; [reflexivity|].
  unfold ModulBelegungRepository.get. cbn [modul_belegung set_modul_belegung].
  set (f := fun r => if key_matches (ModulBelegung.studiengang_id b) id r
                     then update_set b r else r).
  assert (forall sg i x, key_matches sg i (f x) = key_matches sg i x) as Hkey.
  { intros sg i x. unfold f.
    destruct (key_matches (ModulBelegung.studiengang_id b) id x); reflexivity. }
  split; [|split].
  - rewrite fetchone_filter_map by apply Hkey.
    apply key_matches_has_key in Hk.
    destruct (fetchone_filter_some _ _ _ Hr Hk) as [y Hy]. rewrite Hy.
    apply fetchone_filter_In in Hy. destruct Hy as [_ Hy].
    cbn. unfold f. rewrite Hy.
    apply key_matches_has_key in Hy. destruct Hy as [Hsg Hi].
    unfold belegung_of_row, update_set, stored_as. cbn.
    rewrite Hsg, Hi. reflexivity.
  - intros sg id' Hne. rewrite fetchone_filter_map by apply Hkey.
    destruct (fetchone (filter (key_matches sg id') (modul_belegung db)))
      as [y|] eqn:Ey; [|reflexivity].
    apply fetchone_filter_In in Ey. destruct Ey as [_ Hy].
    apply key_matches_has_key in Hy. destruct Hy as [Hsg Hi].
    cbn. unfold f.
    replace (key_matches (ModulBelegung.studiengang_id b) id y) with false;
      [reflexivity|].
    symmetry. apply not_true_is_false. intros Hm.
    apply key_matches_has_key in Hm. destruct Hm as [Hsg' Hi'].
    apply Hne. congruence.
  - apply length_map.
Qed.

Lemma filter_filter_implied {A : Type} (p q : A -> bool) (l : list A) :
  (forall x, p x = true -> q x = true) ->
  filter p (filter q l) = filter p l.
Proof.
  intros H. induction l as [|x l IH]; cbn; [reflexivity|].
  destruct (q x) eqn:Eq; cbn.
  - rewrite IH. reflexivity.
  - destruct (p x) eqn:Ep; [|exact IH].
    rewrite (H x Ep) in Eq. discriminate.
Qed.

(** X9. [delete] returns normally; afterwards [get] with the deleted key
    returns [None], [get] with any other key gives what it gave before, and
    deleting the same key again changes nothing. *)
Theorem belegung_delete_then_get (db : DB) (studiengang_id belegung_id : Z) :
  exists db',
    delete db studiengang_id belegung_id = Ok db'
    /\ ModulBelegungRepository.get db' studiengang_id belegung_id = None
    /\ (forall sg id',
           (sg, id') <> (studiengang_id, belegung_id) ->
           ModulBelegungRepository.get db' sg id'
           = ModulBelegungRepository.get db sg id')
    /\ delete db' studiengang_id belegung_id = Ok db'.
Proof.
  unfold delete. eexists. split; [reflexivity|].
  unfold ModulBelegungRepository.get. cbn [modul_belegung set_modul_belegung].
  split; [|split].
  - rewrite fetchone_filter_none; [reflexivity|].
    intros y Hy. apply filter_In in Hy. destruct Hy as [_ Hy].
    apply negb_true_iff. exact Hy.
  - intros sg id' Hne.
    rewrite filter_filter_implied; [reflexivity|].
    intros r Hm. apply negb_true_iff. apply not_true_is_false. intros Ek.
    apply key_matches_has_key in Hm, Ek.
    destruct Hm as [A B], Ek as [C D]. apply Hne. congruence.
  - f_equal. unfold set_modul_belegung. cbn. f_equal.
    induction (modul_belegung db) as [|r l IH]; cbn; [reflexivity|].
    destruct (key_matches studiengang_id belegung_id r) eqn:Ek; cbn;
      [exact IH|]. rewrite Ek. cbn. f_equal. exact IH.
Qed.

(* --------------------------------------------------------------------- *)
(** ** Invariants the writing methods keep *)

Lemma NoDup_app_fresh (ids : list Z) : NoDup ids -> NoDup (ids ++ [new_rowid ids]).
Proof.
  intros H. apply NoDup_rev in H. rewrite <- (rev_involutive (ids ++ _)).
  apply NoDup_rev. rewrite rev_app_distr. cbn. constructor; [|exact H].
  rewrite <- in_rev. apply new_rowid_fresh.
Qed.

Lemma map_key_preserved {A : Type} (key : A -> Z) (f : A -> A) (l : list A) :
  (forall x, key (f x) = key x) -> map key (map f l) = map key l.
Proof.
  intros H. rewrite map_map. apply map_ext. exact H.
Qed.

Lemma NoDup_filter_map {A : Type} (key : A -> Z) (p : A -> bool)
  (l : list A) :
  NoDup (map key l) -> NoDup (map key (filter p l)).
Proof.
  induction l as [|x l IH]; cbn; intros H; [constructor|].
  inversion H as [|? ? Hx Hl]; subst.
  destruct (p x); cbn; [|exact (IH Hl)].
  constructor; [|exact (IH Hl)].
  intros Hin. apply Hx. apply in_map_iff in Hin.
  destruct Hin as [y [Hy Hin]]. apply filter_In in Hin.
  rewrite <- Hy. apply in_map. apply Hin.
Qed.

(** X10. The writing methods keep the primary keys: after [create],
    [update] or [delete] of an enrollment no two enrollments share a
    [belegung_id]; after [create] or [update_by_id] of a module no two
    modules share a [modul_id]; after [create] or [update] of a degree
    program no two programs share a [studiengang_id]. *)
Theorem writes_keep_primary_keys (db : DB) :
  (belegung_pk db ->
   (forall b, belegung_pk (fst (ModulBelegungRepository.create db b)))
   /\ (forall b db', update db b = Ok db' -> belegung_pk db')
   /\ (forall sg id db', delete db sg id = Ok db' -> belegung_pk db'))
  /\ (modul_pk db ->
      (forall m, modul_pk (fst (ModulRepository.create db m)))
      /\ (forall id m, modul_pk (ModulRepository.update_by_id db id m)))
  /\ (studiengang_pk db ->
      (forall student_id sg,
          studiengang_pk (fst (StudiengangRepository.create db student_id sg)))
      /\ (forall id sg, studiengang_pk (StudiengangRepository.update db id sg))).
Proof.
  split; [|split].
  - intros Hpk. split; [|split].
    + intros b. unfold belegung_pk. cbn. rewrite map_app. cbn.
      apply NoDup_app_fresh. exact Hpk.
    + intros b db'. unfold update.
      destruct (ModulBelegung.belegung_id b) as [id|]; [|discriminate].
      intros [= <-]. unfold belegung_pk. cbn.
      rewrite map_key_preserved; [exact Hpk|].
      intros x. destruct (key_matches _ id x); reflexivity.
    + intros sg id db'. unfold delete. intros [= <-].
      unfold belegung_pk. cbn. apply NoDup_filter_map. exact Hpk.
  - intros Hpk. split.
    + intros m. unfold modul_pk. cbn. rewrite map_app. cbn.
      apply NoDup_app_fresh. exact Hpk.
    + intros id m. unfold modul_pk. cbn.
      rewrite map_key_preserved; [exact Hpk|].
      intros x. destruct (m_modul_id x =? id); reflexivity.
  - intros Hpk. split.
    + intros student_id sg. unfold studiengang_pk. cbn. rewrite map_app. cbn.
      apply NoDup_app_fresh. exact Hpk.
    + intros id sg. unfold studiengang_pk. cbn.
      rewrite map_key_preserved; [exact Hpk|].
      intros x. destruct (sg_studiengang_id x =? id); reflexivity.
Qed.

(** X11. [upsert] keeps the student table well formed: if no two students
    share a [student_id] and no two share a [matrikelnummer], the same
    holds after the call, on the insert path and on the update path. *)
Theorem upsert_keeps_students_unique (db : DB) (s : Student.t) :
  student_unique db -> student_unique (fst (upsert db s)).
Proof.
  intros [Hid Hmat]. rewrite upsert_state. unfold student_unique.
  destruct (existsb (in_conflict s) (student db)) eqn:E.
  - rewrite (insert_student_with_conflict db s E). cbn [fst student].
    rewrite !map_map.
    rewrite (map_ext _ st_student_id)
      by (intros x; destruct (in_conflict s x); reflexivity).
    rewrite (map_ext (fun x => st_matrikelnummer _) st_matrikelnummer)
      by (intros x; destruct (in_conflict s x); reflexivity).
    split; assumption.
  - rewrite (insert_student_without_conflict db s E). cbn [fst student].
    rewrite !map_app. cbn. split.
    + apply NoDup_app_fresh. exact Hid.
    + apply NoDup_rev in Hmat.
      rewrite <- (rev_involutive (map st_matrikelnummer _ ++ _)).
      apply NoDup_rev. rewrite rev_app_distr. cbn.
      constructor; [|exact Hmat].
      rewrite <- in_rev. intros Hin. apply in_map_iff in Hin.
      destruct Hin as [r [Hr Hin]].
      assert (existsb (in_conflict s) (student db) = true) as Ht.
      { apply existsb_exists. exists r. split; [exact Hin|].
        apply in_conflict_iff. exact Hr. }
      congruence.
Qed.

(* --------------------------------------------------------------------- *)
(** ** ModulBelegungRepository.list_latest *)

Lemma StronglySorted_map {A B : Type} (R : B -> B -> Prop) (f : A -> B)
  (l : list A) :
  StronglySorted (fun a b => R (f a) (f b)) l -> StronglySorted R (map f l).
Proof.
  induction 1 as [|x l Hs IH Hx]; cbn; constructor; [exact IH|].
  rewrite Forall_forall in Hx |- *. intros y Hy.
  apply in_map_iff in Hy. destruct Hy as [a [<- Ha]]. exact (Hx a Ha).
Qed.

Lemma belegung_join_modul_In (db : DB) (sg : Z) (cond : belegung_row -> bool)
  (mb : belegung_row) (m : modul_row) :
  In (mb, m) (belegung_join_modul db sg cond)
  <-> In mb (modul_belegung db) /\ mb_studiengang_id mb = sg
      /\ cond mb = true
      /\ In m (modul db) /\ m_modul_id m = mb_modul_id mb.
Proof.
  unfold belegung_join_modul. rewrite filter_In, sql_join_In. cbn.
  rewrite andb_true_iff, !Z.eqb_eq. tauto.
Qed.



(* --------------------------------------------------------------------- *)
(** ** ModulBelegungRepository.last_completion_date *)

Lemma date_compare_Lt (a b : date) : date_compare a b = Lt <-> earlier a b.
Proof.
  unfold date_compare, earlier.
  destruct (Z.compare_spec (year a) (year b));
    destruct (Z.compare_spec (month a) (month b));
    destruct (Z.compare_spec (day a) (day b));
    split; intros; try discriminate; try reflexivity; lia.
Qed.

Lemma sql_max_date_latest (l : list date) (m : date) :
  sql_max_date l = Some m ->
  In m l /\ forall x, In x l -> ~ earlier m x.
Proof.
  revert m. induction l as [|v l IH]; cbn; [discriminate|].
  intros m. destruct (sql_max_date l) as [m'|] eqn:E.
  - destruct (IH m' eq_refl) as [Hin Hmax].
    destruct (date_compare v m') eqn:Ec; intros [= <-].
    + assert (~ earlier v m') as Hn
        by (intros He; apply date_compare_Lt in He; congruence).
      split; [left; reflexivity|]. intros x [<- | Hx].
      * unfold earlier; lia.
      * specialize (Hmax x Hx). unfold earlier in *. 
        assert (~ earlier m' v) as Hn'.
        { intros He. unfold date_compare in Ec. unfold earlier in He.
          destruct (Z.compare_spec (year v) (year m'));
            destruct (Z.compare_spec (month v) (month m'));
            destruct (Z.compare_spec (day v) (day m'));
            try discriminate; lia. }
        unfold earlier in Hn, Hn'. lia.
    + apply date_compare_Lt in Ec.
      split; [right; exact Hin|]. intros x [<- | Hx].
      * unfold earlier in *. lia.
      * exact (Hmax x Hx).
    + assert (~ earlier v m') as Hn
        by (intros He; apply date_compare_Lt in He; congruence).
      split; [left; reflexivity|]. intros x [<- | Hx].
      * unfold earlier; lia.
      * specialize (Hmax x Hx). unfold earlier in *. lia.
  - intros [= <-]. destruct l as [|z l];
      [|cbn in E; destruct (sql_max_date l); discriminate].
    split; [left; reflexivity|]. intros x [<- | []]. unfold earlier; lia.
Qed.

Lemma completed_dates_In (db : DB) (sg : Z) (d : date) :
  In d (flat_map
          (fun mb =>
             match mb_ist_bestanden_am mb with
             | Some d => [d]
             | None => []
             end)
          (filter (fun mb => (mb_studiengang_id mb =? sg)
                             && is_not_null (mb_ist_bestanden_am mb))
                  (modul_belegung db)))
  <-> exists mb, In mb (completed_enrollments db sg)
                 /\ mb_ist_bestanden_am mb = Some d.
Proof.
  unfold completed_enrollments, enrollments_of. rewrite in_flat_map. split.
  - intros [mb [Hmb Hd]]. exists mb. apply filter_In in Hmb.
    destruct Hmb as [Hmb Hc]. apply andb_prop in Hc. destruct Hc as [Hs Hn].
    destruct (mb_ist_bestanden_am mb) as [d'|] eqn:E; [|contradiction].
    destruct Hd as [<- | []]. split; [|reflexivity].
    apply filter_In. split; [|rewrite E; reflexivity].
    apply filter_In. auto.
  - intros [mb [Hmb Hd]]. exists mb. apply filter_In in Hmb.
    destruct Hmb as [Hmb Hn]. apply filter_In in Hmb. destruct Hmb as [Hmb Hs].
    split; [|rewrite Hd; left; reflexivity].
    apply filter_In. split; [exact Hmb|]. rewrite Hs, Hn. reflexivity.
Qed.

(** X13. [last_completion_date] returns [None] exactly when the program has
    no enrollment with an actual-completion date; otherwise it returns the
    completion date of one of them, and none of them was completed on a
    later day. *)
Theorem last_completion_date_latest (db : DB) (studiengang_id : Z) :
  (ModulBelegungRepository.last_completion_date db studiengang_id = None
   <-> completed_enrollments db studiengang_id = [])
  /\ (forall d,
         ModulBelegungRepository.last_completion_date db studiengang_id
         = Some d ->
         (exists mb, In mb (completed_enrollments db studiengang_id)
                     /\ mb_ist_bestanden_am mb = Some d)
         /\ forall mb d',
              In mb (completed_enrollments db studiengang_id) ->
              mb_ist_bestanden_am mb = Some d' -> ~ earlier d d').
Proof.
  unfold ModulBelegungRepository.last_completion_date.
  pose proof (completed_dates_In db studiengang_id) as Hin.
  set (dates := flat_map _ _) in *.
  split.
  - split.
    + intros E.
      assert (forall mb, ~ In mb (completed_enrollments db studiengang_id))
        as Hno.
      { intros mb Hmb.
        assert (exists d, mb_ist_bestanden_am mb = Some d) as [d Hd].
        { unfold completed_enrollments in Hmb. apply filter_In in Hmb.
          destruct Hmb as [_ Hn].
          destruct (mb_ist_bestanden_am mb); [eauto | discriminate]. }
        assert (In d dates) as Hd' by (apply Hin; exists mb; auto).
        destruct dates as [|x l]; [contradiction|].
        cbn in E. destruct (sql_max_date l); discriminate. }
      destruct (completed_enrollments db studiengang_id) as [|mb t];
        [reflexivity|].
      exfalso. apply (Hno mb). left; reflexivity.
    + intros Ec.
      assert (forall x, ~ In x dates) as Hno.
      { intros x Hx. apply Hin in Hx. destruct Hx as [mb [Hmb _]].
        rewrite Ec in Hmb. exact Hmb. }
      destruct dates as [|x l]; [reflexivity|].
      exfalso. apply (Hno x). left; reflexivity.
  - intros d E. apply sql_max_date_latest in E. destruct E as [Hd Hmax].
    split; [apply Hin; exact Hd|].
    intros mb d' Hmb Hd'. apply Hmax. apply Hin. eauto.
Qed.

(* --------------------------------------------------------------------- *)
(** ** ModulBelegungRepository.plot_completions *)

Section OrderByComparison.
Context {A : Type} (cmp : A -> A -> comparison).
Hypothesis cmp_total : forall x y, cmp x y <> Lt -> cmp y x <> Gt.
Hypothesis cmp_trans :
  forall x y z, cmp x y <> Gt -> cmp y z <> Gt -> cmp x z <> Gt.

Lemma insert_by_perm (x : A) (l : list A) :
  Permutation (insert_by cmp x l) (x :: l).
Proof.
  induction l as [|y l IH]; cbn; [apply Permutation_refl|].
  destruct (cmp x y); try apply Permutation_refl;
    (eapply perm_trans; [apply perm_skip, IH | apply perm_swap]).
Qed.

Lemma order_by_perm (l : list A) : Permutation (order_by cmp l) l.
Proof.
  induction l as [|x l IH]; cbn; [apply perm_nil|].
  eapply perm_trans; [apply insert_by_perm | apply perm_skip, IH].
Qed.

Lemma insert_by_sorted (x : A) (l : list A) :
  StronglySorted (fun a b => cmp a b <> Gt) l ->
  StronglySorted (fun a b => cmp a b <> Gt) (insert_by cmp x l).
Proof.
  induction 1 as [|y l Hs IH Hy]; cbn.
  - constructor; constructor.
  - assert (cmp x y <> Lt ->
            StronglySorted (fun a b => cmp a b <> Gt)
                           (y :: insert_by cmp x l)) as Hafter.
    { intros Hn. constructor; [exact IH|].
      rewrite Forall_forall in Hy |- *. intros z Hz.
      apply (Permutation_in _ (insert_by_perm x l)) in Hz.
      destruct Hz as [<- | Hz]; [apply cmp_total; exact Hn | exact (Hy z Hz)]. }
    destruct (cmp x y) eqn:E.
    + apply Hafter. congruence.
    + constructor; [constructor; assumption|].
      constructor; [congruence|].
      rewrite Forall_forall in Hy |- *. intros z Hz.
      apply (cmp_trans x y z); [congruence | exact (Hy z Hz)].
    + apply Hafter. congruence.
Qed.

Lemma order_by_sorted (l : list A) :
  StronglySorted (fun a b => cmp a b <> Gt) (order_by cmp l).
Proof.
  induction l as [|x l IH]; cbn; [constructor|].
  apply insert_by_sorted, IH.
Qed.
End OrderByComparison.

(** The order of [plot_completions] in arithmetic: a row without a date
    before every row with one, then by date, then by [belegung_id]. *)
Lemma completion_le_spec (r r' : belegung_row * modul_row) :
  completion_le r r'
  <-> match mb_ist_bestanden_am (fst r), mb_ist_bestanden_am (fst r') with
      | None, None => mb_belegung_id (fst r) <= mb_belegung_id (fst r')
      | None, Some _ => True
      | Some _, None => False
      | Some d, Some d' =>
          earlier d d'
          \/ (year d = year d' /\ month d = month d' /\ day d = day d'
              /\ mb_belegung_id (fst r) <= mb_belegung_id (fst r'))
      end.
Proof.
  unfold completion_le, completion_order.
  destruct (mb_ist_bestanden_am (fst r)) as [d|],
           (mb_ist_bestanden_am (fst r')) as [d'|].
  - unfold date_compare, earlier.
    destruct (Z.compare_spec (year d) (year d'));
      destruct (Z.compare_spec (month d) (month d'));
      destruct (Z.compare_spec (day d) (day d'));
      destruct (Z.compare_spec (mb_belegung_id (fst r))
                               (mb_belegung_id (fst r')));
      split; intros; try congruence; try lia.
  - split; [intros H; apply H; reflexivity | contradiction].
  - split; [intros _; exact I | intros _; discriminate].
  - destruct (Z.compare_spec (mb_belegung_id (fst r))
                             (mb_belegung_id (fst r')));
      split; intros; try congruence; try lia.
Qed.

Lemma completion_order_total (r r' : belegung_row * modul_row) :
  completion_order r r' <> Lt -> completion_order r' r <> Gt.
Proof.
  intros H. apply completion_le_spec.
  unfold completion_order in H.
  destruct (mb_ist_bestanden_am (fst r)) as [d|],
           (mb_ist_bestanden_am (fst r')) as [d'|];
    try exact I; try (exfalso; apply H; reflexivity).
  - unfold date_compare, earlier in *.
    destruct (Z.compare_spec (year d) (year d'));
      destruct (Z.compare_spec (month d) (month d'));
      destruct (Z.compare_spec (day d) (day d'));
      destruct (Z.compare_spec (mb_belegung_id (fst r))
                               (mb_belegung_id (fst r')));
      try (exfalso; apply H; reflexivity); lia.
  - destruct (Z.compare_spec (mb_belegung_id (fst r))
                             (mb_belegung_id (fst r')));
      try (exfalso; apply H; reflexivity); lia.
Qed.

Lemma completion_order_trans (x y z : belegung_row * modul_row) :
  completion_order x y <> Gt -> completion_order y z <> Gt ->
  completion_order x z <> Gt.
Proof.
  intros H1 H2. apply completion_le_spec in H1, H2. apply completion_le_spec.
  destruct (mb_ist_bestanden_am (fst x)) as [dx|],
           (mb_ist_bestanden_am (fst y)) as [dy|],
           (mb_ist_bestanden_am (fst z)) as [dz|];
    try exact I; try contradiction; unfold earlier in *; lia.
Qed.

Lemma sum_Z_perm (l l' : list Z) : Permutation l l' -> sum_Z l = sum_Z l'.
Proof.
  induction 1 as [|x l l' _ IH|x y l|l l' l'' _ IH1 _ IH2].
  - reflexivity.
  - change (x + sum_Z l = x + sum_Z l'). rewrite IH. reflexivity.
  - change (y + (x + sum_Z l) = x + (y + sum_Z l)). lia.
  - congruence.
Qed.

Lemma joined_completed (db : DB) (sg : Z) :
  modul_pk db ->
  belegung_join_modul db sg (fun mb => is_not_null (mb_ist_bestanden_am mb))
  = completed_with_module db sg.
Proof.
  intros Hpk. rewrite belegung_join_modul_lookup by exact Hpk.
  unfold completed_with_module, completed_enrollments, enrollments_of.
  induction (modul_belegung db) as [|mb l IH]; cbn; [reflexivity|].
  rewrite IH. destruct (mb_studiengang_id mb =? sg); cbn; [|reflexivity].
  destruct (is_not_null (mb_ist_bestanden_am mb)); reflexivity.
Qed.

Lemma completion_le_before (r r' : belegung_row * modul_row) :
  completion_le r r' -> completion_before r r'.
Proof.
  intros H d d' Hd Hd'. apply completion_le_spec in H.
  rewrite Hd, Hd' in H. destruct H as [H | [Hy [Hm [Hday Hid]]]].
  - left. exact H.
  - right. split; [|exact Hid].
    destruct d, d'. cbn in *. subst. reflexivity.
Qed.

Lemma StronglySorted_weaken {A : Type} (R R' : A -> A -> Prop) (l : list A) :
  (forall a b, R a b -> R' a b) ->
  StronglySorted R l -> StronglySorted R' l.
Proof.
  intros Himp. induction 1 as [|x l Hs IH Hx]; constructor; [exact IH|].
  rewrite Forall_forall in Hx |- *. intros y Hy. apply Himp, Hx, Hy.
Qed.

(** X14. [plot_completions] has a row exactly for every completed
    enrollment of the program and catalog entry of its module, with the
    date and grade of the enrollment and the credit weight of the module.
    With the catalog's primary key the rows are, one for one, the
    completed enrollments that have a catalog entry, ordered by completion
    date and, on the same day, by ascending [belegung_id].  Every row has
    a date, and the dates never go back. *)
Theorem plot_completions_chronological (db : DB) (studiengang_id : Z) :
  let rows := ModulBelegungRepository.plot_completions db studiengang_id in
  (forall c,
      In c rows
      <-> exists mb m,
            In mb (modul_belegung db)
            /\ mb_studiengang_id mb = studiengang_id
            /\ (exists d, mb_ist_bestanden_am mb = Some d)
            /\ In m (modul db) /\ m_modul_id m = mb_modul_id mb
            /\ c_ist_bestanden_am c = mb_ist_bestanden_am mb
            /\ c_ects c = m_ects m
            /\ c_ist_note c = mb_ist_note mb)
  /\ (modul_pk db ->
      exists src,
        Permutation src (completed_with_module db studiengang_id)
        /\ StronglySorted completion_before src
        /\ rows = map completion_of src)
  /\ (forall c, In c rows -> exists d, c_ist_bestanden_am c = Some d)
  /\ chronological rows.
Proof.
  cbv zeta. unfold ModulBelegungRepository.plot_completions.
  set (joined := belegung_join_modul _ _ _).
  pose proof (order_by_perm completion_order joined) as Hperm.
  pose proof (order_by_sorted completion_order completion_order_total
                completion_order_trans joined) as Hsorted.
  assert (forall mb,
             is_not_null (mb_ist_bestanden_am mb) = true
             <-> exists d, mb_ist_bestanden_am mb = Some d) as Hnn.
  { intros mb. destruct (mb_ist_bestanden_am mb) as [d|]; cbn; split.
    - eauto.
    - reflexivity.
    - discriminate.
    - intros [d Hd]. discriminate. }
  split; [|split; [|split]].
  - intros c. rewrite in_map_iff. split.
    + intros [[mb m] [<- Hin]]. apply (Permutation_in _ Hperm) in Hin.
      apply belegung_join_modul_In in Hin.
      destruct Hin as [H1 [H2 [H3 [H4 H5]]]]. apply Hnn in H3.
      exists mb, m. cbn. tauto.
    + intros [mb [m [H1 [H2 [H3 [H4 [H5 [H6 [H7 H8]]]]]]]]].
      exists (mb, m). split.
      * destruct c. cbn in *. subst. reflexivity.
      * apply (Permutation_in _ (Permutation_sym Hperm)).
        apply belegung_join_modul_In. apply Hnn in H3. tauto.
  - intros Hpk. exists (order_by completion_order joined).
    split; [|split].
    + unfold joined in Hperm |- *.
      rewrite (joined_completed db studiengang_id Hpk) in Hperm at 2.
      exact Hperm.
    + apply (StronglySorted_weaken completion_le);
        [exact completion_le_before | exact Hsorted].
    + reflexivity.
  - intros c Hc. apply in_map_iff in Hc. destruct Hc as [[mb m] [<- Hin]].
    apply (Permutation_in _ Hperm) in Hin.
    apply belegung_join_modul_In in Hin. destruct Hin as [_ [_ [Hn _]]].
    cbn. destruct (mb_ist_bestanden_am mb); [eauto | discriminate].
  - unfold chronological. apply StronglySorted_map. clear Hperm.
    induction Hsorted as [|x l Hs IH Hx]; [constructor|].
    constructor; [exact IH|].
    rewrite Forall_forall in Hx |- *. intros y Hy d d' Hd Hd'.
    specialize (Hx y Hy). apply completion_le_spec in Hx.
    cbn in Hd, Hd'. rewrite Hd, Hd' in Hx. unfold earlier in *. lia.
Qed.

(** X15. The credit weights of the rows of [plot_completions] add up to
    [sum_ects_completed]: the cumulative series of the chart ends at the
    KPI. *)
Theorem plot_completions_total (db : DB) (studiengang_id : Z) :
  inject_Z
    (sum_Z (map c_ects
              (ModulBelegungRepository.plot_completions db studiengang_id)))
  = sum_ects_completed db studiengang_id.
Proof.
  rewrite sum_ects_completed_total.
  unfold ModulBelegungRepository.plot_completions. rewrite map_map. cbn.
  f_equal. apply sum_Z_perm. apply Permutation_map. apply order_by_perm.
Qed.

(* --------------------------------------------------------------------- *)
(** ** A new enrollment in the KPI and plot queries *)

Lemma sql_max_of_greatest (l : list Z) (m : Z) :
  In m l -> (forall x, In x l -> x <= m) -> sql_max l = Some m.
Proof.
  intros Hin Hle. destruct (sql_max_some l m Hin) as [m' Hm'].
  destruct (sql_max_attained l m' Hm') as [Hin' Hle'].
  specialize (Hle m' Hin'). specialize (Hle' m Hin).
  rewrite Hm'. f_equal. lia.
Qed.

(** The rows of [plot_latest_per_module] ascend strictly in module id. *)
Lemma plot_rows_ascending (db : DB) (sg : Z) :
  belegung_pk db -> modul_pk db ->
  ascending_modul_id (plot_latest_per_module db sg).
Proof.
  intros Hbpk Hmpk. unfold plot_latest_per_module.
  apply select_plot_sorted.
  - apply sorted_NoDup_strict; [apply order_by_asc_sorted|].
    eapply Permutation_NoDup;
      [|apply (plot_joined_keys_NoDup db sg Hbpk Hmpk)].
    apply Permutation_map, Permutation_sym, order_by_asc_perm.
  - intros [[l mb] m] Hr. apply order_by_asc_In, plot_joined_In in Hr.
    cbn. apply Hr.
Qed.

Lemma ascending_modul_id_unique (rows : list plot_row) (r r' : plot_row) :
  ascending_modul_id rows -> In r rows -> In r' rows ->
  p_modul_id r = p_modul_id r' -> r = r'.
Proof.
  unfold ascending_modul_id. induction 1 as [|x l Hs IH Hx]; [contradiction|].
  rewrite Forall_forall in Hx.
  intros [<- | Hr] [<- | Hr'] E.
  - reflexivity.
  - specialize (Hx _ Hr'). lia.
  - specialize (Hx _ Hr). lia.
  - exact (IH Hr Hr' E).
Qed.

(** X16. After [create] of an enrollment whose module is in the catalog,
    [plot_latest_per_module] for its program has a row with the module id,
    grades and dates of the new enrollment and the title and credit weight
    of its module; with the primary keys the module has no second row, and
    its row shows the new enrollment: the new attempt replaces the earlier
    ones. *)
Theorem create_then_plot_latest (db : DB) (b : ModulBelegung.t)
  (m : modul_row) :
  In m (modul db) -> m_modul_id m = ModulBelegung.modul_id b ->
  let db' := fst (ModulBelegungRepository.create db b) in
  let rows := plot_latest_per_module db' (ModulBelegung.studiengang_id b) in
  (exists r, In r rows /\ shows_attempt r b m)
  /\ (belegung_pk db -> modul_pk db ->
      (forall r, In r rows -> p_modul_id r = ModulBelegung.modul_id b ->
                 shows_attempt r b m)
      /\ (forall r r', In r rows -> In r' rows ->
                       p_modul_id r = p_modul_id r' -> r = r')).
Proof.
  intros Hm Hk. cbv zeta.
  remember (new_rowid (map mb_belegung_id (modul_belegung db))) as id eqn:Eid.
  set (sg := ModulBelegung.studiengang_id b).
  set (new := belegung_row_of id b).
  set (db' := fst (ModulBelegungRepository.create db b)).
  assert (modul_belegung db' = modul_belegung db ++ [new]) as Hmb
    by (unfold db', new; cbn; rewrite <- Eid; reflexivity).
  assert (modul db' = modul db) as Hmod by reflexivity.
  assert (In new (enrollments_of db' sg)) as Hnew.
  { apply enrollments_of_In. split; [|reflexivity].
    rewrite Hmb. apply in_or_app. right. left. reflexivity. }
  assert (forall c, In c (modul_belegung db') -> mb_belegung_id c <= id)
    as Hmax.
  { intros c Hc. rewrite Hmb in Hc. apply in_app_or in Hc.
    destruct Hc as [Hc | [<- | []]]; [|cbn; lia].
    pose proof (new_rowid_above _ _ (in_map mb_belegung_id _ _ Hc)). lia. }
  assert (In (select_plot new m)
             (plot_latest_per_module db' sg)) as Hin.
  { unfold plot_latest_per_module. apply in_map_iff.
    exists ({| last_id := Some id; l_modul_id := mb_modul_id new |}, new, m).
    split; [reflexivity|]. apply order_by_asc_In. apply plot_joined_In.
    split; [|split; [|split; [|split]]].
    - apply latest_In. exists new. split; [exact Hnew|]. f_equal.
      symmetry. apply sql_max_of_greatest.
      + apply (in_map mb_belegung_id _ new). apply filter_In.
        split; [exact Hnew | apply Z.eqb_refl].
      + intros x Hx. apply in_map_iff in Hx. destruct Hx as [c [<- Hc]].
        apply filter_In in Hc. destruct Hc as [Hc _].
        apply enrollments_of_In in Hc. apply Hmax. apply Hc.
    - rewrite Hmb. apply in_or_app. right. left. reflexivity.
    - cbn. apply Z.eqb_refl.
    - rewrite Hmod. exact Hm.
    - exact Hk. }
  assert (shows_attempt (select_plot new m) b m) as Hshows
    by (unfold shows_attempt, new; cbn; tauto).
  split; [exists (select_plot new m); split; [exact Hin | exact Hshows]|].
  intros Hbpk Hmpk.
  assert (ascending_modul_id (plot_latest_per_module db' sg)) as Hasc.
  { apply plot_rows_ascending.
    - unfold belegung_pk. rewrite Hmb, map_app. cbn. rewrite Eid.
      apply NoDup_app_fresh. exact Hbpk.
    - exact Hmpk. }
  split.
  - intros r Hr Hrk.
    assert (r = select_plot new m) as ->; [|exact Hshows].
    apply (ascending_modul_id_unique (plot_latest_per_module db' sg));
      [exact Hasc | exact Hr | exact Hin | rewrite Hrk; reflexivity].
  - intros r r' Hr Hr' E.
    exact (ascending_modul_id_unique _ r r' Hasc Hr Hr' E).
Qed.

(** X17. With the catalog's primary key, [create] of an enrollment raises
    [sum_ects_completed] of its program by the credit weight of its module
    when the enrollment has an actual-completion date, and leaves it as it
    is otherwise; the sums of the other programs stay. *)
Theorem create_then_sum_ects (db : DB) (b : ModulBelegung.t) (sg : Z) :
  modul_pk db ->
  let db' := fst (ModulBelegungRepository.create db b) in
  let new :=
    belegung_row_of (new_rowid (map mb_belegung_id (modul_belegung db))) b in
  sum_ects_completed db' sg
  = (sum_ects_completed db sg
     + inject_Z
         (if (ModulBelegung.studiengang_id b =? sg)
             && is_not_null (ModulBelegung.ist_bestanden_am b)
          then credit_weight db new else 0))%Q.
Proof.
  intros Hpk. cbv zeta.
  rewrite !sum_ects_completed_total.
  rewrite !joined_credits by exact Hpk.
  rewrite <- inject_Z_plus. f_equal.
  unfold enrollments_of. cbn [fst ModulBelegungRepository.create modul_belegung].
  rewrite !filter_app, map_app, sum_Z_app. cbn [filter].
  cbn [mb_studiengang_id belegung_row_of].
  assert (forall l, map (credit_weight
                           (fst (ModulBelegungRepository.create db b))) l
                    = map (credit_weight db) l) as Hcw
    by (intros l; reflexivity).
  rewrite !Hcw. f_equal.
  destruct (ModulBelegung.studiengang_id b =? sg); cbn; [|reflexivity].
  unfold _iso.
  destruct (ModulBelegung.ist_bestanden_am b); cbn; [|reflexivity].
  unfold sum_Z. cbn. rewrite Z.add_0_r. reflexivity.
Qed.

(* ===================================================================== *)
(** * Part IV: the texts of dates and numbers                              *)
(* ===================================================================== *)

Local Open Scope string_scope.

(** ** Digits *)

Lemma digit_0_9 (k : Z) :
  0 <= k <= 9 ->
  k = 0 \/ k = 1 \/ k = 2 \/ k = 3 \/ k = 4 \/ k = 5 \/ k = 6 \/ k = 7
  \/ k = 8 \/ k = 9.
Proof. lia. Qed.

Lemma digit_char (k : Z) :
  0 <= k <= 9 ->
  is_digit (ascii_of_N (Z.to_N (48 + k))) = true
  /\ digit_value (ascii_of_N (Z.to_N (48 + k))) = k.
Proof.
  intros H. apply digit_0_9 in H.
  repeat (destruct H as [-> | H]); try subst k; split; reflexivity.
Qed.

Lemma two_digits_shape (n : Z) :
  0 <= n <= 99 ->
  exists c1 c2,
    two_digits n = String c1 (String c2 "")
    /\ is_digit c1 = true /\ is_digit c2 = true
    /\ 10 * digit_value c1 + digit_value c2 = n.
Proof.
  intros H. unfold two_digits.
  destruct (digit_char (n / 10)) as [D1 V1];
    [Z.div_mod_to_equations; lia|].
  destruct (digit_char (n mod 10)) as [D2 V2];
    [Z.div_mod_to_equations; lia|].
  eexists _, _. split; [reflexivity|]. split; [exact D1|].
  split; [exact D2|]. rewrite V1, V2.
  Z.div_mod_to_equations; lia.
Qed.

Lemma four_digits_shape (n : Z) :
  0 <= n <= 9999 ->
  exists c1 c2 c3 c4,
    four_digits n = String c1 (String c2 (String c3 (String c4 "")))
    /\ is_digit c1 = true /\ is_digit c2 = true
    /\ is_digit c3 = true /\ is_digit c4 = true
    /\ 1000 * digit_value c1 + 100 * digit_value c2
       + 10 * digit_value c3 + digit_value c4 = n.
Proof.
  intros H. unfold four_digits.
  destruct (two_digits_shape (n / 100)) as [c1 [c2 [E1 [D1 [D2 V1]]]]];
    [Z.div_mod_to_equations; lia|].
  destruct (two_digits_shape (n mod 100)) as [c3 [c4 [E2 [D3 [D4 V2]]]]];
    [Z.div_mod_to_equations; lia|].
  exists c1, c2, c3, c4. rewrite E1, E2.
  split; [reflexivity|]. repeat (split; [assumption|]).
  Z.div_mod_to_equations; lia.
Qed.

Lemma py_int_four_digits (c1 c2 c3 c4 : ascii) :
  is_digit c1 = true -> is_digit c2 = true ->
  is_digit c3 = true -> is_digit c4 = true ->
  py_int (String c1 (String c2 (String c3 (String c4 ""))))
  = Some (1000 * digit_value c1 + 100 * digit_value c2
          + 10 * digit_value c3 + digit_value c4).
Proof.
  intros H1 H2 H3 H4. unfold py_int, strip. cbn [lstrip].
  rewrite (is_digit_not_space _ H1). cbn [rstrip].
  rewrite (is_digit_not_space _ H4). cbn [int_digits].
  rewrite H1, H2, H3, H4. f_equal; lia.
Qed.

(** ** White space around a text *)

Lemma rstrip_ends_nonspace (s : string) :
  ends_nonspace s = true -> rstrip s = s.
Proof.
  induction s as [|c s IH]; [discriminate|].
  destruct s as [|c' s'].
  - cbn. destruct (isspace c); [discriminate | reflexivity].
  - intros H. change (ends_nonspace (String c' s') = true) in H.
    specialize (IH H). cbn [rstrip] in IH |- *. rewrite IH. reflexivity.
Qed.

Lemma ends_nonspace_app (s ws : string) :
  ends_nonspace s = true -> all_space ws = true ->
  rstrip (s ++ ws) = s.
Proof.
  intros Hs Hws. induction s as [|c s IH]; [discriminate|].
  destruct s as [|c' s'].
  - cbn [append]. cbn in Hs. cbn [rstrip].
    assert (rstrip ws = "") as ->.
    { clear -Hws. induction ws as [|x ws IH]; [reflexivity|].
      cbn in Hws. apply andb_prop in Hws. destruct Hws as [Hx Hws].
      cbn. rewrite (IH Hws), Hx. reflexivity. }
    destruct (isspace c); [discriminate | reflexivity].
  - change (ends_nonspace (String c' s') = true) in Hs.
    specialize (IH Hs). cbn [append rstrip] in IH |- *.
    rewrite IH. reflexivity.
Qed.

Lemma lstrip_app (ws s : string) :
  all_space ws = true -> starts_nonspace s = true -> lstrip (ws ++ s) = s.
Proof.
  intros Hws Hs. induction ws as [|c ws IH].
  - cbn. destruct s as [|c s]; [discriminate|]. cbn in Hs |- *.
    destruct (isspace c); [discriminate | reflexivity].
  - cbn in Hws. apply andb_prop in Hws. destruct Hws as [Hc Hws].
    cbn. rewrite Hc. exact (IH Hws).
Qed.

Lemma strip_padded (ws s ws' : string) :
  all_space ws = true -> all_space ws' = true ->
  starts_nonspace s = true -> ends_nonspace s = true ->
  strip (ws ++ s ++ ws') = s.
Proof.
  intros Hws Hws' Hs He. unfold strip.
  rewrite lstrip_app; [apply ends_nonspace_app; assumption | exact Hws |].
  destruct s as [|c s]; [discriminate|]. exact Hs.
Qed.

(** ** The groups of a day and a month *)

Lemma day_1_31 (d : Z) :
  1 <= d <= 31 ->
  d = 1 \/ d = 2 \/ d = 3 \/ d = 4 \/ d = 5 \/ d = 6 \/ d = 7 \/ d = 8
  \/ d = 9 \/ d = 10 \/ d = 11 \/ d = 12 \/ d = 13 \/ d = 14 \/ d = 15
  \/ d = 16 \/ d = 17 \/ d = 18 \/ d = 19 \/ d = 20 \/ d = 21 \/ d = 22
  \/ d = 23 \/ d = 24 \/ d = 25 \/ d = 26 \/ d = 27 \/ d = 28 \/ d = 29
  \/ d = 30 \/ d = 31.
Proof. lia. Qed.

(** Two digits of a month are taken by the group of [%m] whenever the rest
    of the pattern matches after them. *)
Lemma re_match_month (m : Z) (p : list regex_item) (s : string)
  (found : list (directive * string)) (rest : string) :
  1 <= m <= 12 ->
  re_match p s = Some (found, rest) ->
  re_match (Group dir_m (TimeRE dir_m) :: p) (two_digits m ++ s)
  = Some ((dir_m, two_digits m) :: found, rest).
Proof.
  intros Hm Hp. apply month_1_12 in Hm.
  repeat (destruct Hm as [-> | Hm]); try subst m;
    cbn; rewrite Hp; reflexivity.
Qed.

Lemma re_match_day (d : Z) (p : list regex_item) (s : string)
  (found : list (directive * string)) (rest : string) :
  1 <= d <= 31 ->
  re_match p s = Some (found, rest) ->
  re_match (Group dir_d (TimeRE dir_d) :: p) (two_digits d ++ s)
  = Some ((dir_d, two_digits d) :: found, rest).
Proof.
  intros Hd Hp. apply day_1_31 in Hd.
  repeat (destruct Hd as [-> | Hd]); try subst d;
    cbn; rewrite Hp; reflexivity.
Qed.

Lemma re_match_year (c1 c2 c3 c4 : ascii) (p : list regex_item) (s : string)
  (found : list (directive * string)) (rest : string) :
  is_digit c1 = true -> is_digit c2 = true ->
  is_digit c3 = true -> is_digit c4 = true ->
  re_match p s = Some (found, rest) ->
  re_match (Group dir_Y (TimeRE dir_Y) :: p)
    (String c1 (String c2 (String c3 (String c4 s))))
  = Some ((dir_Y, String c1 (String c2 (String c3 (String c4 "")))) :: found,
          rest).
Proof.
  intros H1 H2 H3 H4 Hp. cbn. rewrite H1, H2, H3, H4, Hp. reflexivity.
Qed.

Lemma re_match_separator (c : ascii) (p : list regex_item) (s : string) :
  re_match (Literal c :: p) (String c s) = re_match p s.
Proof. cbn. rewrite Ascii.eqb_refl. reflexivity. Qed.

Lemma re_match_short_year (c1 c2 : ascii) (s : string) :
  is_digit c1 = true -> is_digit c2 = true ->
  re_match [Group dir_y (TimeRE dir_y)] (String c1 (String c2 s))
  = Some ([(dir_y, String c1 (String c2 ""))], s).
Proof. intros H1 H2. cbn. rewrite H1, H2. reflexivity. Qed.

Lemma py_int_two_digits_of (n : Z) :
  0 <= n <= 99 -> py_int (two_digits n) = Some n.
Proof.
  intros H. destruct (two_digits_shape n H) as [c1 [c2 [E [D1 [D2 V]]]]].
  rewrite E, (py_int_two_digits c1 c2 D1 D2), V. reflexivity.
Qed.

(** ** Reading a date back *)

Lemma valid_date_year (d : date) :
  valid_date d = true -> 0 <= year d <= 9999.
Proof.
  unfold valid_date. intros H.
  repeat (apply andb_prop in H; destruct H as [H ?]).
  rewrite ?Z.leb_le in *. unfold MINYEAR, MAXYEAR in *. lia.
Qed.

Lemma strptime_isoformat (d : date) :
  valid_date d = true -> strptime (isoformat d) "%Y-%m-%d" = Ok d.
Proof.
  intros Hv. destruct (valid_date_ranges d Hv) as [Hm Hd].
  pose proof (valid_date_year d Hv) as Hy.
  destruct (four_digits_shape (year d) Hy)
    as [c1 [c2 [c3 [c4 [E [D1 [D2 [D3 [D4 V]]]]]]]]].
  unfold strptime, isoformat.
  change (pattern "%Y-%m-%d") with
    (Some [Group dir_Y (TimeRE dir_Y); Literal "-";
           Group dir_m (TimeRE dir_m); Literal "-";
           Group dir_d (TimeRE dir_d)]).
  cbv beta iota. rewrite E. cbn [append].
  assert (re_match [Group dir_d (TimeRE dir_d)] (two_digits (day d) ++ "")
          = Some ([(dir_d, two_digits (day d))], "")) as Hday
    by (apply re_match_day; [exact Hd | reflexivity]).
  assert (two_digits (day d) ++ "" = two_digits (day d)) as Hnil
    by reflexivity.
  rewrite Hnil in Hday.
  rewrite (re_match_year c1 c2 c3 c4 _ _
             [(dir_m, two_digits (month d)); (dir_d, two_digits (day d))] ""
             D1 D2 D3 D4).
  - cbn [convert_groups].
    rewrite (py_int_four_digits c1 c2 c3 c4 D1 D2 D3 D4), V.
    rewrite !py_int_two_digits_of by lia. cbn [set_field].
    destruct d as [y m dd]. cbn [year month day] in *. rewrite Hv.
    reflexivity.
  - rewrite re_match_separator.
    apply re_match_month; [exact Hm|].
    rewrite re_match_separator. exact Hday.
Qed.

Lemma strptime_dd_mm_yyyy (d : date) :
  valid_date d = true -> strptime (dd_mm_yyyy d) "%d.%m.%Y" = Ok d.
Proof.
  intros Hv. destruct (valid_date_ranges d Hv) as [Hm Hd].
  pose proof (valid_date_year d Hv) as Hy.
  destruct (four_digits_shape (year d) Hy)
    as [c1 [c2 [c3 [c4 [E [D1 [D2 [D3 [D4 V]]]]]]]]].
  unfold strptime, dd_mm_yyyy.
  change (pattern "%d.%m.%Y") with
    (Some [Group dir_d (TimeRE dir_d); Literal ".";
           Group dir_m (TimeRE dir_m); Literal ".";
           Group dir_Y (TimeRE dir_Y)]).
  cbv beta iota. rewrite E.
  rewrite (re_match_day (day d) _ _
             [(dir_m, two_digits (month d));
              (dir_Y, String c1 (String c2 (String c3 (String c4 ""))))] ""
             Hd).
  - cbn [convert_groups].
    rewrite (py_int_four_digits c1 c2 c3 c4 D1 D2 D3 D4), V.
    rewrite !py_int_two_digits_of by lia. cbn [set_field].
    destruct d as [y m dd]. cbn [year month day] in *. rewrite Hv.
    reflexivity.
  - cbn [append]. rewrite re_match_separator.
    apply re_match_month; [exact Hm|].
    cbn [append]. rewrite re_match_separator.
    apply re_match_year; try assumption. reflexivity.
Qed.

(** The format with the two-digit year stops in the middle of a four-digit
    year, and the text left over is refused. *)
Lemma strptime_dd_mm_yyyy_short (d : date) :
  valid_date d = true ->
  strptime (dd_mm_yyyy d) "%d.%m.%y" = Raise ValueError.
Proof.
  intros Hv. destruct (valid_date_ranges d Hv) as [Hm Hd].
  pose proof (valid_date_year d Hv) as Hy.
  destruct (four_digits_shape (year d) Hy)
    as [c1 [c2 [c3 [c4 [E [D1 [D2 [D3 [D4 V]]]]]]]]].
  unfold strptime, dd_mm_yyyy.
  change (pattern "%d.%m.%y") with
    (Some [Group dir_d (TimeRE dir_d); Literal ".";
           Group dir_m (TimeRE dir_m); Literal ".";
           Group dir_y (TimeRE dir_y)]).
  cbv beta iota. rewrite E.
  rewrite (re_match_day (day d) _ _
             [(dir_m, two_digits (month d));
              (dir_y, String c1 (String c2 ""))]
             (String c3 (String c4 "")) Hd).
  - reflexivity.
  - cbn [append]. rewrite re_match_separator.
    apply re_match_month; [exact Hm|].
    cbn [append]. rewrite re_match_separator.
    apply re_match_short_year; assumption.
Qed.

Lemma strptime_dd_mm_yyyy_iso (d : date) :
  valid_date d = true ->
  strptime (dd_mm_yyyy d) "%Y-%m-%d" = Raise ValueError.
Proof.
  intros Hv. apply no_match_raises. intros dt Hiso.
  apply (iso_needs_four_digits _ dt) in Hiso.
  destruct Hiso as [c1 [c2 [c3 [c4 [r [Hiso [_ [_ D3]]]]]]]].
  unfold dd_mm_yyyy, two_digits in Hiso. cbn [append] in Hiso.
  injection Hiso as _ _ E3 _. subst c3. discriminate.
Qed.

Lemma isoformat_ends (d : date) :
  valid_date d = true ->
  starts_nonspace (isoformat d) = true /\ ends_nonspace (isoformat d) = true.
Proof.
  intros Hv. destruct (valid_date_ranges d Hv) as [Hm Hd].
  pose proof (valid_date_year d Hv) as Hy.
  destruct (four_digits_shape (year d) Hy)
    as [c1 [c2 [c3 [c4 [E [D1 _]]]]]].
  destruct (two_digits_shape (day d)) as [k1 [k2 [Ed [_ [K2 _]]]]]; [lia|].
  unfold isoformat. rewrite E, Ed. unfold two_digits. cbn.
  rewrite (is_digit_not_space _ D1), (is_digit_not_space _ K2). auto.
Qed.

Lemma dd_mm_yyyy_ends (d : date) :
  valid_date d = true ->
  starts_nonspace (dd_mm_yyyy d) = true
  /\ ends_nonspace (dd_mm_yyyy d) = true.
Proof.
  intros Hv. destruct (valid_date_ranges d Hv) as [Hm Hd].
  pose proof (valid_date_year d Hv) as Hy.
  destruct (four_digits_shape (year d) Hy)
    as [c1 [c2 [c3 [c4 [E [_ [_ [_ [D4 _]]]]]]]]].
  destruct (two_digits_shape (day d)) as [k1 [k2 [Ed [K1 _]]]]; [lia|].
  unfold dd_mm_yyyy. rewrite E, Ed. unfold two_digits. cbn.
  rewrite (is_digit_not_space _ K1), (is_digit_not_space _ D4). auto.
Qed.

Lemma starts_nonspace_nonempty (s : string) :
  starts_nonspace s = true -> exists c r, s = String c r.
Proof. destruct s as [|c r]; [discriminate | eauto]. Qed.

(** X18. [parse_date] reads the ISO text of a date of the calendar back
    as that date, also with white space before and after it: what [_iso]
    writes, [parse_date] reads. *)
Theorem parse_date_isoformat (d : date) (ws ws' : string) :
  valid_date d = true ->
  all_space ws = true -> all_space ws' = true ->
  parse_date (Some (ws ++ isoformat d ++ ws')) = Ok (Some d).
Proof.
  intros Hv Hws Hws'. destruct (isoformat_ends d Hv) as [Hs He].
  rewrite parse_date_trimmed. unfold trimmed.
  rewrite (strip_padded ws _ ws' Hws Hws' Hs He).
  destruct (starts_nonspace_nonempty _ Hs) as [c [r E]].
  pose proof (try_formats_cases (isoformat d)) as H.
  rewrite (strptime_isoformat d Hv) in H. rewrite E at 1. cbv iota.
  exact H.
Qed.

(** X19. [parse_date] reads the text DD.MM.YYYY of a date of the calendar
    as that date, also with white space around it: the ISO format and the
    format with the two-digit year both refuse the text, the second one
    because two digits of the year are left over. *)
Theorem parse_date_dd_mm_yyyy (d : date) (ws ws' : string) :
  valid_date d = true ->
  all_space ws = true -> all_space ws' = true ->
  strptime (dd_mm_yyyy d) "%Y-%m-%d" = Raise ValueError
  /\ strptime (dd_mm_yyyy d) "%d.%m.%y" = Raise ValueError
  /\ parse_date (Some (ws ++ dd_mm_yyyy d ++ ws')) = Ok (Some d).
Proof.
  intros Hv Hws Hws'. destruct (dd_mm_yyyy_ends d Hv) as [Hs He].
  split; [exact (strptime_dd_mm_yyyy_iso d Hv)|].
  split; [exact (strptime_dd_mm_yyyy_short d Hv)|].
  rewrite parse_date_trimmed. unfold trimmed.
  rewrite (strip_padded ws _ ws' Hws Hws' Hs He).
  destruct (starts_nonspace_nonempty _ Hs) as [c [r E]].
  pose proof (try_formats_cases (dd_mm_yyyy d)) as H.
  rewrite (strptime_dd_mm_yyyy_iso d Hv) in H.
  rewrite (strptime_dd_mm_yyyy_short d Hv) in H.
  rewrite (strptime_dd_mm_yyyy d Hv) in H. rewrite E at 1. cbv iota.
  exact H.
Qed.

Lemma strptime_valid (t format : string) (d : date) :
  strptime t format = Ok d -> valid_date d = true.
Proof.
  unfold strptime. destruct (pattern format); [|discriminate].
  destruct (re_match _ t) as [[found [|c rest]]|]; try discriminate.
  destruct (convert_groups _ found) as [[[y m] dd]|]; [|discriminate].
  destruct (valid_date _) eqn:E; [|discriminate].
  intros [= <-]. exact E.
Qed.

Lemma strip_unpadded (s : string) :
  starts_nonspace s = true -> ends_nonspace s = true -> strip s = s.
Proof.
  intros Hs He. unfold strip. destruct s as [|c r]; [discriminate|].
  cbn in Hs. cbn [lstrip]. destruct (isspace c); [discriminate|].
  apply rstrip_ends_nonspace. exact He.
Qed.

(** X20. Whatever the text, a date [parse_date] returns is a date of the
    calendar: a text such as 30.02.2024 gives none.  Written as ISO text,
    as [_iso] stores it, and parsed again, it is the same date. *)
Theorem parse_date_valid (text : option string) (d : date) :
  parse_date text = Ok (Some d) ->
  valid_date d = true
  /\ parse_date (Some (isoformat d)) = Ok (Some d).
Proof.
  intros H.
  assert (valid_date d = true) as Hv.
  { rewrite parse_date_trimmed in H.
    pose proof (try_formats_cases (trimmed text)) as Hc.
    destruct (trimmed text) as [|c r]; [discriminate|].
    destruct (strptime _ "%Y-%m-%d") as [d1|e1] eqn:E1.
    { rewrite Hc in H. injection H as <-. exact (strptime_valid _ _ _ E1). }
    destruct (strptime _ "%d.%m.%y") as [d2|e2] eqn:E2.
    { rewrite Hc in H. injection H as <-. exact (strptime_valid _ _ _ E2). }
    destruct (strptime _ "%d.%m.%Y") as [d3|e3] eqn:E3.
    { rewrite Hc in H. injection H as <-. exact (strptime_valid _ _ _ E3). }
    rewrite Hc in H. discriminate. }
  split; [exact Hv|].
  destruct (isoformat_ends d Hv) as [Hs He].
  rewrite parse_date_trimmed. unfold trimmed.
  rewrite (strip_unpadded _ Hs He).
  destruct (starts_nonspace_nonempty _ Hs) as [c [r E]].
  pose proof (try_formats_cases (isoformat d)) as Hc.
  rewrite (strptime_isoformat d Hv) in Hc. rewrite E at 1. cbv iota.
  exact Hc.
Qed.

Local Close Scope string_scope.

(* --------------------------------------------------------------------- *)
(** ** The order of ISO texts *)

Local Open Scope string_scope.
Local Open Scope Z_scope.

Lemma digit_compare (j k : Z) :
  0 <= j <= 9 -> 0 <= k <= 9 ->
  Ascii.compare (ascii_of_N (Z.to_N (48 + j))) (ascii_of_N (Z.to_N (48 + k)))
  = (j ?= k).
Proof.
  intros Hj Hk. unfold Ascii.compare.
  rewrite !N_ascii_embedding by lia.
  rewrite (Z2N.inj_compare (48 + j) (48 + k)) by lia.
  apply Z.add_compare_mono_l.
Qed.

Lemma two_digits_compare (n m : Z) (s t : string) :
  0 <= n <= 99 -> 0 <= m <= 99 ->
  String.compare (two_digits n ++ s) (two_digits m ++ t)
  = match n ?= m with
    | Eq => String.compare s t
    | c => c
    end.
Proof.
  intros Hn Hm. unfold two_digits. cbn [append String.compare].
  rewrite !digit_compare by (Z.div_mod_to_equations; lia).
  destruct (Z.compare_spec (n / 10) (m / 10)) as [E1|E1|E1];
    destruct (Z.compare_spec (n mod 10) (m mod 10)) as [E2|E2|E2];
    destruct (Z.compare_spec n m) as [E|E|E];
    try reflexivity; exfalso; Z.div_mod_to_equations; lia.
Qed.

Lemma four_digits_compare (n m : Z) (s t : string) :
  0 <= n <= 9999 -> 0 <= m <= 9999 ->
  String.compare (four_digits n ++ s) (four_digits m ++ t)
  = match n ?= m with
    | Eq => String.compare s t
    | c => c
    end.
Proof.
  intros Hn Hm. unfold four_digits.
  assert (forall a b u, (two_digits a ++ two_digits b) ++ u
                        = two_digits a ++ (two_digits b ++ u)) as Hassoc
    by reflexivity.
  rewrite !Hassoc.
  rewrite two_digits_compare by (Z.div_mod_to_equations; lia).
  rewrite two_digits_compare by (Z.div_mod_to_equations; lia).
  destruct (Z.compare_spec (n / 100) (m / 100)) as [E1|E1|E1];
    destruct (Z.compare_spec (n mod 100) (m mod 100)) as [E2|E2|E2];
    destruct (Z.compare_spec n m) as [E|E|E];
    try reflexivity; exfalso; Z.div_mod_to_equations; lia.
Qed.

(** X21. The ISO texts of two dates of the calendar compare, character by
    character, as the dates do, and different dates have different texts:
    on the texts [_iso] stores, the MAX and the ORDER BY of the database
    are those of the dates. *)
Theorem isoformat_order (a b : date) :
  valid_date a = true -> valid_date b = true ->
  String.compare (isoformat a) (isoformat b) = date_compare a b
  /\ (isoformat a = isoformat b -> a = b).
Proof.
  intros Ha Hb.
  destruct (valid_date_ranges a Ha) as [Hma Hda].
  destruct (valid_date_ranges b Hb) as [Hmb Hdb].
  pose proof (valid_date_year a Ha) as Hya.
  pose proof (valid_date_year b Hb) as Hyb.
  assert (String.compare (isoformat a) (isoformat b) = date_compare a b)
    as Hcmp.
  { unfold isoformat, date_compare.
    rewrite four_digits_compare by assumption.
    destruct (year a ?= year b); try reflexivity.
    cbn [append String.compare]. change (Ascii.compare "-" "-") with Eq.
    cbv iota. rewrite two_digits_compare by lia.
    destruct (month a ?= month b); try reflexivity.
    cbn [append String.compare]. change (Ascii.compare "-" "-") with Eq.
    cbv iota.
    change (two_digits (day a)) with (two_digits (day a) ++ "").
    change (two_digits (day b)) with (two_digits (day b) ++ "").
    rewrite two_digits_compare by lia.
    destruct (day a ?= day b); reflexivity. }
  split; [exact Hcmp|].
  intros E. rewrite E in Hcmp.
  assert (String.compare (isoformat b) (isoformat b) = Eq) as Hrefl.
  { generalize (isoformat b). intros s. induction s as [|c s IH];
      [reflexivity|]. cbn. unfold Ascii.compare. rewrite N.compare_refl.
    exact IH. }
  rewrite Hrefl in Hcmp. unfold date_compare in Hcmp.
  destruct a as [ya ma da], b as [yb mb db]. cbn [year month day] in *.
  destruct (Z.compare_spec ya yb); try discriminate.
  destruct (Z.compare_spec ma mb); try discriminate.
  destruct (Z.compare_spec da db); try discriminate.
  subst. reflexivity.
Qed.

(* --------------------------------------------------------------------- *)
(** ** [parse_int] *)

Lemma digits_value_digit (k acc : Z) (s : string) :
  0 <= k <= 9 ->
  digits_value acc (String (ascii_of_N (Z.to_N (48 + k))) s)
  = digits_value (10 * acc + k) s.
Proof.
  intros H. destruct (digit_char k H) as [D V]. cbn [digits_value].
  rewrite D, V. reflexivity.
Qed.

(** Reading the digits of [n] multiplies what was read before by a power of
    ten and adds [n]. *)
Lemma digits_value_decimal (fuel : nat) (n : Z) :
  0 <= n < 2 ^ Z.of_nat fuel ->
  exists k,
    forall tail acc,
      digits_value acc (decimal_digits fuel n tail)
      = digits_value (acc * k + n) tail.
Proof.
  revert n. induction fuel as [|fuel IH]; intros n Hn.
  - exists 1. intros tail acc. cbn in Hn |- *. f_equal. lia.
  - cbn [decimal_digits]. destruct (Z.ltb_spec n 10) as [Hlt|Hge].
    + exists 10. intros tail acc.
      rewrite digits_value_digit by (Z.div_mod_to_equations; lia).
      f_equal. Z.div_mod_to_equations; lia.
    + destruct (IH (n / 10)) as [k Hk].
      { rewrite Nat2Z.inj_succ, Z.pow_succ_r in Hn by lia.
        Z.div_mod_to_equations; lia. }
      exists (10 * k). intros tail acc. rewrite Hk.
      rewrite digits_value_digit by (Z.div_mod_to_equations; lia).
      f_equal. Z.div_mod_to_equations; lia.
Qed.

Lemma decimal_digits_tail (fuel : nat) (n : Z) (c : ascii) (r : string) :
  is_digit c = true ->
  exists c' r',
    decimal_digits fuel n (String c r) = String c' r'
    /\ is_digit c' = true
    /\ ends_nonspace (String c' r') = ends_nonspace (String c r).
Proof.
  revert n c r. induction fuel as [|fuel IH]; intros n c r Hc.
  - exists c, r. auto.
  - cbn [decimal_digits].
    assert (0 <= n mod 10 <= 9) as Hd by (Z.div_mod_to_equations; lia).
    destruct (digit_char _ Hd) as [D _].
    destruct (n <? 10)%Z.
    + eexists _, _. split; [reflexivity|]. split; [exact D|]. reflexivity.
    + destruct (IH (n / 10) _ (String c r) D) as [c' [r' [E [D' He]]]].
      exists c', r'. split; [exact E|]. split; [exact D'|].
      rewrite He. reflexivity.
Qed.

(** The numeral of a natural number starts and ends with a digit. *)
Lemma decimal_digits_shape (fuel : nat) (n : Z) :
  exists c r,
    decimal_digits (S fuel) n "" = String c r
    /\ is_digit c = true
    /\ ends_nonspace (String c r) = true.
Proof.
  cbn [decimal_digits].
  assert (0 <= n mod 10 <= 9) as Hd by (Z.div_mod_to_equations; lia).
  destruct (digit_char _ Hd) as [D _].
  destruct (n <? 10)%Z.
  - eexists _, _. split; [reflexivity|]. split; [exact D|].
    cbn [ends_nonspace starts_nonspace].
    rewrite (is_digit_not_space _ D). reflexivity.
  - destruct (decimal_digits_tail fuel (n / 10) _ "" D)
      as [c' [r' [E [D' He]]]].
    exists c', r'. split; [exact E|]. split; [exact D'|].
    rewrite He. cbn [ends_nonspace starts_nonspace].
    rewrite (is_digit_not_space _ D). reflexivity.
Qed.

Lemma unsigned_value_decimal (n : Z) :
  0 <= n ->
  unsigned_value (decimal_digits (S (Z.to_nat (Z.log2 n))) n "") = Some n.
Proof.
  intros Hn.
  destruct (decimal_digits_shape (Z.to_nat (Z.log2 n)) n)
    as [c [r [E [D _]]]].
  unfold unsigned_value. rewrite E, D, <- E.
  destruct (digits_value_decimal (S (Z.to_nat (Z.log2 n))) n) as [k Hk].
  { split; [exact Hn|]. rewrite Nat2Z.inj_succ.
    rewrite Z2Nat.id by apply Z.log2_nonneg.
    destruct (Z.eq_dec n 0) as [-> | Hne]; [reflexivity|].
    apply (Z.log2_spec n). lia. }
  rewrite Hk. cbn [digits_value]. f_equal; lia.
Qed.

Lemma str_of_int_shape (z : Z) :
  starts_nonspace (str_of_int z) = true
  /\ ends_nonspace (str_of_int z) = true.
Proof.
  unfold str_of_int. destruct (z <? 0)%Z.
  - destruct (decimal_digits_shape (Z.to_nat (Z.log2 (- z))) (- z))
      as [c [r [E [D He]]]].
    rewrite E. split; [reflexivity | exact He].
  - destruct (decimal_digits_shape (Z.to_nat (Z.log2 z)) z)
      as [c [r [E [D He]]]].
    rewrite E. split; [|exact He].
    cbn [ends_nonspace starts_nonspace].
    rewrite (is_digit_not_space _ D). reflexivity.
Qed.

Lemma digit_not_sign (c : ascii) :
  is_digit c = true -> Ascii.eqb c "-" = false /\ Ascii.eqb c "+" = false.
Proof.
  intros H. split.
  - destruct (Ascii.eqb_spec c "-") as [-> |]; [discriminate | reflexivity].
  - destruct (Ascii.eqb_spec c "+") as [-> |]; [discriminate | reflexivity].
Qed.

Lemma int_of_str_of_int (z : Z) : int_of_str (str_of_int z) = Some z.
Proof.
  unfold int_of_str. destruct (str_of_int_shape z) as [Hs He].
  rewrite (strip_unpadded _ Hs He). unfold str_of_int.
  destruct (Z.ltb_spec z 0) as [Hneg|Hpos].
  - cbn [Ascii.eqb Bool.eqb]. cbv iota.
    rewrite unsigned_value_decimal by lia. cbn [option_map].
    f_equal. lia.
  - pose proof (unsigned_value_decimal z Hpos) as Hu.
    destruct (decimal_digits_shape (Z.to_nat (Z.log2 z)) z)
      as [c [r [E [D _]]]].
    rewrite E in Hu |- *. destruct (digit_not_sign c D) as [-> ->].
    exact Hu.
Qed.

Lemma int_of_str_strip (s : string) : int_of_str (strip s) = int_of_str s.
Proof. unfold int_of_str. rewrite strip_idempotent. reflexivity. Qed.

(** X22. [parse_int] reads the decimal numeral of an integer, as [str]
    prints it, back as that integer, also with white space around it; with
    a minimal value it raises the validation error exactly for the
    integers below the minimum.  The numeral is one the interpreter reads
    at all, of at most 4300 digits. *)
Theorem parse_int_str_of_int (z : Z) (ws ws' : string)
  (min_value : option Z) :
  Z.abs z < 10 ^ 4300 ->
  all_space ws = true -> all_space ws' = true ->
  parse_int (Some (ws ++ str_of_int z ++ ws')) min_value
  = match min_value with
    | Some m => if (z <? m)%Z then Raise ValidationError else Ok z
    | None => Ok z
    end.
Proof.
  intros _ Hws Hws'. unfold parse_int, py_str.
  destruct (str_of_int_shape z) as [Hs He].
  rewrite (strip_padded ws _ ws' Hws Hws' Hs He), int_of_str_of_int.
  reflexivity.
Qed.

(** X23. An integer [parse_int] returns is the one [int] reads in the
    text and is not below the minimal value; the only error is the
    validation error; and what is parsed with the minimum 1 passes
    [validate_attempts]. *)
Theorem parse_int_checked (text : option string) (min_value : option Z) :
  (forall v, parse_int text min_value = Ok v ->
     int_of_str (py_str text) = Some v
     /\ (forall m, min_value = Some m -> m <= v)
     /\ (min_value = Some 1 -> validate_attempts v = Ok tt))
  /\ (forall e, parse_int text min_value = Raise e -> e = ValidationError).
Proof.
  unfold parse_int. rewrite int_of_str_strip.
  destruct (int_of_str (py_str text)) as [v|].
  - destruct min_value as [m|].
    + destruct (Z.ltb_spec v m) as [Hlt|Hge].
      * split; [discriminate | intros e [= <-]; reflexivity].
      * split; [|discriminate]. intros v' [= <-].
        split; [reflexivity|]. split.
        -- intros m' [= <-]. exact Hge.
        -- intros [= ->]. unfold validate_attempts.
           destruct (Z.ltb_spec v 1); [lia | reflexivity].
    + split; [|discriminate]. intros v' [= <-].
      split; [reflexivity|]. split; discriminate.
  - split; [discriminate | intros e [= <-]; reflexivity].
Qed.

(** X24. [parse_optional_int] gives [None] for a missing text and for a
    text of white space only; for every other text it is [parse_int] on
    that text: same integer, same error. *)
Theorem parse_optional_int_parse_int (text : option string)
  (min_value : option Z) :
  parse_optional_int text min_value
  = match trimmed text with
    | EmptyString => Ok None
    | _ =>
        match parse_int text min_value with
        | Ok v => Ok (Some v)
        | Raise e => Raise e
        end
    end.
Proof.
  unfold parse_optional_int, trimmed.
  destruct text as [s|]; [|reflexivity].
  destruct (strip s) as [|c r] eqn:E; [reflexivity|].
  unfold parse_int, py_str. rewrite <- E, strip_idempotent. reflexivity.
Qed.

Local Close Scope string_scope.

(* --------------------------------------------------------------------- *)
(** ** The repository and validation theorems at the sample data *)

Local Open Scope string_scope.

Lemma studiengang_create_is_latest_witness :
  exists id,
    snd (StudiengangRepository.create sample_db 2 wirtschaftsinformatik)
    = Ok id
    /\ get_latest_for_student
         (fst (StudiengangRepository.create sample_db 2 wirtschaftsinformatik))
         1
       = get_latest_for_student sample_db 1.
Proof.
  destruct (studiengang_create_is_latest sample_db 2 wirtschaftsinformatik)
    as [id [H1 [_ [_ [H4 _]]]]].
  exists id. split; [exact H1|]. apply H4. lia.
Defined.

Lemma studiengang_update_latest_witness :
  get_latest_for_student
    (StudiengangRepository.update sample_db 3 wirtschaftsinformatik) 1
  = Some (3, wirtschaftsinformatik).
Proof.
  eapply (proj1 (studiengang_update_latest sample_db 3 wirtschaftsinformatik)).
  reflexivity.
Defined.

Lemma modul_create_then_get_witness :
  exists id,
    snd (ModulRepository.create sample_db analysis) = Ok id
    /\ ModulRepository.get_by_title
         (fst (ModulRepository.create sample_db analysis)) "Analysis"
       = Some (catalogued_as id analysis).
Proof.
  assert (forall r, In r (modul sample_db) -> m_titel r <> Modul.titel analysis)
    as Hnew.
  { intros r Hr. cbn in Hr.
    repeat (destruct Hr as [<- | Hr]; [discriminate|]). contradiction. }
  destruct (modul_create_then_get sample_db analysis Hnew)
    as [id [H1 [_ [_ [H4 _]]]]].
  exists id. split; [exact H1 | exact H4].
Defined.

Lemma modul_update_then_get_witness :
  ModulRepository.get_by_id
    (ModulRepository.update_by_id sample_db 2 analysis) 2
  = Some (catalogued_as 2 analysis).
Proof.
  apply (proj1 (modul_update_then_get sample_db 2 analysis)).
  exists programmierung. split; [left; reflexivity | reflexivity].
Defined.

Lemma list_all_sorted_witness :
  StronglySorted (fun a b => m_modul_id a < m_modul_id b)
    (ModulRepository.list_all sample_db).
Proof.
  apply (proj2 (proj2 (list_all_sorted sample_db))).
  unfold modul_pk. concrete_NoDup.
Defined.

Lemma get_total_ects_sum_witness :
  ModulRepository.get_total_ects empty_DB = 0%Q.
Proof.
  apply (proj1 (proj2 (get_total_ects_sum empty_DB analysis))). reflexivity.
Defined.

Lemma belegung_create_then_get_witness :
  exists id,
    snd (ModulBelegungRepository.create sample_db statistik_passed) = Ok id
    /\ ModulBelegungRepository.get
         (fst (ModulBelegungRepository.create sample_db statistik_passed)) 1 id
       = None.
Proof.
  destruct (belegung_create_then_get sample_db statistik_passed)
    as [id [H1 [_ [_ [H4 _]]]]].
  exists id. split; [exact H1|]. apply H4. cbn. lia.
Defined.

Lemma belegung_update_then_get_witness :
  exists db',
    update sample_db statistik_graded = Ok db'
    /\ ModulBelegungRepository.get db' 3 4 = Some statistik_graded.
Proof.
  destruct (belegung_update_then_get sample_db statistik_graded 4)
    as [db' [H1 [H2 _]]].
  - reflexivity.
  - eexists. split; [right; right; right; left; reflexivity|].
    split; reflexivity.
  - exists db'. split; [exact H1 | exact H2].
Defined.

Lemma belegung_delete_then_get_witness :
  exists db',
    delete sample_db 3 1 = Ok db'
    /\ ModulBelegungRepository.get db' 3 2
       = ModulBelegungRepository.get sample_db 3 2.
Proof.
  destruct (belegung_delete_then_get sample_db 3 1) as [db' [H1 [_ [H3 _]]]].
  exists db'. split; [exact H1|]. apply H3. discriminate.
Defined.

Lemma writes_keep_primary_keys_witness :
  belegung_pk (fst (ModulBelegungRepository.create sample_db statistik_passed))
  /\ modul_pk (ModulRepository.update_by_id sample_db 2 analysis)
  /\ studiengang_pk
       (fst (StudiengangRepository.create sample_db 2 wirtschaftsinformatik)).
Proof.
  destruct (writes_keep_primary_keys sample_db) as [Hb [Hm Hs]].
  split; [|split].
  - apply Hb. unfold belegung_pk. concrete_NoDup.
  - apply Hm. unfold modul_pk. concrete_NoDup.
  - apply Hs. unfold studiengang_pk. concrete_NoDup.
Defined.

Lemma upsert_keeps_students_unique_witness :
  student_unique (fst (upsert sample_db ada_renamed)).
Proof.
  apply upsert_keeps_students_unique.
  split; cbn; repeat (constructor; [cbn; intuition discriminate|]);
    constructor.
Defined.


Lemma last_completion_date_latest_witness :
  exists mb,
    In mb (completed_enrollments sample_db 3)
    /\ mb_ist_bestanden_am mb = Some (mkdate 2024 2 20).
Proof.
  apply (proj2 (last_completion_date_latest sample_db 3) (mkdate 2024 2 20)).
  reflexivity.
Defined.

Lemma plot_completions_chronological_witness :
  exists src,
    Permutation src (completed_with_module sample_db 3)
    /\ StronglySorted completion_before src
    /\ ModulBelegungRepository.plot_completions sample_db 3
       = map completion_of src.
Proof.
  apply (proj1 (proj2 (plot_completions_chronological sample_db 3))).
  unfold modul_pk. concrete_NoDup.
Defined.

Lemma create_then_plot_latest_witness :
  let rows :=
    plot_latest_per_module
      (fst (ModulBelegungRepository.create sample_db statistik_passed)) 3 in
  (exists r, In r rows /\ shows_attempt r statistik_passed statistik)
  /\ forall r, In r rows -> p_modul_id r = 3 ->
                shows_attempt r statistik_passed statistik.
Proof.
  destruct (create_then_plot_latest sample_db statistik_passed statistik)
    as [H1 H2].
  - right; right; left; reflexivity.
  - reflexivity.
  - split; [exact H1|]. apply H2.
    + unfold belegung_pk. concrete_NoDup.
    + unfold modul_pk. concrete_NoDup.
Defined.

Lemma create_then_sum_ects_witness :
  sum_ects_completed
    (fst (ModulBelegungRepository.create sample_db statistik_passed)) 3
  = (sum_ects_completed sample_db 3 + inject_Z 5)%Q.
Proof.
  apply (create_then_sum_ects sample_db statistik_passed 3).
  unfold modul_pk. concrete_NoDup.
Defined.

Lemma parse_date_isoformat_witness :
  parse_date (Some (" " ++ isoformat (mkdate 2024 2 29) ++ "  "))
  = Ok (Some (mkdate 2024 2 29)).
Proof. apply parse_date_isoformat; reflexivity. Defined.

Lemma parse_date_dd_mm_yyyy_witness :
  parse_date (Some ("  " ++ dd_mm_yyyy (mkdate 1999 12 31) ++ " "))
  = Ok (Some (mkdate 1999 12 31)).
Proof.
  apply (parse_date_dd_mm_yyyy (mkdate 1999 12 31) "  " " "); reflexivity.
Defined.

Lemma parse_date_valid_witness :
  valid_date (mkdate 2024 2 29) = true
  /\ parse_date (Some (isoformat (mkdate 2024 2 29)))
     = Ok (Some (mkdate 2024 2 29)).
Proof.
  apply (parse_date_valid (Some "29.02.24") (mkdate 2024 2 29)).
  reflexivity.
Defined.

Lemma isoformat_order_witness :
  String.compare (isoformat (mkdate 2024 2 20)) (isoformat (mkdate 2024 1 15))
  = date_compare (mkdate 2024 2 20) (mkdate 2024 1 15).
Proof.
  apply (proj1 (isoformat_order (mkdate 2024 2 20) (mkdate 2024 1 15)
                  eq_refl eq_refl)).
Defined.

Lemma parse_int_str_of_int_witness :
  parse_int (Some (" " ++ str_of_int (-4096) ++ " ")) (Some (-5000))
  = Ok (-4096).
Proof.
  apply (parse_int_str_of_int (-4096) " " " " (Some (-5000)));
    [vm_compute; reflexivity | reflexivity | reflexivity].
Defined.

Lemma parse_int_checked_witness :
  int_of_str (py_str (Some " 3 ")) = Some 3
  /\ (forall m, Some 1 = Some m -> m <= 3)
  /\ (Some 1 = Some 1 -> validate_attempts 3 = Ok tt).
Proof.
  apply (proj1 (parse_int_checked (Some " 3 ") (Some 1)) 3). reflexivity.
Defined.

Local Close Scope string_scope.
